(** * openai-agents: tool registry, tool dispatch, history store and the
      chat-completion turn, as a shallow embedding of the TypeScript sources.

    Conventions.
    - TypeScript interfaces are records, string-literal unions are inductive
      types, [T | undefined] is [option T].
    - The Redis keyspace is a [gmap]. A plain JavaScript object used as a
      dictionary ([ToolFunctions]) is a [gmap] of its own properties
      together with its prototype: a read [obj[name]] that finds no own
      property goes on to the prototype, see [get_function].
    - A string is the sequence of the UTF-8 bytes of the JavaScript string;
      [js_length] counts its UTF-16 code units.
    - An object given as options ([custom_params], [history]) is kept by
      its own properties, since a property that is present with the value
      [undefined] counts in a spread [{...a, ...b}].
    - A function that can throw returns a [result]; a function that also
      mutates an object returns the new object next to the result, because
      a JavaScript exception does not roll back earlier writes.
    - Arrays that are shared by reference (the agent's template messages
      and the working sequence of a turn) are modelled with an explicit
      reference, see [ArrayRef] and [Mem]. *)

From Stdlib Require Import ZArith Ascii String List Bool Lia.
From stdpp Require Import base option list strings pretty gmap fin_maps.

Set Warnings "-register-all".

Open Scope string_scope.
Open Scope Z_scope.

(* ================================================================== *)
(** * JavaScript values and exceptions *)
(* ================================================================== *)

(** Data values as they come out of [JSON.parse] or are exported by a tool
    module: everything but functions. *)
Inductive value : Type :=
  | VUndefined
  | VNull
  | VBool (b : bool)
  | VNum (n : Z)
  | VStr (s : string)
  | VArr (items : list value)
  | VObj (fields : list (string * value)).

(** [typeof v] *)
Definition typeof (v : value) : string :=
  match v with
  | VUndefined => "undefined"
  | VNull => "object"
  | VBool _ => "boolean"
  | VNum _ => "number"
  | VStr _ => "string"
  | VArr _ => "object"
  | VObj _ => "object"
  end.

(** [!v] is [negb (truthy v)] *)
Definition truthy (v : value) : bool :=
  match v with
  | VUndefined | VNull => false
  | VBool b => b
  | VNum n => negb (n =? 0)
  | VStr s => negb (String.eqb s EmptyString)
  | VArr _ | VObj _ => true
  end.

(** Property read [v.key]; a missing property reads as [undefined]. *)
Fixpoint assoc_get (key : string) (fields : list (string * value)) : value :=
  match fields with
  | [] => VUndefined
  | (k, v) :: rest => if String.eqb k key then v else assoc_get key rest
  end.

Definition get_prop (key : string) (v : value) : value :=
  match v with
  | VObj fields => assoc_get key fields
  | _ => VUndefined
  end.

(** The error classes of [errors.ts], plus the built-in ones the code meets. *)
Inductive ErrorClass : Type :=
  | CError
  | CValidationError
  | CToolNotFoundError
  | CDirectoryAccessError
  | CFileReadError
  | CFileImportError
  | CInvalidToolError
  | CToolConfigurationError
  | CSyntaxError
  | CTypeError
  | CClientClosedError.

(** What a [throw] carries: an [Error] object (class, message, cause) or
    some value that is not an [Error]. *)
Inductive exn : Type :=
  | Thrown (cls : ErrorClass) (message : string) (cause : option exn)
  | ThrownValue.

(** [error instanceof Error ? error.message : 'Unknown error'] *)
Definition error_message (e : exn) : string :=
  match e with
  | Thrown _ m _ => m
  | ThrownValue => "Unknown error"
  end.

(** [error instanceof Error ? error : undefined] *)
Definition error_cause (e : exn) : option exn :=
  match e with
  | Thrown _ _ _ => Some e
  | ThrownValue => None
  end.

Definition instanceof (e : exn) (c : ErrorClass) : bool :=
  match e, c with
  | Thrown _ _ _, CError => true
  | Thrown CValidationError _ _, CValidationError => true
  | Thrown CToolNotFoundError _ _, CToolNotFoundError => true
  | Thrown CDirectoryAccessError _ _, CDirectoryAccessError => true
  | Thrown CFileReadError _ _, CFileReadError => true
  | Thrown CFileImportError _ _, CFileImportError => true
  | Thrown CInvalidToolError _ _, CInvalidToolError => true
  | Thrown CToolConfigurationError _ _, CToolConfigurationError => true
  | Thrown CSyntaxError _ _, CSyntaxError => true
  | Thrown CTypeError _ _, CTypeError => true
  | Thrown CClientClosedError _ _, CClientClosedError => true
  | _, _ => false
  end.

(** errors.ts *)
Module Errors.
Definition Error (message : string) : exn := Thrown CError message None.
Definition ValidationError (message : string) : exn :=
  Thrown CValidationError message None.
Definition ToolNotFoundError (toolName : string) : exn :=
  Thrown CToolNotFoundError ("Tool not found: " +:+ toolName) None.
Definition DirectoryAccessError (dirPath : string) (cause : option exn) : exn :=
  Thrown CDirectoryAccessError
    ("Was not possible to access the directory: " +:+ dirPath) cause.
Definition FileReadError (filePath : string) (cause : option exn) : exn :=
  Thrown CFileReadError ("Error reading file: " +:+ filePath) cause.
Definition FileImportError (filePath : string) (cause : option exn) : exn :=
  Thrown CFileImportError ("Error importing file: " +:+ filePath) cause.
Definition InvalidToolError (filePath functionName message : string) : exn :=
  Thrown CInvalidToolError
    ("Invalid tool found at " +:+ filePath +:+ ": " +:+ functionName +:+ ". "
       +:+ message) None.
Definition ToolConfigurationError (message : string) : exn :=
  Thrown CToolConfigurationError
    ("Error on the tools configuration: " +:+ message) None.
End Errors.
Import Errors.

(** Outcome of a call that may throw. *)
Inductive result (A : Type) : Type :=
  | Ok (a : A)
  | Err (e : exn).
Arguments Ok {A} a.
Arguments Err {A} e.

#[global] Instance result_ret : MRet result := fun A a => Ok a.
#[global] Instance result_bind : MBind result := fun A B k r =>
  match r with
  | Ok a => k a
  | Err e => Err e
  end.
#[global] Instance result_fmap : FMap result := fun A B f r =>
  match r with
  | Ok a => Ok (f a)
  | Err e => Err e
  end.

(** [try { body } catch (error) { throw handler(error) }] *)
Definition try_rethrow {A : Type} (body : result A) (handler : exn -> exn) : result A :=
  match body with
  | Ok a => Ok a
  | Err e => Err (handler e)
  end.

(** [xs.map(f)] where [f] may throw: stops at the first failure. *)
Fixpoint map_result {A B : Type} (f : A -> result B) (xs : list A) : result (list B) :=
  match xs with
  | [] => Ok []
  | x :: rest =>
      y ← f x;
      ys ← map_result f rest;
      Ok (y :: ys)
  end.

(* ================================================================== *)
(** * utils.ts *)
(* ================================================================== *)

(** [CompletionUsage]: token counts, non-negative integers far below 2^53,
    where JavaScript number addition is exact integer addition. *)
Record CompletionUsage : Type := mkUsage {
  prompt_tokens : Z;
  completion_tokens : Z;
  total_tokens : Z
}.

(** [usage?.field ?? 0] *)
Definition field_or_0 (f : CompletionUsage -> Z) (u : option CompletionUsage) : Z :=
  match u with
  | Some x => f x
  | None => 0
  end.

Definition getTokensUsage (usage1 usage2 : option CompletionUsage) : CompletionUsage :=
  {| prompt_tokens :=
       field_or_0 prompt_tokens usage1 + field_or_0 prompt_tokens usage2;
     completion_tokens :=
       field_or_0 completion_tokens usage1 + field_or_0 completion_tokens usage2;
     total_tokens :=
       field_or_0 total_tokens usage1 + field_or_0 total_tokens usage2 |}.

(** [Number.MAX_SAFE_INTEGER]: up to it every integer is a number of its
    own, and the addition of numbers is the addition of integers as long as
    the operands and the sum are integers that stay below it. *)
Definition MAX_SAFE_INTEGER : Z := 2 ^ 53 - 1.

Definition safe_count (n : Z) : Prop := 0 <= n <= MAX_SAFE_INTEGER.

(** A usage record, present or missing, whose counts are safe. *)
Definition safe_usage (u : option CompletionUsage) : Prop :=
  safe_count (field_or_0 prompt_tokens u)
  /\ safe_count (field_or_0 completion_tokens u)
  /\ safe_count (field_or_0 total_tokens u).

(* ================================================================== *)
(** * Messages (types.ts, re-exported from the OpenAI SDK) *)
(* ================================================================== *)

Inductive Role : Type := system | user | assistant | tool.

#[global] Instance Role_eq_dec : EqDecision Role.
Proof. solve_decision. Defined.

(** [{ id, type: 'function', function: { name, arguments } }] *)
Record ToolCall : Type := mkToolCall {
  call_id : string;
  call_name : string;       (* function.name *)
  call_arguments : string   (* function.arguments, the raw JSON text *)
}.

(** [ChatCompletionMessageParam] / [ChatCompletionMessage] *)
Record Message : Type := mkMessage {
  role : Role;
  content : option string;             (* string | null *)
  tool_calls : option (list ToolCall);
  tool_call_id : option string
}.

Definition system_message (text : string) : Message :=
  {| role := system; content := Some text; tool_calls := None; tool_call_id := None |}.
Definition user_message (text : string) : Message :=
  {| role := user; content := Some text; tool_calls := None; tool_call_id := None |}.
Definition tool_message (id text : string) : Message :=
  {| role := tool; content := Some text; tool_calls := None; tool_call_id := Some id |}.

(** [messages[0]?.role === 'system'] *)
Definition leading_is_system (messages : list Message) : bool :=
  match messages with
  | m :: _ => bool_decide (role m = system)
  | [] => false
  end.

(** [JSON.parse] and [JSON.stringify], the host's codec. [JSON_parse] and
    [parse_message] are [None] where [JSON.parse] throws a [SyntaxError],
    whose message is [JSON_syntax_error]. *)
Class JSON : Type := {
  JSON_parse : string -> option value;
  JSON_stringify : value -> string;
  parse_message : string -> option Message;
  stringify_message : Message -> string;
  JSON_syntax_error : string -> string
}.

(* ================================================================== *)
(** * The Redis client (collaborator of storage.ts) *)
(* ================================================================== *)

(** The lists of the keyspace as seen through one client; a key without a
    list is absent. A closed client rejects every command. *)
Record RedisClient : Type := mkRedis {
  lists : gmap string (list string);
  isOpen : bool
}.

Definition ClientClosedError : exn :=
  Thrown CClientClosedError "The client is closed" None.

Definition key_list (key : string) (c : RedisClient) : list string :=
  default [] (lists c !! key).

(** LPUSH key element: inserts at the head, returns the new length. *)
Definition lPush (key element : string) (c : RedisClient) : RedisClient * result Z :=
  if isOpen c then
    let l := element :: key_list key c in
    ({| lists := <[key := l]> (lists c); isOpen := isOpen c |},
     Ok (Z.of_nat (length l)))
  else (c, Err ClientClosedError).

(** The index arithmetic of LRANGE: negative indexes count from the tail,
    out-of-range indexes are clamped. *)
Definition lrange (l : list string) (start stop : Z) : list string :=
  let llen := Z.of_nat (length l) in
  let start := if start <? 0 then llen + start else start in
  let stop := if stop <? 0 then llen + stop else stop in
  let start := if start <? 0 then 0 else start in
  if (stop <? start) || (llen <=? start) then []
  else
    let stop := if llen <=? stop then llen - 1 else stop in
    take (Z.to_nat (stop - start + 1)) (drop (Z.to_nat start) l).

Definition lRange (key : string) (start stop : Z) (c : RedisClient) : result (list string) :=
  if isOpen c then Ok (lrange (key_list key c) start stop)
  else Err ClientClosedError.

(** DEL key: removes the key, returns the number of keys removed. *)
Definition del (key : string) (c : RedisClient) : RedisClient * result Z :=
  if isOpen c then
    match lists c !! key with
    | Some _ => ({| lists := delete key (lists c); isOpen := isOpen c |}, Ok 1)
    | None => (c, Ok 0)
    end
  else (c, Err ClientClosedError).

(* ================================================================== *)
(** * storage.ts: [AgentStorage] *)
(* ================================================================== *)

Record HistoryOptions : Type := mkHistoryOptions {
  appended_messages : option Z;
  remove_tool_messages : option bool
}.

(** [{}] *)
Definition no_options : HistoryOptions :=
  {| appended_messages := None; remove_tool_messages := None |}.

Record AgentStorage : Type := mkStorage {
  redisClient : option RedisClient
}.

(** [`user:${id}`] *)
Definition user_key (id : string) : string := "user:" +:+ id.

(** [userId ? userId : 'default'] *)
Definition id_or_default (userId : option string) : string :=
  match userId with
  | Some s => if String.eqb s EmptyString then "default" else s
  | None => "default"
  end.

(** [`${userId}`] inside a template literal *)
Definition show_userId (userId : option string) : string :=
  default "undefined" userId.

(** The filter of [remove_tool_messages]:
    [role === 'user' || (role === 'assistant' && !tool_calls)] *)
Definition is_plain_message (m : Message) : bool :=
  match role m with
  | user => true
  | assistant => match tool_calls m with None => true | Some _ => false end
  | _ => false
  end.

Section Storage.
Context `{JSON}.

(** [JSON.parse(message)] on one stored entry *)
Definition parse_stored (entry : string) : result Message :=
  match parse_message entry with
  | Some m => Ok m
  | None => Err (Thrown CSyntaxError (JSON_syntax_error entry) None)
  end.

Definition getStoredMessages (this : AgentStorage) (userId : string)
    (options : option HistoryOptions) : result (list Message) :=
  match redisClient this with
  | None => Err (Error "Redis client not initialized.")
  | Some client =>
      let options := default no_options options in
      let fetch (stop : Z) : result (list Message) :=
        messages ← lRange (user_key userId) 0 stop client;
        match messages with
        | [] => Ok []
        | _ =>
            parsedMessages ← map_result parse_stored messages;
            let parsedMessages := rev parsedMessages in
            if default false (remove_tool_messages options)
            then Ok (List.filter is_plain_message parsedMessages)
            else Ok parsedMessages
        end in
      match appended_messages options with
      | Some 0 => Ok []
      | Some k => fetch (k - 1)
      | None => fetch (-1)
      end
  end.

(** The [for] loop of [saveChatHistory]: one LPUSH per message, in order;
    the first rejected command ends the loop. *)
Fixpoint push_all (key : string) (messages : list Message) (client : RedisClient)
    : RedisClient * result unit :=
  match messages with
  | [] => (client, Ok tt)
  | m :: rest =>
      match lPush key (stringify_message m) client with
      | (client', Ok _) => push_all key rest client'
      | (client', Err e) => (client', Err e)
      end
  end.

(** [if (messages[0]?.role === 'system') messages.shift()] *)
Definition drop_leading_system (messages : list Message) : list Message :=
  if leading_is_system messages then tail messages else messages.

Definition saveChatHistory (this : AgentStorage) (userId : option string)
    (messages : list Message) : AgentStorage * result (list Message) :=
  match redisClient this with
  | None => (this, Err (Error "Redis client not initialized."))
  | Some client =>
      let id := id_or_default userId in
      let messages := drop_leading_system messages in
      let wrap (e : exn) : exn :=
        Error ("Error saving chat history of user: " +:+ show_userId userId
                 +:+ ": " +:+ error_message e) in
      match push_all (user_key id) messages client with
      | (client', Ok _) =>
          let this' := {| redisClient := Some client' |} in
          (this', try_rethrow (getStoredMessages this' id None) wrap)
      | (client', Err e) =>
          ({| redisClient := Some client' |}, Err (wrap e))
      end
  end.

Definition deleteHistory (this : AgentStorage) (userId : string)
    : AgentStorage * result Z :=
  match redisClient this with
  | None => (this, Err (Error "Redis client not initialized."))
  | Some client =>
      let wrap (e : exn) : exn :=
        Error ("Error deleting chat history of user: " +:+ userId
                 +:+ ": " +:+ error_message e) in
      match del (user_key userId) client with
      | (client', r) => ({| redisClient := Some client' |}, try_rethrow r wrap)
      end
  end.
End Storage.

(* ================================================================== *)
(** * modules/tools-registry.ts *)
(* ================================================================== *)

(** A tool implementation: [(args: object) => Promise<string> | string |
    undefined]. [Ok VUndefined] is a call that returns nothing, [Err] a
    call that throws or a promise that rejects. *)
Abbreviation ToolFunction := (value -> result value) (only parsing).

(** [ChatCompletionTool]: the exported object itself, kept as loaded. *)
Abbreviation ChatCompletionTool := value (only parsing).

(** [tool.function.name]; a string on every definition that went through
    [validateChatCompletionTool]. *)
Definition tool_name (t : ChatCompletionTool) : string :=
  match get_prop "name" (get_prop "function" t) with
  | VStr s => s
  | _ => EmptyString
  end.

(** [ToolFunctions]: a plain object, [{}] when it is created, that the
    loader fills by assignment and the rest of the code reads by name.
    [own_functions] are its own properties, which is what [Object.keys]
    counts. [replaced_prototype] is [None] as long as the prototype is
    [Object.prototype], and the function that an assignment to [__proto__]
    has put in its place after that. *)
Record ToolFunctions : Type := mkToolFunctions {
  own_functions : gmap string ToolFunction;
  replaced_prototype : option ToolFunction
}.

(** [{}] *)
Definition no_functions : ToolFunctions :=
  {| own_functions := ∅; replaced_prototype := None |}.

(** What the built-in objects of the host give to a plain object.
    [Object_prototype name] is the property [name] of [Object.prototype]
    ([toString], [constructor], [valueOf], ...): [None] when there is none,
    or else, all of them being truthy, what a plain call [f(args)] of it
    does; a property that is not callable is the function that throws the
    [TypeError] of calling it. [through_function p name] is the read of
    [name] along the prototype chain that starts at the function [p]: it
    throws, gives [undefined] or another falsy value ([Ok None]), or gives
    a truthy value, again as what a call of it does. [assignment_fault p
    name] is the [TypeError] that a strict-mode assignment of a new
    property [name] throws on an object whose prototype is [p], or
    [Object.prototype] for [None], when the chain has a read-only property
    or an accessor without setter of that name, as under a frozen
    [Object.prototype]. *)
Class Builtins : Type := {
  Object_prototype : string -> option ToolFunction;
  through_function : ToolFunction -> string -> result (option ToolFunction);
  assignment_fault : option ToolFunction -> string -> option exn
}.

(** What the prototype chain of the object has under a name. *)
Definition inherited_function `{Builtins} (functions : ToolFunctions) (name : string)
    : result (option ToolFunction) :=
  match replaced_prototype functions with
  | None => Ok (Object_prototype name)
  | Some p => through_function p name
  end.

(** [functions[name]], as far as its truthiness and its calls go: an own
    property, or else what the prototype chain has under that name. *)
Definition get_function `{Builtins} (functions : ToolFunctions) (name : string)
    : result (option ToolFunction) :=
  match own_functions functions !! name with
  | Some f => Ok (Some f)
  | None => inherited_function functions name
  end.

(** [functions[name] = f]. The name [__proto__] reaches the setter of
    [Object.prototype], which makes [f] the prototype and adds no own
    property. *)
Definition set_function `{Builtins} (functions : ToolFunctions) (name : string)
    (f : ToolFunction) : result ToolFunctions :=
  if String.eqb name "__proto__" then
    Ok {| own_functions := own_functions functions; replaced_prototype := Some f |}
  else
    let assigned :=
      {| own_functions := <[name := f]> (own_functions functions);
         replaced_prototype := replaced_prototype functions |} in
    match own_functions functions !! name with
    | Some _ => Ok assigned
    | None =>
        match assignment_fault (replaced_prototype functions) name with
        | Some error => Err error
        | None => Ok assigned
        end
    end.

Record AgentTools : Type := mkAgentTools {
  toolDefinitions : list ChatCompletionTool;
  toolFunctions : ToolFunctions
}.

Record ToolChoices : Type := mkToolChoices {
  choices_toolChoices : list ChatCompletionTool;
  choices_toolFunctions : ToolFunctions
}.

(** The process-wide state: [ToolsRegistry.instance] and
    [OpenAIAgent.toolsDirPath]. *)
Record Statics : Type := mkStatics {
  instance : option AgentTools;
  toolsDirPath : option string
}.

(** One export of a tool module: a function, a value that is plain data,
    or an object that cannot be read as data (an accessor property or a
    proxy): then the validation throws [error] at the read that fails. *)
Inductive export : Type :=
  | ExFunction (f : ToolFunction)   (* typeof fn === 'function' *)
  | ExValue (v : value)
  | ExThrows (error : exn).

(** An imported module: its truthy default export, if it has one, and the
    entries of its namespace. *)
Record ToolModule : Type := mkModule {
  mod_default : option (list (string * export));
  mod_exports : list (string * export)
}.

(** [fs/promises], dynamic [import] and [path.join]. *)
Class FileSystem : Type := {
  fs_access : string -> result unit;
  fs_readdir : string -> result (list string);
  fs_stat_isFile : string -> result bool;
  import_module : string -> result ToolModule;
  path_join : string -> string -> string
}.

(** [s.endsWith(suffix)]. The code asks it for the suffixes [.js] and
    [.ts] only, and for a suffix of ASCII characters the test on the bytes
    of the UTF-8 form and the test on the code units agree. *)
Definition endsWith (s suffix : string) : bool :=
  let n := String.length s in
  let k := String.length suffix in
  (k <=? n)%nat && String.eqb (substring (n - k) k s) suffix.

(** One character of [/^[a-zA-Z0-9_-]+$/] *)
Definition is_name_char (c : ascii) : bool :=
  let n := nat_of_ascii c in
  ((97 <=? n) && (n <=? 122) || (65 <=? n) && (n <=? 90)
   || (48 <=? n) && (n <=? 57) || (n =? 95) || (n =? 45))%nat.

(** [s.length]: the number of UTF-16 code units. Of the bytes of the
    UTF-8 form a continuation byte (10xxxxxx) counts for nothing, the
    first byte of a four-byte sequence (11110xxx), a character outside the
    basic plane, for two, every other byte for one. *)
Fixpoint js_length (s : string) : nat :=
  match s with
  | EmptyString => 0
  | String c rest =>
      let n := nat_of_ascii c in
      ((if (128 <=? n) && (n <? 192) then 0 else if 240 <=? n then 2 else 1)
       + js_length rest)%nat
  end.

Fixpoint all_name_chars (s : string) : bool :=
  match s with
  | EmptyString => true
  | String c rest => is_name_char c && all_name_chars rest
  end.

Definition validateFunctionName (name : value) : result unit :=
  match name with
  | VStr s =>
      if String.eqb s EmptyString then
        Err (ValidationError "Function name must be a non-empty string")
      else if (64 <? js_length s)%nat then
        Err (ValidationError "Function name must not exceed 64 characters")
      else if negb (all_name_chars s) then
        Err (ValidationError
               "Function name must contain only alphanumeric characters, underscores, and hyphens")
      else Ok tt
  | _ => Err (ValidationError "Function name must be a non-empty string")
  end.

Definition validateFunctionParameters (params : value) : result unit :=
  if negb (truthy params) || negb (String.eqb (typeof params) "object") then
    Err (ValidationError "Function parameters must be a non-null object")
  else Ok tt.

Definition is_undefined (v : value) : bool :=
  match v with VUndefined => true | _ => false end.
Definition is_null (v : value) : bool :=
  match v with VNull => true | _ => false end.

Definition validateFunctionDefinition (func : value) : result unit :=
  if negb (truthy func) || negb (String.eqb (typeof func) "object") then
    Err (ValidationError "Function definition must be a non-null object")
  else
    let name := get_prop "name" func in
    let description := get_prop "description" func in
    let parameters := get_prop "parameters" func in
    let strict := get_prop "strict" func in
    _ ← validateFunctionName name;
    if negb (is_undefined description)
       && negb (String.eqb (typeof description) "string") then
      Err (ValidationError "Function description must be a string when provided")
    else
      _ ← (if negb (is_undefined parameters)
           then validateFunctionParameters parameters else Ok tt);
      if negb (is_undefined strict) && negb (is_null strict)
         && negb (String.eqb (typeof strict) "boolean") then
        Err (ValidationError "Function strict flag must be a boolean when provided")
      else Ok tt.

(** The double-quote character *)
Definition dquote : string := String (ascii_of_nat 34) EmptyString.

Definition validateChatCompletionTool (t : value) : result unit :=
  if negb (truthy t) || negb (String.eqb (typeof t) "object") then
    Err (ValidationError "Chat completion tool must be a non-null object")
  else
    let functionDefinition := get_prop "function" t in
    let type := get_prop "type" t in
    match type with
    | VStr "function" => validateFunctionDefinition functionDefinition
    | _ => Err (ValidationError ("Chat completion tool type must be " +:+ dquote +:+ "function" +:+ dquote))
    end.

(** The [for] loop of [validateToolConfiguration]:
    [if (!functions[functionName]) throw ...]. *)
Fixpoint check_implementations `{Builtins} (fnDefinitions : list ChatCompletionTool)
    (functions : ToolFunctions) : result unit :=
  match fnDefinitions with
  | [] => Ok tt
  | def :: rest =>
      let functionName := tool_name def in
      found ← get_function functions functionName;
      match found with
      | None =>
          Err (ToolNotFoundError
                 ("Missing function implementation for tool: " +:+ functionName))
      | Some _ => check_implementations rest functions
      end
  end.

Definition validateToolConfiguration `{Builtins}
    (fnDefinitions : list ChatCompletionTool)
    (functions : ToolFunctions) : result unit :=
  let definitionCount := length fnDefinitions in
  (* Object.keys(functions).length *)
  let functionCount := size (own_functions functions) in
  if negb (definitionCount =? functionCount)%nat then
    Err (ValidationError
           ("Mismatch between number of function definitions ("
              +:+ pretty definitionCount +:+ ") and implementations ("
              +:+ pretty functionCount +:+ ")"))
  else check_implementations fnDefinitions functions.

(** A loop whose body may throw. *)
Fixpoint fold_result {A S : Type} (body : S -> A -> result S) (xs : list A) (s : S)
    : result S :=
  match xs with
  | [] => Ok s
  | x :: rest => s' ← body s x; fold_result body rest s'
  end.

Section Registry.
Context `{Builtins} `{FileSystem}.

(** Body of the inner loop of [loadToolsDirFiles]: classify one export,
    inside the [try] whose [catch] turns every fault into an
    [InvalidToolError]. *)
Definition process_export (fullPath : string)
    (acc : list ChatCompletionTool * ToolFunctions)
    (entry : string * export)
    : result (list ChatCompletionTool * ToolFunctions) :=
  let '(toolDefinitions, toolFunctions) := acc in
  let '(fnName, fn) := entry in
  try_rethrow
    match fn with
    | ExFunction f =>
        toolFunctions ← set_function toolFunctions fnName f;
        Ok (toolDefinitions, toolFunctions)
    | ExValue v =>
        _ ← validateChatCompletionTool v;
        Ok ((toolDefinitions ++ [v])%list, toolFunctions)
    | ExThrows error => Err error
    end
    (fun error =>
       if instanceof error CValidationError then
         InvalidToolError fullPath fnName
           ("Invalid tool definition: " +:+ error_message error)
       else InvalidToolError fullPath fnName "Unexpected error validating tool").

(** Body of the outer loop: one directory entry. *)
Definition process_file (dirPath : string)
    (acc : list ChatCompletionTool * ToolFunctions) (file : string)
    : result (list ChatCompletionTool * ToolFunctions) :=
  if negb (endsWith file ".js") && negb (endsWith file ".ts") then Ok acc
  else
    let fullPath := path_join dirPath file in
    isFile ← try_rethrow (fs_stat_isFile fullPath)
                (fun error => FileReadError fullPath (error_cause error));
    if negb isFile then Ok acc
    else
      fileFunctions ← try_rethrow (import_module fullPath)
                        (fun error => FileImportError fullPath (error_cause error));
      let funcs := default (mod_exports fileFunctions) (mod_default fileFunctions) in
      fold_result (process_export fullPath) funcs acc.

(** The [try] block of [loadToolsDirFiles] up to the final validation. *)
Definition enumerate_tools (dirPath : string)
    : result (list ChatCompletionTool * ToolFunctions) :=
  _ ← try_rethrow (fs_access dirPath)
        (fun error => DirectoryAccessError dirPath (error_cause error));
  files ← try_rethrow (fs_readdir dirPath)
            (fun error => FileReadError dirPath (error_cause error));
  fold_result (process_file dirPath) files ([], no_functions).

(** The outer [catch] of [loadToolsDirFiles]. *)
Definition load_rethrow (error : exn) : exn :=
  if instanceof error CDirectoryAccessError
     || instanceof error CFileReadError
     || instanceof error CFileImportError
     || instanceof error CInvalidToolError
     || instanceof error CToolConfigurationError
     || instanceof error CValidationError
  then error
  else Error ("Unexpected error loading tools: " +:+ error_message error).

Definition loadToolsDirFiles (dirPath : string) (st : Statics)
    : Statics * result AgentTools :=
  let body : result AgentTools :=
    '(toolDefinitions, toolFunctions) ← enumerate_tools dirPath;
    _ ← validateToolConfiguration toolDefinitions toolFunctions;
    Ok {| toolDefinitions := toolDefinitions; toolFunctions := toolFunctions |} in
  match body with
  | Ok tools =>
      (* ToolsRegistry.setInstance(tools) *)
      ({| instance := Some tools; toolsDirPath := toolsDirPath st |}, Ok tools)
  | Err error => (st, Err (load_rethrow error))
  end.

(** The outer [catch] of [importToolFunctions]. *)
Definition import_rethrow (error : exn) : exn :=
  if instanceof error CValidationError || instanceof error CToolNotFoundError
  then error
  else Error ("Failed to import tool functions: " +:+ error_message error).

(** [tools.toolDefinitions.find((tool) => tool.function.name === toolName)] *)
Definition find_definition (defs : list ChatCompletionTool) (toolName : string)
    : option ChatCompletionTool :=
  List.find (fun t => String.eqb (tool_name t) toolName) defs.

Definition importToolFunctions (toolNames : list string) (st : Statics)
    : Statics * result ToolChoices :=
  match toolsDirPath st with
  | Some (String _ _ as dirPath) =>
      let '(st', loaded) :=
        match instance st with
        | Some tools => (st, Ok tools)
        | None => loadToolsDirFiles dirPath st
        end in
      (st',
       try_rethrow
         (tools ← loaded;
          let toolChoices := omap (find_definition (toolDefinitions tools)) toolNames in
          let missingTools :=
            List.filter
              (fun name =>
                 negb (existsb (fun t => String.eqb (tool_name t) name) toolChoices))
              toolNames in
          if (0 <? length missingTools)%nat then
            Err (ToolNotFoundError
                   ("The following tools were not found: "
                      +:+ String.concat ", " missingTools))
          else
            Ok {| choices_toolChoices := toolChoices;
                  choices_toolFunctions := toolFunctions tools |})
         import_rethrow)
  | _ =>
      (st, Err (import_rethrow
                  (ValidationError
                     "Tools directory path not set. Call loadToolsDirFiles with your tools directory path first.")))
  end.
End Registry.

(* ================================================================== *)
(** * agent.ts: [OpenAIAgent] *)
(* ================================================================== *)

(** [AgentCompletionParams], the request parameters kept by the agent. The
    sampling parameters (temperature, top_p, n, ...) take no part in the
    orchestration and travel together in [other_params]. *)
Record AgentCompletionParams : Type := mkParams {
  model : string;
  user_param : option string;                    (* user *)
  tools : option (list ChatCompletionTool);
  other_params : gmap string value
}.

(** [Partial<AgentCompletionParams>], by its own properties: [None] is a
    property that is absent, [Some v] one that is present, where [v] can be
    [undefined] ([None] for [user] and [tools], [VUndefined] among the
    others; an undefined [model] is the empty string, as both are one to
    every test of the code). *)
Record PartialParams : Type := mkPartialParams {
  p_model : option string;
  p_user : option (option string);
  p_tools : option (option (list ChatCompletionTool));
  p_other : gmap string value
}.

(** A [HistoryOptions] object by its own properties, for the spread of
    [createChatCompletion]: [None] is a property that is absent,
    [Some None] one that is present with the value [undefined]. *)
Record HistoryProperties : Type := mkHistoryProperties {
  own_appended_messages : option (option Z);
  own_remove_tool_messages : option (option bool)
}.

(** The options as the code reads them, property by property. *)
Definition read_history (h : HistoryProperties) : HistoryOptions :=
  {| appended_messages := mjoin (own_appended_messages h);
     remove_tool_messages := mjoin (own_remove_tool_messages h) |}.

(** [AgentOptions] *)
Record AgentOptions : Type := mkAgentOptions {
  o_params : AgentCompletionParams;
  o_messages : option (list Message);
  o_system_instruction : option string
}.

(** [CreateChatCompletionOptions] *)
Record CreateChatCompletionOptions : Type := mkOptions {
  message : string;
  opt_system_instruction : option string;
  tool_choices : option (list string);
  custom_params : option PartialParams;
  history : option HistoryProperties
}.

(** [ChatCompletionCreateParamsNonStreaming] as the provider receives it:
    the parameters and the contents of the message array at call time. *)
Record QueryParams : Type := mkQuery {
  q_params : AgentCompletionParams;
  q_messages : list Message
}.

Record Choice : Type := mkChoice {
  choice_message : option Message
}.

Record ChatCompletion : Type := mkCompletion {
  choices : list Choice;
  usage : option CompletionUsage
}.

Record CompletionResult : Type := mkResult {
  res_choices : list string;
  total_usage : CompletionUsage;
  completion_messages : list Message;
  completions : list ChatCompletion
}.

(** [this.chat.completions.create], and the helper [handleNResponses] of
    utils.ts, which turns the choices of a response into texts; the helper
    is not among the sources and is taken as a function that does not
    throw. *)
Class CompletionsAPI : Type := {
  chat_completions_create : QueryParams -> result ChatCompletion;
  handleNResponses : ChatCompletion -> QueryParams -> list string
}.

(** Modelled from the spec: [getCompletionsUsage] of utils.ts is not among
    the sources; the spec has it "aggregate usage from both calls field-wise
    (prompt+prompt, completion+completion, total+total, missing operand = 0)",
    which is [getTokensUsage] on the usage records of the responses. *)
Definition getCompletionsUsage (response : ChatCompletion)
    (secondResponse : option ChatCompletion) : CompletionUsage :=
  getTokensUsage (usage response) (secondResponse ≫= usage).

Record OpenAIAgent : Type := mkAgent {
  completionParams : AgentCompletionParams;
  defaultHistoryMessages : option (list Message);
  Storage : option AgentStorage;
  system_instruction : option string;
  historyOptions : option HistoryProperties
}.

(** The two arrays a working sequence can be: the agent's own template
    array ([templateMessages = this.defaultHistoryMessages] copies the
    reference, not the contents) or an array created by the call. *)
Inductive ArrayRef : Type := TemplateArray | FreshArray.

(** The agent together with the array created by the current call. *)
Record Mem : Type := mkMem {
  mem_this : OpenAIAgent;
  mem_fresh : list Message
}.

Definition set_template (this : OpenAIAgent) (contents : list Message) : OpenAIAgent :=
  {| completionParams := completionParams this;
     defaultHistoryMessages := Some contents;
     Storage := Storage this;
     system_instruction := system_instruction this;
     historyOptions := historyOptions this |}.

Definition set_Storage (this : OpenAIAgent) (s : AgentStorage) : OpenAIAgent :=
  {| completionParams := completionParams this;
     defaultHistoryMessages := defaultHistoryMessages this;
     Storage := Some s;
     system_instruction := system_instruction this;
     historyOptions := historyOptions this |}.

Definition array_read (r : ArrayRef) (m : Mem) : list Message :=
  match r with
  | TemplateArray => default [] (defaultHistoryMessages (mem_this m))
  | FreshArray => mem_fresh m
  end.

Definition array_write (r : ArrayRef) (contents : list Message) (m : Mem) : Mem :=
  match r with
  | TemplateArray =>
      {| mem_this := set_template (mem_this m) contents; mem_fresh := mem_fresh m |}
  | FreshArray => {| mem_this := mem_this m; mem_fresh := contents |}
  end.

(** [arr.push(...items)], [arr.shift()], [arr.unshift(item)] *)
Definition array_push (r : ArrayRef) (items : list Message) (m : Mem) : Mem :=
  array_write r (array_read r m ++ items)%list m.
Definition array_shift (r : ArrayRef) (m : Mem) : Mem :=
  array_write r (tail (array_read r m)) m.
Definition array_unshift (r : ArrayRef) (item : Message) (m : Mem) : Mem :=
  array_write r (item :: array_read r m) m.

Definition mem_set_Storage (s : AgentStorage) (m : Mem) : Mem :=
  {| mem_this := set_Storage (mem_this m) s; mem_fresh := mem_fresh m |}.

(** [{ ...this.completionParams, ...options.custom_params }]: a property
    of [custom_params] that is present wins, also with the value
    [undefined]. *)
Definition spread_params (base : AgentCompletionParams) (custom : option PartialParams)
    : AgentCompletionParams :=
  match custom with
  | None => base
  | Some c =>
      {| model := default (model base) (p_model c);
         user_param := default (user_param base) (p_user c);
         tools := default (tools base) (p_tools c);
         other_params := p_other c ∪ other_params base |}
  end.

(** [{}] *)
Definition no_properties : HistoryProperties :=
  {| own_appended_messages := None; own_remove_tool_messages := None |}.

(** [{ ...this.historyOptions, ...options.history }]: a property of
    [options.history] that is present wins, also with the value
    [undefined]. *)
Definition spread_history (base custom : option HistoryProperties)
    : HistoryProperties :=
  let base := default no_properties base in
  let custom := default no_properties custom in
  {| own_appended_messages :=
       match own_appended_messages custom with
       | Some k => Some k
       | None => own_appended_messages base
       end;
     own_remove_tool_messages :=
       match own_remove_tool_messages custom with
       | Some b => Some b
       | None => own_remove_tool_messages base
       end |}.

(** Truthiness of an optional string and of an optional number. *)
Definition nonempty (s : option string) : bool :=
  match s with
  | Some (String _ _) => true
  | _ => false
  end.
Definition nonzero (k : option Z) : bool :=
  match k with
  | Some k => negb (k =? 0)
  | None => false
  end.

Definition REQUIRED_ENV_VARS : list string := ["OPENAI_API_KEY"].

(** [validateEnvironment], over [process.env] *)
Definition validateEnvironment (env : gmap string string) : result unit :=
  let missingVars := List.filter (fun varName => negb (nonempty (env !! varName)))
                       REQUIRED_ENV_VARS in
  if (0 <? length missingVars)%nat then
    Err (Error ("Missing required environment variables: "
                  +:+ String.concat ", " missingVars))
  else Ok tt.

(** The constructor. The template messages are taken over by reference. *)
Definition new_OpenAIAgent (env : gmap string string) (agentOptions : AgentOptions)
    : result OpenAIAgent :=
  _ ← validateEnvironment env;
  if String.eqb (model (o_params agentOptions)) EmptyString then
    Err (ValidationError "Model is required to initialize the agent instance")
  else
    Ok {| completionParams := o_params agentOptions;
          defaultHistoryMessages := o_messages agentOptions;
          Storage := None;
          system_instruction := o_system_instruction agentOptions;
          historyOptions := None |}.

Definition _handleSystemInstructionMessage
    (defaultInstruction customInstruction : option string) : Message :=
  if nonempty defaultInstruction && negb (nonempty customInstruction) then
    system_message (default EmptyString defaultInstruction)
  else if nonempty customInstruction then
    system_message (default EmptyString customInstruction)
  else system_message EmptyString.

(** The history options of one turn:
    [{ ...this.historyOptions, ...options.history }], with
    [remove_tool_messages] forced when a store is attached, tools are
    requested and the agent has a non-zero [appended_messages]. *)
Definition turn_history_options (this : OpenAIAgent)
    (options : CreateChatCompletionOptions) : HistoryOptions :=
  (* this.historyOptions?.appended_messages *)
  let agentWindow := historyOptions this ≫= (fun h => mjoin (own_appended_messages h)) in
  let historyOptions :=
    read_history (spread_history (historyOptions this) (history options)) in
  if bool_decide (is_Some (Storage this))
     && bool_decide (is_Some (tool_choices options))
     && nonzero agentWindow
  then {| appended_messages := appended_messages historyOptions;
          remove_tool_messages := Some true |}
  else historyOptions.

Section Agent.
Context `{JSON} `{Builtins} `{FileSystem} `{CompletionsAPI}.

Definition _getContextMessages (m : Mem) (queryParams : AgentCompletionParams)
    (historyOptions : option HistoryOptions) : Mem * result ArrayRef :=
  let this := mem_this m in
  let userId := id_or_default (user_param queryParams) in
  let templateMessages :=
    match defaultHistoryMessages this with
    | Some _ => TemplateArray
    | None => FreshArray
    end in
  match Storage this with
  | Some storage =>
      match getStoredMessages storage userId historyOptions with
      | Ok storedMessages =>
          (array_push templateMessages storedMessages m, Ok templateMessages)
      | Err e => (m, Err e)
      end
  | None => (m, Ok templateMessages)
  end.

(** The body of the [try] inside the loop of [_callChosenFunctions]. *)
Definition run_tool_call (functions : ToolFunctions) (t : ToolCall)
    : result string :=
  let name := call_name t in
  let args := call_arguments t in
  found ← get_function functions name;
  match found with
  | None => Err (Error ("Function '" +:+ name +:+ "' not found"))
  | Some currentFunction =>
      parsedArgs ←
        match JSON_parse args with
        | Some v => Ok v
        | None =>
            Err (Error ("Invalid arguments format for function '" +:+ name
                          +:+ "': " +:+ args))
        end;
      functionResponse ← currentFunction parsedArgs;
      if is_undefined functionResponse then
        Err (Error ("Function '" +:+ name +:+ "' returned no response"))
      else Ok (JSON_stringify functionResponse)
  end.

(** [JSON.stringify({ error: errorMessage })] *)
Definition error_payload (errorMessage : string) : string :=
  JSON_stringify (VObj [("error", VStr errorMessage)]).

(** One iteration of the loop: the [try] and its [catch]. *)
Definition call_tool (functions : ToolFunctions) (t : ToolCall) : Message :=
  match run_tool_call functions t with
  | Ok text => tool_message (call_id t) text
  | Err error => tool_message (call_id t) (error_payload (error_message error))
  end.

Definition _callChosenFunctions (responseMessage : Message)
    (functions : ToolFunctions) : result (list Message) :=
  match tool_calls responseMessage with
  | None | Some [] => Err (Error "No tool calls found in the response message")
  | Some calls => Ok (map (call_tool functions) calls)
  end.

(** [response.choices[0].message], with the [TypeError] of reading
    [message] on a missing first choice. *)
Definition first_choice_message (response : ChatCompletion) : result (option Message) :=
  match choices response with
  | c :: _ => Ok (choice_message c)
  | [] => Err (Thrown CTypeError
                 "Cannot read properties of undefined (reading 'message')" None)
  end.

(** [if (this.Storage) await this.Storage.saveChatHistory(user, newMessages)].
    [newMessages] starts with the user message, so the [shift] inside
    [saveChatHistory] leaves the caller's array as it is. *)
Definition save_if_attached (m : Mem) (userId : option string)
    (newMessages : list Message) : Mem * result unit :=
  match Storage (mem_this m) with
  | Some storage =>
      match saveChatHistory storage userId newMessages with
      | (storage', Ok _) => (mem_set_Storage storage' m, Ok tt)
      | (storage', Err e) => (mem_set_Storage storage' m, Err e)
      end
  | None => (m, Ok tt)
  end.

Definition _handleToolCompletion (m : Mem) (response : ChatCompletion)
    (responseMessage : Message)
    (queryParams : AgentCompletionParams) (messages : ArrayRef)
    (newMessages : list Message) (toolFunctions : ToolFunctions)
    : Mem * result CompletionResult :=
  (* if (!queryParams?.messages?.length) queryParams.messages = [] *)
  let '(m, messages) :=
    match array_read messages m with
    | [] => (array_write FreshArray [] m, FreshArray)
    | _ => (m, messages)
    end in
  let m := array_push messages [responseMessage] m in
  match _callChosenFunctions responseMessage toolFunctions with
  | Err e => (m, Err e)
  | Ok toolMessages =>
      let m := array_push messages toolMessages m in
      let newMessages := (newMessages ++ toolMessages)%list in
      let query := {| q_params := queryParams; q_messages := array_read messages m |} in
      match chat_completions_create query with
      | Err e => (m, Err e)
      | Ok secondResponse =>
          match first_choice_message secondResponse with
          | Err e => (m, Err e)
          | Ok None =>
              (m, Err (Error
                "No response message received from second tool query to OpenAI"))
          | Ok (Some secondResponseMessage) =>
              let newMessages := (newMessages ++ [secondResponseMessage])%list in
              match save_if_attached m (user_param queryParams) newMessages with
              | (m, Err e) => (m, Err e)
              | (m, Ok _) =>
                  let responses := handleNResponses secondResponse query in
                  (m, Ok {| res_choices := responses;
                            total_usage :=
                              getCompletionsUsage response (Some secondResponse);
                            completion_messages := newMessages;
                            completions := [response; secondResponse] |})
              end
          end
      end
  end.

Definition loadToolFuctions (toolsDirAddr : string) (st : Statics)
    : Statics * result bool :=
  if String.eqb toolsDirAddr EmptyString then
    (st, Err (ValidationError "Tools directory path required."))
  else
    match loadToolsDirFiles toolsDirAddr st with
    | (st', Ok _) =>
        ({| instance := instance st'; toolsDirPath := Some toolsDirAddr |}, Ok true)
    | (st', Err e) => (st', Err e)
    end.

Definition setStorage (this : OpenAIAgent) (client : option RedisClient)
    (options : option HistoryProperties) : OpenAIAgent * result bool :=
  match client with
  | None => (this, Err (ValidationError "Instance of RedisClientType required."))
  | Some c =>
      ({| completionParams := completionParams this;
          defaultHistoryMessages := defaultHistoryMessages this;
          Storage := Some {| redisClient := Some c |};
          system_instruction := system_instruction this;
          historyOptions :=
            match options with
            | Some h => Some h
            | None => historyOptions this
            end |},
       Ok true)
  end.

Definition deleteChatHistory (this : OpenAIAgent) (userId : string)
    : OpenAIAgent * result bool :=
  match Storage this with
  | None => (this, Err (ValidationError "Agent storage is not initalized."))
  | Some storage =>
      match deleteHistory storage userId with
      | (storage', Ok _) => (set_Storage this storage', Ok true)
      | (storage', Err e) => (set_Storage this storage', Err e)
      end
  end.

Definition getChatHistory (this : OpenAIAgent) (userId : string)
    (options : option HistoryOptions) : result (list Message) :=
  match Storage this with
  | Some storage => getStoredMessages storage userId options
  | None => Ok []
  end.
(** The statements of [createChatCompletion] before its [try]: the working
    sequence is put together in place. Returns the array that
    [queryParams.messages] refers to and the initial [newMessages]. *)
Definition assemble (m : Mem) (queryParams : AgentCompletionParams)
    (options : CreateChatCompletionOptions)
    : Mem * result (ArrayRef * list Message) :=
  let this := mem_this m in
  let historyOptions := turn_history_options this options in
  match _getContextMessages m queryParams (Some historyOptions) with
  | (m, Err e) => (m, Err e)
  | (m, Ok storedMessages) =>
      let systemImstructionMessage :=
        _handleSystemInstructionMessage (system_instruction this)
          (opt_system_instruction options) in
      let m :=
        if nonempty (content systemImstructionMessage) then
          let m :=
            if leading_is_system (array_read storedMessages m)
            then array_shift storedMessages m else m in
          array_unshift storedMessages systemImstructionMessage m
        else m in
      let newMessages := [user_message (message options)] in
      let m := array_push storedMessages newMessages m in
      (m, Ok (storedMessages, newMessages))
  end.

(** The body of the [try] of [createChatCompletion]. *)
Definition complete (m : Mem) (st : Statics) (queryParams : AgentCompletionParams)
    (messages : ArrayRef) (newMessages : list Message)
    (options : CreateChatCompletionOptions)
    : Mem * Statics * result CompletionResult :=
  let '(st, imported) :=
    match tool_choices options with
    | Some ((_ :: _) as names) =>
        match importToolFunctions names st with
        | (st', Ok toolChoices) => (st', Ok (Some toolChoices))
        | (st', Err e) => (st', Err e)
        end
    | _ => (st, Ok None)
    end in
  match imported with
  | Err e => (m, st, Err e)
  | Ok toolChoices =>
      let queryParams :=
        match toolChoices with
        | Some tc =>
            {| model := model queryParams;
               user_param := user_param queryParams;
               tools := Some (choices_toolChoices tc);
               other_params := other_params queryParams |}
        | None => queryParams
        end in
      let toolFunctions := choices_toolFunctions <$> toolChoices in
      let query := {| q_params := queryParams; q_messages := array_read messages m |} in
      match chat_completions_create query with
      | Err e => (m, st, Err e)
      | Ok response =>
          match first_choice_message response with
          | Err e => (m, st, Err e)
          | Ok None => (m, st, Err (Error "No response message received from OpenAI"))
          | Ok (Some responseMessage) =>
              let newMessages := (newMessages ++ [responseMessage])%list in
              match tool_calls responseMessage, toolFunctions with
              | Some _, Some functions =>
                  let '(m, r) :=
                    _handleToolCompletion m response responseMessage queryParams
                      messages newMessages functions in
                  (m, st, r)
              | _, _ =>
                  match save_if_attached m (user_param queryParams) newMessages with
                  | (m, Err e) => (m, st, Err e)
                  | (m, Ok _) =>
                      let responses := handleNResponses response query in
                      (m, st, Ok {| res_choices := responses;
                                    total_usage := getCompletionsUsage response None;
                                    completion_messages := newMessages;
                                    completions := [response] |})
                  end
              end
          end
      end
  end.

(** [throw new Error(`Chat completion failed: ${errorMessage}`)] *)
Definition turn_failed (error : exn) : exn :=
  Error ("Chat completion failed: " +:+ error_message error).

Definition createChatCompletion (this : OpenAIAgent) (st : Statics)
    (options : CreateChatCompletionOptions)
    : OpenAIAgent * Statics * result CompletionResult :=
  let queryParams := spread_params (completionParams this) (custom_params options) in
  let m := {| mem_this := this; mem_fresh := [] |} in
  match assemble m queryParams options with
  | (m, Err e) => (mem_this m, st, Err e)
  | (m, Ok (messages, newMessages)) =>
      let '(m, st, r) := complete m st queryParams messages newMessages options in
      (mem_this m, st, try_rethrow r turn_failed)
  end.
End Agent.

(** The messages a turn sends on its first provider call: the contents of
    the working sequence when the [try] is entered. *)
Definition sent_messages `{JSON} (this : OpenAIAgent)
    (options : CreateChatCompletionOptions) : result (list Message) :=
  let queryParams := spread_params (completionParams this) (custom_params options) in
  match assemble {| mem_this := this; mem_fresh := [] |} queryParams options with
  | (m, Ok (messages, _)) => Ok (array_read messages m)
  | (_, Err e) => Err e
  end.

(** The tools of a turn, as the [try] of [createChatCompletion] resolves
    them: [if (options.tool_choices?.length)] the registry is asked for the
    names, otherwise nothing is asked and no tools are sent. *)
Definition requested_tools `{Builtins} `{FileSystem}
    (options : CreateChatCompletionOptions)
    (st : Statics) : Statics * result (option ToolChoices) :=
  match tool_choices options with
  | Some ((_ :: _) as names) =>
      match importToolFunctions names st with
      | (st', Ok toolChoices) => (st', Ok (Some toolChoices))
      | (st', Err e) => (st', Err e)
      end
  | _ => (st, Ok None)
  end.

(** [queryParams.tools = toolChoices.toolChoices], when tools were
    resolved. *)
Definition with_tools (queryParams : AgentCompletionParams)
    (toolChoices : option ToolChoices) : AgentCompletionParams :=
  match toolChoices with
  | Some tc =>
      {| model := model queryParams;
         user_param := user_param queryParams;
         tools := Some (choices_toolChoices tc);
         other_params := other_params queryParams |}
  | None => queryParams
  end.

(** Several turns of one agent, one after the other. *)
Fixpoint run_turns `{JSON} `{Builtins} `{FileSystem} `{CompletionsAPI}
    (this : OpenAIAgent) (st : Statics) (turns : list CreateChatCompletionOptions)
    : OpenAIAgent * Statics :=
  match turns with
  | [] => (this, st)
  | options :: rest =>
      let '(this', st', _) := createChatCompletion this st options in
      run_turns this' st' rest
  end.

(* ================================================================== *)
(** * modules/toolsLoader.ts, the earlier loader *)
(* ================================================================== *)

(** The snapshot of the earlier loader, [{ toolSchemas, toolFunctions }],
    is held in the same record, [toolSchemas] under the later name
    [toolDefinitions], so that the two loaders can be compared. *)
Module ToolsLoader.

Definition isValidFunctionName (name : string) : bool :=
  (* /^[a-zA-Z0-9_-]+$/.test(name) && name.length <= 64 *)
  (negb (String.eqb name EmptyString) && all_name_chars name)
  && (js_length name <=? 64)%nat.

Definition isValidFunctionParameters (params : value) : bool :=
  String.eqb (typeof params) "object" && negb (is_null params).

Definition isValidFunctionDefinition (func : value) : bool :=
  if negb (String.eqb (typeof func) "object") || is_null func then false
  else
    let name := get_prop "name" func in
    let description := get_prop "description" func in
    let parameters := get_prop "parameters" func in
    let strict := get_prop "strict" func in
    if match name with
       | VStr s => negb (isValidFunctionName s)
       | _ => true
       end then false
    else if negb (is_undefined description)
            && negb (String.eqb (typeof description) "string") then false
    else if negb (is_undefined parameters)
            && negb (isValidFunctionParameters parameters) then false
    else if negb (is_undefined strict) && negb (is_null strict)
            && negb (String.eqb (typeof strict) "boolean") then false
    else true.

Definition isValidChatCompletionTool (t : value) : bool :=
  if negb (String.eqb (typeof t) "object") || is_null t then false
  else
    let functionDefinition := get_prop "function" t in
    let type := get_prop "type" t in
    match type with
    | VStr "function" => isValidFunctionDefinition functionDefinition
    | _ => false
    end.

(** The [for] loop of the earlier [validateToolConfiguration]:
    [if (!functions[schema.function.name]) throw ...]. *)
Fixpoint check_schemas `{Builtins} (schemas : list ChatCompletionTool)
    (functions : ToolFunctions) : result unit :=
  match schemas with
  | [] => Ok tt
  | schema :: rest =>
      found ← get_function functions (tool_name schema);
      match found with
      | None =>
          Err (Error ("Missing function implementation for schema: "
                        +:+ tool_name schema))
      | Some _ => check_schemas rest functions
      end
  end.

Definition validateToolConfiguration `{Builtins} (schemas : list ChatCompletionTool)
    (functions : ToolFunctions) : result unit :=
  if negb (length schemas =? size (own_functions functions))%nat then
    Err (Error "Mismatch between number of schemas and functions")
  else check_schemas schemas functions.

Section Loader.
Context `{Builtins} `{FileSystem}.

(** Body of the inner loop of [loadToolFunctions]: an export that is
    neither a function nor a valid tool is logged and passed over; a fault
    of the assignment or of the validation itself goes to the [catch] of
    the whole load. *)
Definition take_export
    (acc : list ChatCompletionTool * ToolFunctions)
    (entry : string * export)
    : result (list ChatCompletionTool * ToolFunctions) :=
  let '(toolSchemas, toolFunctions) := acc in
  let '(fnName, fn) := entry in
  match fn with
  | ExFunction f =>
      toolFunctions ← set_function toolFunctions fnName f;
      Ok (toolSchemas, toolFunctions)
  | ExValue v =>
      if isValidChatCompletionTool v
      then Ok ((toolSchemas ++ [v])%list, toolFunctions)
      else Ok acc
  | ExThrows error => Err error
  end.

(** Body of the outer loop. [Object.entries(fileFunctions)] goes over the
    namespace of the module. *)
Definition take_file (dirPath : string)
    (acc : list ChatCompletionTool * ToolFunctions) (file : string)
    : result (list ChatCompletionTool * ToolFunctions) :=
  if negb (endsWith file ".js") && negb (endsWith file ".ts") then Ok acc
  else
    let fullPath := path_join dirPath file in
    isFile ← fs_stat_isFile fullPath;
    if (isFile : bool) then
      (fileFunctions ← import_module fullPath;
       fold_result take_export (mod_exports fileFunctions) acc)
    else Ok acc.

Definition loadToolFunctions (dirPath : string) (st : Statics)
    : Statics * result AgentTools :=
  let body : result AgentTools :=
    _ ← fs_access dirPath;
    files ← fs_readdir dirPath;
    '(toolSchemas, toolFunctions) ←
      fold_result (take_file dirPath) files ([], no_functions);
    _ ← validateToolConfiguration toolSchemas toolFunctions;
    Ok {| toolDefinitions := toolSchemas; toolFunctions := toolFunctions |} in
  match body with
  | Ok tools =>
      ({| instance := Some tools; toolsDirPath := toolsDirPath st |}, Ok tools)
  | Err error =>
      (st, Err (Error ("Failed to load tool functions from " +:+ dirPath +:+ ": "
                         +:+ error_message error)))
  end.

Definition importToolFunctions (toolNames : list string) (st : Statics)
    : Statics * result ToolChoices :=
  let wrap (error : exn) : exn :=
    Error ("Failed to get tool functions: " +:+ error_message error) in
  match toolsDirPath st with
  | Some (String _ _ as dirPath) =>
      let '(st', loaded) :=
        match instance st with
        | Some tools => (st, Ok tools)
        | None => loadToolFunctions dirPath st
        end in
      (st',
       try_rethrow
         (tools ← loaded;
          let toolChoices := omap (find_definition (toolDefinitions tools)) toolNames in
          if negb (length toolChoices =? length toolNames)%nat then
            let missingTools :=
              List.filter
                (fun name =>
                   negb (existsb (fun t => String.eqb (tool_name t) name) toolChoices))
                toolNames in
            Err (Error ("Tools not found: " +:+ String.concat ", " missingTools))
          else
            Ok {| choices_toolChoices := toolChoices;
                  choices_toolFunctions := toolFunctions tools |})
         wrap)
  | _ => (st, Err (wrap (Error "Tools have not been loaded yet")))
  end.

(** [loadToolFuctions] of the earlier agent.ts *)
Definition loadToolFuctions (toolsDirAddr : string) (st : Statics)
    : Statics * result bool :=
  match loadToolFunctions toolsDirAddr st with
  | (st', Ok _) =>
      ({| instance := instance st'; toolsDirPath := Some toolsDirAddr |}, Ok true)
  | (st', Err e) => (st', Err e)
  end.
End Loader.

End ToolsLoader.

(* ================================================================== *)
(** * Notions used in the statements *)
(* ================================================================== *)

Section Statements.
Context `{JSON} `{Builtins}.

(** A tool message that reports a failure: its content is the text of an
    object whose one property, [error], is the message. *)
Definition reports (msg : Message) (message : string) : Prop :=
  content msg = Some (JSON_stringify (VObj [("error", VStr message)])).

(** What the message for one call has to be, case by case. The name is
    looked up as the code looks it up, [functions[name]]: an own property
    of the object or a property that it inherits. *)
Definition answers (functions : ToolFunctions) (t : ToolCall)
    (msg : Message) : Prop :=
  role msg = tool
  /\ tool_call_id msg = Some (call_id t)
  /\ tool_calls msg = None
  /\ (forall e, get_function functions (call_name t) = Err e ->
        reports msg (error_message e))
  /\ (get_function functions (call_name t) = Ok None ->
        reports msg ("Function '" +:+ call_name t +:+ "' not found"))
  /\ (forall f, get_function functions (call_name t) = Ok (Some f) ->
        (JSON_parse (call_arguments t) = None ->
           reports msg
             ("Invalid arguments format for function '" +:+ call_name t
                +:+ "': " +:+ call_arguments t))
        /\ (forall args, JSON_parse (call_arguments t) = Some args ->
              (f args = Ok VUndefined ->
                 reports msg
                   ("Function '" +:+ call_name t +:+ "' returned no response"))
              /\ (forall e, f args = Err e -> reports msg (error_message e))
              /\ (forall v, f args = Ok v -> v <> VUndefined ->
                    content msg = Some (JSON_stringify v)))).

(** What the store read of a turn gives. *)
Definition fetch_context (this : OpenAIAgent) (queryParams : AgentCompletionParams)
    (options : CreateChatCompletionOptions) : result (list Message) :=
  match Storage this with
  | Some storage =>
      getStoredMessages storage (id_or_default (user_param queryParams))
        (Some (turn_history_options this options))
  | None => Ok []
  end.

Definition template_ref (this : OpenAIAgent) : ArrayRef :=
  match defaultHistoryMessages this with
  | Some _ => TemplateArray
  | None => FreshArray
  end.

(** The step that failed with [e] is the history write: [saveChatHistory]
    ran on the store of [before], raised [e] and left the store of
    [after]. *)
Definition failed_in_save (before after : OpenAIAgent) (e : exn) : Prop :=
  exists storage userId messages storage',
    Storage before = Some storage
    /\ saveChatHistory storage userId messages = (storage', Err e)
    /\ Storage after = Some storage'.

(** What one call of [saveChatHistory] or [deleteHistory] for the log [id]
    leaves alone: the reads of every other user. *)
Definition other_logs_kept (id : string) (s s' : AgentStorage) : Prop :=
  forall other o, other <> id ->
    getStoredMessages s' other o = getStoredMessages s other o.

(** The store of the agent is as before, or is what one call of
    [saveChatHistory] for [userId] made of it. *)
Definition saved_by (userId : option string) (before after : OpenAIAgent) : Prop :=
  Storage after = Storage before
  \/ exists storage messages storage' r,
       Storage before = Some storage
       /\ saveChatHistory storage userId messages = (storage', r)
       /\ Storage after = Some storage'.
End Statements.

(** What [loadToolsDirFiles] checks before it publishes a snapshot: every
    definition went through [validateChatCompletionTool], the object of the
    implementations has as many own properties as there are definitions,
    and the read [functions[name]] gives a truthy value for the name of
    every definition, be it an own property or an inherited one. *)
Definition valid_snapshot `{Builtins} (tools : AgentTools) : Prop :=
  Forall (fun t => validateChatCompletionTool t = Ok tt) (toolDefinitions tools)
  /\ length (toolDefinitions tools) = size (own_functions (toolFunctions tools))
  /\ Forall (fun t => exists f,
                get_function (toolFunctions tools) (tool_name t) = Ok (Some f))
       (toolDefinitions tools).

(** A registry without a snapshot, or with one that was checked. *)
Definition registry_ok `{Builtins} (st : Statics) : Prop :=
  forall tools, instance st = Some tools -> valid_snapshot tools.

(** The fields of the agent that no method writes after construction. *)
Definition same_settings (a b : OpenAIAgent) : Prop :=
  completionParams a = completionParams b
  /\ system_instruction a = system_instruction b
  /\ historyOptions a = historyOptions b.

(** How a step may change the agent: the settings stay, a template stays a
    template and only grows at its tail. *)
Definition extends (a b : OpenAIAgent) : Prop :=
  same_settings a b
  /\ forall T, defaultHistoryMessages a = Some T ->
       exists extra, defaultHistoryMessages b = Some (T ++ extra)%list.

(** A step that grows the template at most and leaves the store alone. *)
Definition quiet (a b : OpenAIAgent) : Prop :=
  extends a b /\ Storage b = Storage a.

(** The instruction a turn resolves to, in the words of the
    system-instruction rule: the per-call instruction when it is non-empty,
    else the agent's default when that is non-empty, else none. *)
Definition resolved_instruction (defaultInstruction customInstruction : option string)
    : option string :=
  if nonempty customInstruction then customInstruction
  else if nonempty defaultInstruction then defaultInstruction
  else None.

(** The rule itself: a resolved instruction goes first and takes the place
    of a leading system message; without one the sequence stays as it is. *)
Definition with_instruction (instruction : option string) (stored : list Message)
    : list Message :=
  match instruction with
  | Some text =>
      system_message text :: (if leading_is_system stored then tail stored else stored)
  | None => stored
  end.

(* ================================================================== *)
(** * A small concrete host, for examples *)
(* ================================================================== *)

Module Sample.

(** Stored entries are written as a role letter, a colon and the text. *)
Definition role_letter (r : Role) : string :=
  match r with
  | system => "s" | user => "u" | assistant => "a" | tool => "t"
  end.

Definition stringify (m : Message) : string :=
  role_letter (role m) +:+ ":" +:+ default EmptyString (content m).

Definition parse (s : string) : option Message :=
  match s with
  | String c (String ":" text) =>
      let mk r := Some {| role := r; content := Some text;
                          tool_calls := None; tool_call_id := None |} in
      if Ascii.eqb c "s" then mk system
      else if Ascii.eqb c "u" then mk user
      else if Ascii.eqb c "a" then mk assistant
      else if Ascii.eqb c "t" then mk tool
      else None
  | _ => None
  end.

(** Argument texts: only the empty object and [null] are read. *)
Definition parse_value (s : string) : option value :=
  if String.eqb s "{}" then Some (VObj [])
  else if String.eqb s "null" then Some VNull
  else None.

Definition stringify_value (v : value) : string :=
  match v with
  | VStr s => dquote +:+ s +:+ dquote
  | VObj [(k, VStr s)] => "{" +:+ k +:+ ":" +:+ s +:+ "}"
  | VNull => "null"
  | _ => "{}"
  end.

#[local] Instance json : JSON := {|
  JSON_parse := parse_value;
  JSON_stringify := stringify_value;
  parse_message := parse;
  stringify_message := stringify;
  JSON_syntax_error := fun s => "Unexpected token in JSON: " +:+ s
|}.

(** A host without any tool directory. *)
Definition ENOENT : exn := Thrown CError "ENOENT: no such file or directory" None.

#[local] Instance no_files : FileSystem := {|
  fs_access := fun _ => Err ENOENT;
  fs_readdir := fun _ => Err ENOENT;
  fs_stat_isFile := fun _ => Err ENOENT;
  import_module := fun _ => Err ENOENT;
  path_join := fun d f => d +:+ "/" +:+ f
|}.

Definition assistant_message (text : string) : Message :=
  {| role := assistant; content := Some text; tool_calls := None;
     tool_call_id := None |}.

(** A response with one choice. *)
Definition answer (m : Message) (prompt completion : Z) : ChatCompletion :=
  {| choices := [ {| choice_message := Some m |} ];
     usage := Some {| prompt_tokens := prompt; completion_tokens := completion;
                      total_tokens := prompt + completion |} |}.

(** A provider that answers every request with the same text. *)
#[local] Instance echo : CompletionsAPI := {|
  chat_completions_create := fun _ =>
    Ok (answer (assistant_message "ok") 3 1);
  handleNResponses := fun response _ =>
    omap (fun c => choice_message c ≫= content) (choices response)
|}.

Definition params : AgentCompletionParams :=
  {| model := "gpt-4o-mini"; user_param := Some "u1"; tools := None;
     other_params := ∅ |}.

Definition open_client (entries : list string) : RedisClient :=
  {| lists := {[ user_key "u1" := entries ]}; isOpen := true |}.

Definition closed_client : RedisClient := {| lists := ∅; isOpen := false |}.

Definition agent (template : option (list Message)) (storage : option RedisClient)
    (instruction : option string) : OpenAIAgent :=
  {| completionParams := params;
     defaultHistoryMessages := template;
     Storage := (fun c => {| redisClient := Some c |}) <$> storage;
     system_instruction := instruction;
     historyOptions := None |}.

Definition ask (text : string) (instruction : option string)
    : CreateChatCompletionOptions :=
  {| message := text; opt_system_instruction := instruction;
     tool_choices := None; custom_params := None; history := None |}.

Definition no_statics : Statics := {| instance := None; toolsDirPath := None |}.

(** The built-in objects of Node.js, as far as the examples go. Of the
    properties of [Object.prototype], called with [undefined] as receiver:
    [toString] gives the tag of [undefined], [constructor] is [Object] and
    gives its argument back (a new object for [null] and [undefined]),
    [__proto__] is an object and cannot be called, the others want a
    receiver. No example replaces the prototype by a function: of the
    properties that functions have of their own this host says nothing. *)
Definition wants_receiver : ToolFunction :=
  fun _ => Err (Thrown CTypeError "Cannot convert undefined or null to object" None).

Definition object_prototype (name : string) : option ToolFunction :=
  if String.eqb name "toString" then Some (fun _ => Ok (VStr "[object Undefined]"))
  else if String.eqb name "constructor" then
    Some (fun args => Ok match args with
                         | VUndefined | VNull => VObj []
                         | _ => args
                         end)
  else if String.eqb name "__proto__" then
    Some (fun _ => Err (Thrown CTypeError "currentFunction is not a function" None))
  else if existsb (String.eqb name)
            ["valueOf"; "hasOwnProperty"; "isPrototypeOf"; "propertyIsEnumerable";
             "toLocaleString"; "__defineGetter__"; "__defineSetter__";
             "__lookupGetter__"; "__lookupSetter__"]
  then Some wants_receiver
  else None.

#[local] Instance node : Builtins := {|
  Object_prototype := object_prototype;
  through_function := fun _ name => Ok (object_prototype name);
  assignment_fault := fun _ _ => None
|}.

Definition functions_of (own : gmap string ToolFunction) : ToolFunctions :=
  {| own_functions := own; replaced_prototype := None |}.

(** Three tools: one answers, one returns nothing, one throws. *)
Definition functions : ToolFunctions :=
  functions_of
    {[ "get_weather" := (fun _ => Ok (VStr "sunny"));
       "silent" := (fun _ => Ok VUndefined);
       "broken" := (fun _ => Err (Error "boom")) ]}.

Definition calls : list ToolCall :=
  [ {| call_id := "c1"; call_name := "get_weather"; call_arguments := "{}" |};
    {| call_id := "c2"; call_name := "nope"; call_arguments := "{}" |};
    {| call_id := "c3"; call_name := "get_weather"; call_arguments := "{" |};
    {| call_id := "c4"; call_name := "silent"; call_arguments := "{}" |};
    {| call_id := "c5"; call_name := "broken"; call_arguments := "{}" |} ].

Definition tool_request : Message :=
  {| role := assistant; content := None; tool_calls := Some calls;
     tool_call_id := None |}.

(** A well-formed tool definition of the given name. *)
Definition definition_of (name : string) : value :=
  VObj [("type", VStr "function");
        ("function",
         VObj [("name", VStr name);
               ("description", VStr "a sample tool");
               ("parameters", VObj [("type", VStr "object")])])].

Definition weather_module : ToolModule :=
  {| mod_default := None;
     mod_exports :=
       [("get_weather", ExFunction (fun _ => Ok (VStr "sunny")));
        ("get_weather_definition", ExValue (definition_of "get_weather"))] |}.

Definition lonely_module : ToolModule :=
  {| mod_default := None;
     mod_exports := [("get_time_definition", ExValue (definition_of "get_time"))] |}.

Definition renamed_module : ToolModule :=
  {| mod_default := None;
     mod_exports :=
       [("now", ExFunction (fun _ => Ok (VStr "noon")));
        ("get_time_definition", ExValue (definition_of "get_time"))] |}.

(** A module whose definition bears the name of a property that every
    object inherits, beside an implementation of another name. *)
Definition shadowed_module : ToolModule :=
  {| mod_default := None;
     mod_exports :=
       [("now", ExFunction (fun _ => Ok (VStr "noon")));
        ("toString_definition", ExValue (definition_of "toString"))] |}.

(** A module with an export whose properties cannot be read. *)
Definition trapped_module : ToolModule :=
  {| mod_default := None;
     mod_exports :=
       [("trap", ExThrows (Thrown CTypeError "trapped" None))] |}.

(** A host with five tool directories: [tools] is sound, [uneven] has a
    definition and no implementation at all, [unmatched] has as many
    implementations as definitions but under another name, [shadowed] the
    same with a definition named [toString], [trapped] an export that
    cannot be read. *)
#[local] Instance tool_files : FileSystem := {|
  fs_access := fun d =>
    if String.eqb d "tools" || String.eqb d "uneven" || String.eqb d "unmatched"
       || String.eqb d "shadowed" || String.eqb d "trapped"
    then Ok tt else Err ENOENT;
  fs_readdir := fun d =>
    if String.eqb d "tools" then Ok ["README.md"; "weather.ts"]
    else if String.eqb d "uneven" then Ok ["lonely.ts"]
    else if String.eqb d "unmatched" then Ok ["renamed.js"]
    else if String.eqb d "shadowed" then Ok ["shadowed.js"]
    else if String.eqb d "trapped" then Ok ["trapped.js"]
    else Err ENOENT;
  fs_stat_isFile := fun _ => Ok true;
  import_module := fun f =>
    if String.eqb f "tools/weather.ts" then Ok weather_module
    else if String.eqb f "uneven/lonely.ts" then Ok lonely_module
    else if String.eqb f "unmatched/renamed.js" then Ok renamed_module
    else if String.eqb f "shadowed/shadowed.js" then Ok shadowed_module
    else if String.eqb f "trapped/trapped.js" then Ok trapped_module
    else Err ENOENT;
  path_join := fun d f => d +:+ "/" +:+ f
|}.

Definition weather_tools : AgentTools :=
  {| toolDefinitions := [definition_of "get_weather"];
     toolFunctions :=
       functions_of {[ "get_weather" := (fun _ => Ok (VStr "sunny")) ]} |}.

(** What the directory [shadowed] gives. *)
Definition shadowed_tools : AgentTools :=
  {| toolDefinitions := [definition_of "toString"];
     toolFunctions := functions_of {[ "now" := (fun _ => Ok (VStr "noon")) ]} |}.

Definition loaded_statics : Statics :=
  {| instance := Some weather_tools; toolsDirPath := Some "tools" |}.

Definition history : list Message :=
  [user_message "1"; assistant_message "2"; user_message "3"].

(** A provider that asks for the weather tool once and answers when the
    tool message has come back. *)
Definition weather_call : Message :=
  {| role := assistant; content := None;
     tool_calls := Some [ {| call_id := "c1"; call_name := "get_weather";
                             call_arguments := "{}" |} ];
     tool_call_id := None |}.

#[local] Instance forecaster : CompletionsAPI := {|
  chat_completions_create := fun query =>
    match last (q_messages query) with
    | Some m =>
        if bool_decide (role m = tool)
        then Ok (answer (assistant_message "it is sunny") 10 2)
        else Ok (answer weather_call 5 1)
    | None => Err (Error "empty request")
    end;
  handleNResponses := fun response _ =>
    omap (fun c => choice_message c ≫= content) (choices response)
|}.

(** A provider that is down, and one that asks for the weather tool and
    is down when the tool message comes back. *)
#[local] Instance down : CompletionsAPI := {|
  chat_completions_create := fun _ => Err (Error "503 Service Unavailable");
  handleNResponses := fun response _ =>
    omap (fun c => choice_message c ≫= content) (choices response)
|}.

#[local] Instance flaky : CompletionsAPI := {|
  chat_completions_create := fun query =>
    match last (q_messages query) with
    | Some m =>
        if bool_decide (role m = tool)
        then Err (Error "503 Service Unavailable")
        else Ok (answer weather_call 5 1)
    | None => Err (Error "empty request")
    end;
  handleNResponses := fun response _ =>
    omap (fun c => choice_message c ≫= content) (choices response)
|}.

(** A request that names the weather tool. *)
Definition ask_weather : CreateChatCompletionOptions :=
  mkOptions "weather?" None (Some ["get_weather"]) None None.

Definition weather_choices : ToolChoices :=
  {| choices_toolChoices := [definition_of "get_weather"];
     choices_toolFunctions := toolFunctions weather_tools |}.

End Sample.

(* ================================================================== *)
(** * Properties *)
(* ================================================================== *)

(** ** Usage accounting *)

(** C2. Usage aggregation adds field by field and reads a missing operand
    as zero: aggregating nothing with [u] gives [u] back (on either side),
    and each field of the aggregate of [a] and [b] is the sum of that field
    in [a] and in [b]. *)
Theorem getTokensUsage_fieldwise :
  (forall u : CompletionUsage, getTokensUsage None (Some u) = u)
  /\ (forall u : CompletionUsage, getTokensUsage (Some u) None = u)
  /\ (forall a b : CompletionUsage,
        prompt_tokens (getTokensUsage (Some a) (Some b))
          = prompt_tokens a + prompt_tokens b
        /\ completion_tokens (getTokensUsage (Some a) (Some b))
          = completion_tokens a + completion_tokens b
        /\ total_tokens (getTokensUsage (Some a) (Some b))
          = total_tokens a + total_tokens b).
Proof.
  split; [|split].
  - intros [p c t]. unfold getTokensUsage. simpl. reflexivity.
  - intros [p c t]. unfold getTokensUsage. simpl. f_equal; lia.
  - intros a b. unfold getTokensUsage. simpl. auto.
Qed.

(** ** Tool dispatch *)

Section Dispatch.
Context `{JSON} `{Builtins}.

Lemma call_tool_answers functions t : answers functions t (call_tool functions t).
Proof.
  unfold answers, reports, call_tool.
  destruct (run_tool_call functions t) as [text|err] eqn:Hrun;
    unfold run_tool_call in Hrun; cbv zeta in Hrun; simpl;
    (split; [reflexivity|]); (split; [reflexivity|]); (split; [reflexivity|]);
    (split; [|split]).
  - intros e Hf. rewrite Hf in Hrun. discriminate.
  - intros Hf. rewrite Hf in Hrun. discriminate.
  - intros f Hf. rewrite Hf in Hrun. simpl in Hrun. split.
    + intros Hp. rewrite Hp in Hrun. discriminate.
    + intros args Hp. rewrite Hp in Hrun. simpl in Hrun.
      repeat split.
      * intros Hr. rewrite Hr in Hrun. discriminate.
      * intros e Hr. rewrite Hr in Hrun. discriminate.
      * intros v Hr Hv. rewrite Hr in Hrun. simpl in Hrun.
        destruct v; simpl in Hrun; congruence.
  - intros e Hf. rewrite Hf in Hrun. simpl in Hrun. by simplify_eq.
  - intros Hf. rewrite Hf in Hrun. simpl in Hrun. by simplify_eq.
  - intros f Hf. rewrite Hf in Hrun. simpl in Hrun. split.
    + intros Hp. rewrite Hp in Hrun. simpl in Hrun. by simplify_eq.
    + intros args Hp. rewrite Hp in Hrun. simpl in Hrun.
      repeat split.
      * intros Hr. rewrite Hr in Hrun. simpl in Hrun. by simplify_eq.
      * intros e Hr. rewrite Hr in Hrun. simpl in Hrun. by simplify_eq.
      * intros v Hr Hv. rewrite Hr in Hrun. simpl in Hrun.
        destruct v; simpl in Hrun; congruence.
Qed.

(** X23. For a non-empty list of model-issued calls the dispatcher returns
    one tool-role message per call, in the order of the calls, each
    carrying the id of its call. A name that the object of the
    implementations does not have, neither as its own nor inherited, an
    argument text that does not parse, an implementation that throws or
    returns [undefined] each give a message whose content is the text of
    [{error: message}], with the message of that case, instead of a failure
    of the batch; a name that the object has is called, also when it has
    it by inheritance. The dispatcher itself throws exactly when the list
    of calls is missing or empty. *)
Theorem callChosenFunctions_one_message_per_call
    (responseMessage : Message) (functions : ToolFunctions) :
  (forall calls, tool_calls responseMessage = Some calls -> calls <> [] ->
     exists toolMessages,
       _callChosenFunctions responseMessage functions = Ok toolMessages
       /\ Forall2 (answers functions) calls toolMessages)
  /\ (tool_calls responseMessage = None \/ tool_calls responseMessage = Some [] ->
      _callChosenFunctions responseMessage functions
      = Err (Error "No tool calls found in the response message"))
  /\ (forall e, _callChosenFunctions responseMessage functions = Err e ->
        (tool_calls responseMessage = None \/ tool_calls responseMessage = Some [])
        /\ e = Error "No tool calls found in the response message").
Proof.
  unfold _callChosenFunctions. split; [|split].
  - intros calls -> Hne. destruct calls as [|c cs]; [congruence|].
    eexists. split; [reflexivity|].
    generalize (c :: cs). intros l. induction l as [|x l IH]; simpl.
    + constructor.
    + constructor; [apply call_tool_answers | exact IH].
  - by intros [-> | ->].
  - intros e. destruct (tool_calls responseMessage) as [[|c cs]|];
      intros He; try discriminate; injection He as <-; auto.
Qed.
End Dispatch.

(** C1. The code at an input on which it leaves the claim: the model asks
    for [toString], a name that no tool has. The lookup [functions[name]]
    finds the method that every object inherits, the dispatcher calls it,
    and the tool message carries its result, not the error that an unknown
    name is to give. *)
Theorem inherited_name_is_dispatched :
  let functions := toolFunctions Sample.weather_tools in
  let request :=
    {| role := assistant; content := None;
       tool_calls := Some [ {| call_id := "c1"; call_name := "toString";
                               call_arguments := "{}" |} ];
       tool_call_id := None |} in
  own_functions functions !! "toString" = None
  /\ @_callChosenFunctions Sample.json Sample.node request functions
     = Ok [tool_message "c1" (dquote +:+ "[object Undefined]" +:+ dquote)]
  /\ dquote +:+ "[object Undefined]" +:+ dquote
     <> @JSON_stringify Sample.json
          (VObj [("error", VStr "Function 'toString' not found")]).
Proof. vm_compute. split; [reflexivity|]. split; [reflexivity|]. discriminate. Qed.


(** ** History store *)

Lemma lrange_prefix (l : list string) (k : Z) :
  0 < k -> lrange l 0 (k - 1) = take (Z.to_nat k) l.
Proof.
  intros Hk.
  assert (E1 : (k - 1 <? 0) = false) by (apply Z.ltb_ge; lia).
  unfold lrange. cbv zeta.
  change (0 <? 0) with false. cbv iota. rewrite E1. cbv iota.
  change (0 <? 0) with false. cbv iota. rewrite E1, orb_false_l.
  destruct (Z.of_nat (length l) <=? 0) eqn:E2.
  - apply Z.leb_le in E2. destruct l; [by rewrite take_nil | simpl in E2; lia].
  - apply Z.leb_gt in E2.
    destruct (Z.of_nat (length l) <=? k - 1) eqn:E3.
    + apply Z.leb_le in E3. change (Z.to_nat 0) with 0%nat. rewrite drop_0.
      rewrite !take_ge; [done | lia | lia].
    + apply Z.leb_gt in E3. change (Z.to_nat 0) with 0%nat. rewrite drop_0.
      f_equal. lia.
Qed.

Lemma lrange_all (l : list string) : lrange l 0 (-1) = l.
Proof.
  unfold lrange. cbv zeta.
  repeat (progress (change (0 <? 0) with false; change (-1 <? 0) with true; cbv iota)).
  destruct (Z.of_nat (length l) + -1 <? 0) eqn:E1.
  - apply Z.ltb_lt in E1. destruct l; [done | simpl in E1; lia].
  - apply Z.ltb_ge in E1. rewrite orb_false_l.
    destruct (Z.of_nat (length l) <=? 0) eqn:E2; [apply Z.leb_le in E2; lia|].
    destruct (Z.of_nat (length l) <=? Z.of_nat (length l) + -1) eqn:E3;
      [apply Z.leb_le in E3; lia|].
    change (Z.to_nat 0) with 0%nat. rewrite drop_0, take_ge; [done|lia].
Qed.

Lemma rev_take_drop {A : Type} (l : list A) (k : nat) :
  rev (take k (rev l)) = drop (length l - k) l.
Proof.
  rewrite firstn_rev, rev_involutive. done.
Qed.

Section History.
Context `{JSON}.

Lemma map_result_parse (entries : list string) (ms : list Message) :
  Forall2 (fun entry m => parse_message entry = Some m) entries ms ->
  map_result parse_stored entries = Ok ms.
Proof.
  induction 1 as [|entry m entries ms Hp _ IH]; simpl; [done|].
  assert (Hs : parse_stored entry = Ok m) by (unfold parse_stored; by rewrite Hp).
  rewrite Hs. simpl. rewrite IH. done.
Qed.

(** Reading the [k] first physical entries of a parsable log. *)
Lemma fetch_window (l : list string) (log : list Message) (k : nat) :
  Forall2 (fun entry m => parse_message entry = Some m) l (rev log) ->
  match take k l with
  | [] => Ok []
  | _ => parsedMessages ← map_result parse_stored (take k l); Ok (rev parsedMessages)
  end = Ok (drop (length log - k) log).
Proof.
  intros Hl.
  assert (Hk : map_result parse_stored (take k l) = Ok (take k (rev log))).
  { apply map_result_parse. by apply Forall2_take. }
  destruct (take k l) as [|x xs] eqn:Ht.
  - simpl in Hk. injection Hk as Hk. rewrite <- rev_take_drop, <- Hk. done.
  - rewrite Hk. simpl. by rewrite rev_take_drop.
Qed.

(** C3. On a stored log whose entries parse: a read with limit 0 returns
    the empty sequence; a read with limit [k > 0] returns the [k] most
    recent messages (all of them when the log is shorter) in chronological
    order, the fetched range being reversed once; a read without a limit
    returns the whole log in chronological order. [log] is the log in
    chronological order; the store holds it most recent first. *)
Theorem getStoredMessages_limit (client : RedisClient) (userId : string)
    (log : list Message) :
  isOpen client = true ->
  Forall2 (fun entry m => parse_message entry = Some m)
    (key_list (user_key userId) client) (rev log) ->
  let this := {| redisClient := Some client |} in
  (forall o, appended_messages o = Some 0 ->
     getStoredMessages this userId (Some o) = Ok [])
  /\ (forall k o, 0 < k -> appended_messages o = Some k ->
        default false (remove_tool_messages o) = false ->
        exists recent,
          getStoredMessages this userId (Some o) = Ok recent
          /\ recent = drop (length log - Z.to_nat k) log
          /\ (Z.to_nat k <= length log -> length recent = Z.to_nat k)%nat)
  /\ (forall o, appended_messages o = None ->
        default false (remove_tool_messages o) = false ->
        getStoredMessages this userId (Some o) = Ok log)
  /\ getStoredMessages this userId None = Ok log.
Proof.
  intros Hopen Hlog this.
  assert (Hall : forall o, appended_messages o = None ->
            default false (remove_tool_messages o) = false ->
            getStoredMessages this userId (Some o) = Ok log).
  { intros o Ha Hr. unfold getStoredMessages; simpl. rewrite Ha, Hr.
    unfold lRange. rewrite Hopen. simpl. rewrite lrange_all.
    pose proof (fetch_window _ log (length (key_list (user_key userId) client)) Hlog)
      as Hw.
    pose proof (Forall2_length _ _ _ Hlog) as Hlen.
    rewrite length_rev in Hlen.
    rewrite take_ge in Hw by lia.
    replace (length log - length (key_list (user_key userId) client))%nat
      with 0%nat in Hw by lia.
    rewrite drop_0 in Hw. rewrite <- Hw.
    destruct (key_list (user_key userId) client); [done|].
    simpl. destruct (parse_stored s); simpl; [|done].
    destruct (map_result parse_stored l); done. }
  repeat split.
  - intros o Ho. unfold getStoredMessages; simpl. by rewrite Ho.
  - intros k o Hk Ha Hr. eexists. split; [|split; [reflexivity|]].
    + unfold getStoredMessages; simpl. rewrite Ha, Hr.
      destruct k as [|p|p]; try lia.
      unfold lRange. rewrite Hopen. simpl. rewrite lrange_prefix by lia.
      rewrite <- (fetch_window _ log (Z.to_nat (Z.pos p)) Hlog).
      destruct (take (Z.to_nat (Z.pos p)) (key_list (user_key userId) client));
        [done|].
      simpl. destruct (parse_stored s); simpl; [|done].
      destruct (map_result parse_stored l); done.
    + intros Hle. rewrite length_drop. lia.
  - exact Hall.
  - apply (Hall no_options); reflexivity.
Qed.
End History.

Section Append.
Context `{JSON}.

Lemma key_list_insert (key : string) (l : list string) (lists0 : gmap string (list string))
    (o : bool) :
  key_list key {| lists := <[key := l]> lists0; isOpen := o |} = l.
Proof. unfold key_list. simpl. by rewrite lookup_insert_eq. Qed.

(** On an open client the loop pushes every message, one by one, to the
    head of the user's list and touches no other key. *)
Lemma push_all_open (key : string) (messages : list Message) :
  forall client, isOpen client = true ->
  exists client',
    push_all key messages client = (client', Ok tt)
    /\ isOpen client' = true
    /\ key_list key client'
       = (rev (map stringify_message messages) ++ key_list key client)%list
    /\ (forall k, k <> key -> lists client' !! k = lists client !! k).
Proof.
  induction messages as [|m rest IH]; intros client Hopen.
  - exists client. simpl. auto.
  - simpl. unfold lPush. rewrite Hopen.
    set (client1 := {| lists := _; isOpen := _ |}).
    destruct (IH client1) as (client' & Hpush & Hopen' & Hkey & Hother);
      [reflexivity|].
    exists client'. split; [exact Hpush|]. split; [exact Hopen'|]. split.
    + rewrite Hkey. unfold client1. rewrite key_list_insert.
      rewrite <- app_assoc. done.
    + intros k Hk. rewrite (Hother k Hk). unfold client1. simpl.
      by rewrite lookup_insert_ne.
Qed.

(** C4. [saveChatHistory] drops one leading system-role message and
    pushes the remaining messages, in their order, onto the log kept under
    [user:<id>], where the id is the given user id ([default] when it is
    absent or empty); the chronological log grows by exactly the remaining
    messages and no other key changes. In particular
    [[system, m1, m2]] persists [[m1, m2]]. *)
Theorem saveChatHistory_persists (client : RedisClient) (userId : option string)
    (messages : list Message) :
  isOpen client = true ->
  exists client' returned remaining id,
    saveChatHistory {| redisClient := Some client |} userId messages
      = ({| redisClient := Some client' |}, returned)
    /\ remaining = match messages with
                   | m :: rest => if bool_decide (role m = system) then rest
                                  else messages
                   | [] => []
                   end
    /\ (forall s m1 m2, messages = [system_message s; m1; m2] ->
          remaining = [m1; m2])
    /\ id = match userId with
            | Some (String c s) => String c s
            | _ => "default"
            end
    /\ rev (key_list ("user:" +:+ id) client')
       = (rev (key_list ("user:" +:+ id) client)
            ++ map stringify_message remaining)%list
    /\ (forall k, k <> "user:" +:+ id -> lists client' !! k = lists client !! k).
Proof.
  intros Hopen. unfold saveChatHistory. simpl.
  destruct (push_all_open (user_key (id_or_default userId))
              (drop_leading_system messages) client Hopen)
    as (client' & Hpush & Hopen' & Hkey & Hother).
  rewrite Hpush.
  exists client'. eexists. exists (drop_leading_system messages).
  exists (id_or_default userId).
  split; [reflexivity|]. split.
  { unfold drop_leading_system, leading_is_system.
    destruct messages as [|m rest]; [done|]. by case_bool_decide. }
  split.
  { intros s m1 m2 ->. reflexivity. }
  split.
  { unfold id_or_default. destruct userId as [[|c s]|]; reflexivity. }
  split.
  - fold (user_key (id_or_default userId)). rewrite Hkey.
    rewrite rev_app_distr, rev_involutive. done.
  - exact Hother.
Qed.
End Append.

(** ** Tool registry *)

Section Load.
Context `{Builtins} `{FileSystem}.

Lemma check_implementations_missing (defs : list value) (fns : ToolFunctions) :
  Forall (fun def => exists found, get_function fns (tool_name def) = Ok found) defs ->
  (exists def, def ∈ defs /\ get_function fns (tool_name def) = Ok None) ->
  exists def, def ∈ defs /\ get_function fns (tool_name def) = Ok None
    /\ check_implementations defs fns
       = Err (ToolNotFoundError
                ("Missing function implementation for tool: " +:+ tool_name def)).
Proof.
  induction defs as [|d rest IH]; intros Hread (def & Hin & Hnone).
  - by apply elem_of_nil in Hin.
  - apply Forall_cons in Hread as [[found Hd] Hread]. simpl. rewrite Hd. simpl.
    destruct found as [f|].
    + apply elem_of_cons in Hin as [->|Hin]; [congruence|].
      destruct IH as (def' & Hin' & Hnone' & Hcheck); [done | by exists def|].
      exists def'. split; [by apply elem_of_cons; right|]. by split.
    + exists d. split; [by apply elem_of_cons; left|]. by split.
Qed.

Lemma check_implementations_ok (defs : list value) (fns : ToolFunctions) :
  check_implementations defs fns = Ok tt
  <-> Forall (fun def => exists f, get_function fns (tool_name def) = Ok (Some f)) defs.
Proof.
  induction defs as [|d rest IH]; simpl; [by split; [constructor|]|].
  rewrite Forall_cons.
  destruct (get_function fns (tool_name d)) as [[f|]|e]; simpl.
  - rewrite IH. split; [intros Hrest; split; [by exists f | done] | by intros [_ ?]].
  - split; [discriminate | by intros [[f [=]] _]].
  - split; [discriminate | by intros [[f [=]] _]].
Qed.

(** X24. Every failed load leaves the registry as it was, and a snapshot
    is published only when the whole validation went through: then the
    object of the implementations has as many own properties as there are
    definitions, and the read [functions[name]] is truthy for the name of
    every definition. When the count differs the load fails with the
    count-mismatch fault. When the counts agree, no read throws and the
    read is falsy for the name of a definition, it fails with the
    missing-implementation fault of one such definition, wrapped by the
    outer [catch]. When the counts agree and every read is truthy, also by
    an inherited property, the snapshot is published. *)
Theorem load_failure_keeps_snapshot (dirPath : string) (st : Statics) :
  (forall st' e, loadToolsDirFiles dirPath st = (st', Err e) -> st' = st)
  /\ (forall st' tools, loadToolsDirFiles dirPath st = (st', Ok tools) ->
        instance st' = Some tools
        /\ enumerate_tools dirPath = Ok (toolDefinitions tools, toolFunctions tools)
        /\ length (toolDefinitions tools) = size (own_functions (toolFunctions tools))
        /\ Forall (fun def => exists f,
                     get_function (toolFunctions tools) (tool_name def) = Ok (Some f))
             (toolDefinitions tools))
  /\ (forall defs fns, enumerate_tools dirPath = Ok (defs, fns) ->
        (length defs <> size (own_functions fns) ->
           loadToolsDirFiles dirPath st
           = (st, Err (ValidationError
                         ("Mismatch between number of function definitions ("
                            +:+ pretty (length defs)
                            +:+ ") and implementations ("
                            +:+ pretty (size (own_functions fns)) +:+ ")"))))
        /\ (length defs = size (own_functions fns) ->
            Forall (fun def => exists found,
                      get_function fns (tool_name def) = Ok found) defs ->
            (exists def, def ∈ defs /\ get_function fns (tool_name def) = Ok None) ->
            exists def, def ∈ defs /\ get_function fns (tool_name def) = Ok None
              /\ loadToolsDirFiles dirPath st
                 = (st, Err (Error
                      ("Unexpected error loading tools: Tool not found: "
                         +:+ "Missing function implementation for tool: "
                         +:+ tool_name def))))
        /\ (length defs = size (own_functions fns) ->
            Forall (fun def => exists f,
                      get_function fns (tool_name def) = Ok (Some f)) defs ->
            let tools := {| toolDefinitions := defs; toolFunctions := fns |} in
            loadToolsDirFiles dirPath st
            = ({| instance := Some tools; toolsDirPath := toolsDirPath st |},
               Ok tools))).
Proof.
  unfold loadToolsDirFiles. split; [|split].
  - intros st' e.
    destruct (enumerate_tools dirPath) as [[defs fns]|e0]; simpl.
    + destruct (validateToolConfiguration defs fns); simpl; congruence.
    + congruence.
  - intros st' tools.
    destruct (enumerate_tools dirPath) as [[defs fns]|e0]; simpl; [|congruence].
    destruct (validateToolConfiguration defs fns) as [[]|e0] eqn:Hv; simpl;
      [|congruence].
    intros Heq. injection Heq as <- <-. simpl.
    unfold validateToolConfiguration in Hv. cbv zeta in Hv.
    destruct (length defs =? size (own_functions fns))%nat eqn:Hc; simpl in Hv;
      [|discriminate].
    apply Nat.eqb_eq in Hc.
    repeat split; [exact Hc | by apply check_implementations_ok].
  - intros defs fns ->. simpl. split; [|split].
    + intros Hne. unfold validateToolConfiguration. cbv zeta.
      apply Nat.eqb_neq in Hne. rewrite Hne. reflexivity.
    + intros Heq Hread Hmissing.
      destruct (check_implementations_missing defs fns Hread Hmissing)
        as (def & Hin & Hnone & Hcheck).
      exists def. split; [exact Hin|]. split; [exact Hnone|].
      unfold validateToolConfiguration. cbv zeta.
      apply Nat.eqb_eq in Heq. rewrite Heq. simpl. rewrite Hcheck.
      reflexivity.
    + intros Heq Hall. apply check_implementations_ok in Hall.
      unfold validateToolConfiguration. cbv zeta.
      apply Nat.eqb_eq in Heq. rewrite Heq. simpl. by rewrite Hall.
Qed.
End Load.

(** C5. The code at an input on which it leaves the claim: a directory
    whose one definition is named [toString] and whose one implementation
    is named [now]. The counts agree, the test [!functions[functionName]]
    finds the method that every object inherits, and the load publishes
    the snapshot in the place of the one that was there, although the
    definition has no implementation of its name. *)
Theorem shadowed_definition_is_published :
  map tool_name (toolDefinitions Sample.shadowed_tools) = ["toString"]
  /\ own_functions (toolFunctions Sample.shadowed_tools) !! "toString" = None
  /\ instance Sample.loaded_statics = Some Sample.weather_tools
  /\ @loadToolsDirFiles Sample.node Sample.tool_files "shadowed" Sample.loaded_statics
     = ({| instance := Some Sample.shadowed_tools; toolsDirPath := Some "tools" |},
        Ok Sample.shadowed_tools).
Proof. vm_compute. repeat split. Qed.


Section Resolve.
Context `{Builtins} `{FileSystem}.

Lemma find_definition_Some (defs : list value) (name : string) (t : value) :
  find_definition defs name = Some t -> t ∈ defs /\ tool_name t = name.
Proof.
  unfold find_definition. intros Hf. apply find_some in Hf as [Hin Heq].
  split; [by apply list_elem_of_In | by apply String.eqb_eq].
Qed.

Lemma find_definition_None (defs : list value) (name : string) :
  find_definition defs name = None -> name ∉ map tool_name defs.
Proof.
  unfold find_definition. intros Hf Hin.
  apply list_elem_of_In, in_map_iff in Hin as (t & Hname & Hin).
  pose proof (find_none _ _ Hf t Hin) as Hne. simpl in Hne.
  apply String.eqb_neq in Hne. congruence.
Qed.

(** A requested name is among the names of the schemas found exactly
    when the snapshot has a definition of that name. *)
Lemma found_iff_defined (defs : list value) (names : list string) (name : string) :
  name ∈ names ->
  existsb (fun t => String.eqb (tool_name t) name) (omap (find_definition defs) names)
  = bool_decide (name ∈ map tool_name defs).
Proof.
  intros Hname. apply eq_true_iff_eq. rewrite existsb_exists, bool_decide_eq_true.
  split.
  - intros (t & Hin & Heq). apply String.eqb_eq in Heq. subst name.
    apply list_elem_of_In, list_elem_of_omap in Hin as (n' & _ & Hfind).
    apply find_definition_Some in Hfind as [Hdef _].
    apply list_elem_of_In, in_map. by apply list_elem_of_In.
  - intros Hdef.
    destruct (find_definition defs name) as [t|] eqn:Hfind.
    + exists t. pose proof (find_definition_Some _ _ _ Hfind) as [_ Heq].
      split; [|by apply String.eqb_eq].
      apply list_elem_of_In, list_elem_of_omap. by exists name.
    + by apply find_definition_None in Hfind.
Qed.

Lemma missing_filter (defs : list value) (names : list string) :
  List.filter
    (fun name =>
       negb (existsb (fun t => String.eqb (tool_name t) name)
               (omap (find_definition defs) names)))
    names
  = List.filter (fun name => bool_decide (name ∉ map tool_name defs)) names.
Proof.
  apply filter_ext_in. intros name Hin.
  rewrite found_iff_defined by (by apply list_elem_of_In).
  by rewrite bool_decide_not.
Qed.

Lemma all_found (defs : list value) (names : list string) :
  List.filter (fun name => bool_decide (name ∉ map tool_name defs)) names = [] ->
  Forall2 (fun name t => find_definition defs name = Some t
                         /\ t ∈ defs /\ tool_name t = name)
    names (omap (find_definition defs) names).
Proof.
  induction names as [|name rest IH]; simpl; intros Hf; [constructor|].
  case_bool_decide as Hdef; [discriminate|].
  destruct (find_definition defs name) as [t|] eqn:Hfind.
  - change (omap ?f ?l) with (list_omap _ _ f l) in IH.
    constructor; [|by apply IH].
    split; [done | by apply find_definition_Some].
  - apply find_definition_None in Hfind. done.
Qed.

(** C6. [importToolFunctions] looks every requested name up in the
    snapshot in effect (the published one, or the one loaded on demand
    from the recorded path). It gathers all requested names that have no
    definition and fails with one fault that lists every one of them, in
    request order; when none is missing it returns, for each requested
    name and in request order, the definition of that name, together with
    the whole implementation map of the snapshot. *)
Theorem importToolFunctions_collects_missing (toolNames : list string)
    (st st' : Statics) (dirPath : string) (tools : AgentTools) :
  toolsDirPath st = Some dirPath -> dirPath <> EmptyString ->
  (instance st = Some tools /\ st' = st)
  \/ (instance st = None /\ loadToolsDirFiles dirPath st = (st', Ok tools)) ->
  let missing :=
    List.filter
      (fun name => bool_decide (name ∉ map tool_name (toolDefinitions tools)))
      toolNames in
  (missing <> [] ->
     importToolFunctions toolNames st
     = (st', Err (ToolNotFoundError
                    ("The following tools were not found: "
                       +:+ String.concat ", " missing))))
  /\ (missing = [] ->
      exists toolChoices,
        importToolFunctions toolNames st
        = (st', Ok {| choices_toolChoices := toolChoices;
                      choices_toolFunctions := toolFunctions tools |})
        /\ Forall2 (fun name t =>
                      find_definition (toolDefinitions tools) name = Some t
                      /\ t ∈ toolDefinitions tools /\ tool_name t = name)
             toolNames toolChoices).
Proof.
  intros Hpath Hne Hsnap missing.
  assert (Hshape : exists c s, dirPath = String c s).
  { destruct dirPath as [|c s]; [done | by exists c, s]. }
  destruct Hshape as (c & s & Hdir).
  assert (Himport : importToolFunctions toolNames st
            = (st', try_rethrow
                 (if (0 <? length missing)%nat
                  then Err (ToolNotFoundError
                              ("The following tools were not found: "
                                 +:+ String.concat ", " missing))
                  else Ok {| choices_toolChoices :=
                               omap (find_definition (toolDefinitions tools)) toolNames;
                             choices_toolFunctions := toolFunctions tools |})
                 import_rethrow)).
  { unfold importToolFunctions. rewrite Hpath, Hdir.
    destruct Hsnap as [[Hinst ->]|[Hinst Hload]].
    - rewrite Hinst. simpl. rewrite missing_filter. done.
    - rewrite Hinst. rewrite <- Hdir, Hload. simpl. rewrite missing_filter. done. }
  rewrite Himport. split.
  - intros Hmiss. destruct missing; [done|]. reflexivity.
  - intros Hmiss. rewrite Hmiss. simpl. eexists. split; [reflexivity|].
    by apply all_found.
Qed.
End Resolve.

(** ** Purging a history *)

(** C7, as stated, fails: on a log of five messages the storage layer
    reports 1, the number of keys deleted, and the agent method reports
    [true]; neither is the number 5. *)
Lemma purge_of_five_messages_reports_one :
  let client := Sample.open_client ["a:5"; "u:4"; "a:3"; "u:2"; "u:1"] in
  let this := Sample.agent None (Some client) None in
  length (key_list (user_key "u1") client) = 5%nat
  /\ snd (deleteHistory {| redisClient := Some client |} "u1") = Ok 1
  /\ snd (deleteHistory {| redisClient := Some client |} "u1") <> Ok 5
  /\ snd (deleteChatHistory this "u1") = Ok true.
Proof. vm_compute. repeat split; congruence. Qed.

(** C7, amended. [deleteChatHistory] fails with a validation fault when no
    store is attached. With a store whose connection is open it deletes the
    whole log of the user and reports [true]; a second purge right after
    reports [true] again and changes nothing. The number the storage layer
    returns is the number of keys deleted: 1 when the user had a log, 0
    when there was none, and 0 on the second purge. *)
Theorem purge_reports_keys_deleted (this : OpenAIAgent) (userId : string) :
  (Storage this = None ->
     deleteChatHistory this userId
     = (this, Err (ValidationError "Agent storage is not initalized.")))
  /\ (forall client,
        Storage this = Some {| redisClient := Some client |} ->
        isOpen client = true ->
        exists client1,
          let this1 := set_Storage this {| redisClient := Some client1 |} in
          deleteChatHistory this userId = (this1, Ok true)
          /\ key_list (user_key userId) client1 = []
          /\ (forall k, k <> user_key userId -> lists client1 !! k = lists client !! k)
          /\ deleteChatHistory this1 userId = (this1, Ok true)
          /\ deleteHistory {| redisClient := Some client |} userId
             = ({| redisClient := Some client1 |},
                Ok (match lists client !! user_key userId with Some _ => 1 | None => 0 end))
          /\ deleteHistory {| redisClient := Some client1 |} userId
             = ({| redisClient := Some client1 |}, Ok 0)).
Proof.
  split.
  - intros Hs. unfold deleteChatHistory. by rewrite Hs.
  - intros client Hs Hopen.
    destruct (lists client !! user_key userId) as [l|] eqn:Hl.
    + exists {| lists := delete (user_key userId) (lists client); isOpen := isOpen client |}.
      unfold deleteChatHistory, deleteHistory, del, key_list. rewrite Hs. simpl.
      rewrite Hopen, Hl. simpl. rewrite !lookup_delete_eq. simpl.
      repeat split. intros k Hk. by rewrite lookup_delete_ne.
    + exists client.
      unfold deleteChatHistory, deleteHistory, del, key_list. rewrite Hs. simpl.
      rewrite Hopen, Hl. simpl. repeat split.
Qed.

(** ** The turn *)

Lemma extends_refl a : extends a a.
Proof.
  split; [done|]. intros T HT. exists []. by rewrite app_nil_r.
Qed.

Lemma extends_trans a b c : extends a b -> extends b c -> extends a c.
Proof.
  intros [(?&?&?) Hab] [(?&?&?) Hbc]. split; [repeat split; congruence|].
  intros T HT. destruct (Hab T HT) as [e1 Hb]. destruct (Hbc _ Hb) as [e2 Hc].
  exists (e1 ++ e2)%list. by rewrite app_assoc.
Qed.

Lemma extends_push r items m : extends (mem_this m) (mem_this (array_push r items m)).
Proof.
  destruct r; simpl; [|apply extends_refl].
  split; [done|]. intros T HT. simpl. rewrite HT. simpl. by exists items.
Qed.

Lemma extends_set_Storage s m : extends (mem_this m) (mem_this (mem_set_Storage s m)).
Proof. split; [done|]. intros T HT. exists []. simpl. by rewrite app_nil_r. Qed.

Lemma Storage_array_write r contents m :
  Storage (mem_this (array_write r contents m)) = Storage (mem_this m).
Proof. by destruct r. Qed.

Section Turn.
Context `{JSON} `{Builtins} `{FileSystem} `{CompletionsAPI}.

Lemma failed_in_save_from (a a' b : OpenAIAgent) (e : exn) :
  Storage a = Storage a' -> failed_in_save a b e -> failed_in_save a' b e.
Proof.
  intros Heq (storage & userId & messages & storage' & Hs & Hsave & Hafter).
  exists storage, userId, messages, storage'. by rewrite <- Heq.
Qed.

Lemma save_if_attached_effect m userId newMessages m' r :
  save_if_attached m userId newMessages = (m', r) ->
  extends (mem_this m) (mem_this m')
  /\ mem_fresh m' = mem_fresh m
  /\ (forall e, r = Err e -> failed_in_save (mem_this m) (mem_this m') e).
Proof.
  unfold save_if_attached.
  destruct (Storage (mem_this m)) as [storage|] eqn:Hs.
  - destruct (saveChatHistory storage userId newMessages) as [storage' [l|e0]] eqn:Hsave;
      intros Heq; injection Heq as <- <-;
      (split; [apply extends_set_Storage|]); (split; [done|]);
      intros e He; [discriminate|].
    injection He as <-. by exists storage, userId, newMessages, storage'.
  - intros Heq. injection Heq as <- <-.
    split; [apply extends_refl|]. split; [done|]. intros e He. discriminate.
Qed.

Lemma array_read_write r contents m :
  array_read r (array_write r contents m) = contents.
Proof. by destruct r. Qed.

Lemma array_write_write r c1 c2 m :
  array_write r c2 (array_write r c1 m) = array_write r c2 m.
Proof. by destruct r. Qed.

Lemma set_template_same (this : OpenAIAgent) (T : list Message) :
  defaultHistoryMessages this = Some T -> set_template this T = this.
Proof. destruct this; simpl; intros ->; reflexivity. Qed.

Lemma getContextMessages_spec (this : OpenAIAgent) (queryParams : AgentCompletionParams)
    (options : CreateChatCompletionOptions) :
  let m0 := {| mem_this := this; mem_fresh := [] |} in
  _getContextMessages m0 queryParams (Some (turn_history_options this options))
  = match fetch_context this queryParams options with
    | Err e => (m0, Err e)
    | Ok fetched =>
        (array_write (template_ref this)
           (default [] (defaultHistoryMessages this) ++ fetched)%list m0,
         Ok (template_ref this))
    end.
Proof.
  unfold fetch_context, _getContextMessages, template_ref. simpl.
  destruct (Storage this) as [storage|].
  - destruct (getStoredMessages _ _ _) as [fetched|e]; [|done].
    destruct (defaultHistoryMessages this) as [T|] eqn:HT;
      unfold array_push; simpl; by rewrite ?HT.
  - rewrite app_nil_r.
    destruct (defaultHistoryMessages this) as [T|] eqn:HT; [|done].
    simpl. by rewrite set_template_same.
Qed.

Lemma handleSystemInstruction_resolved (dflt custom : option string) :
  match resolved_instruction dflt custom with
  | Some text =>
      _handleSystemInstructionMessage dflt custom = system_message text
      /\ nonempty (Some text) = true
  | None => _handleSystemInstructionMessage dflt custom = system_message EmptyString
  end.
Proof.
  unfold resolved_instruction, _handleSystemInstructionMessage.
  destruct dflt as [[|c1 s1]|], custom as [[|c2 s2]|]; simpl; auto.
Qed.

(** The working sequence a turn assembles, and where it lives. *)
Lemma assemble_spec (this : OpenAIAgent) (queryParams : AgentCompletionParams)
    (options : CreateChatCompletionOptions) :
  let m0 := {| mem_this := this; mem_fresh := [] |} in
  assemble m0 queryParams options
  = match fetch_context this queryParams options with
    | Err e => (m0, Err e)
    | Ok fetched =>
        let stored := (default [] (defaultHistoryMessages this) ++ fetched)%list in
        let sequence :=
          (with_instruction
             (resolved_instruction (system_instruction this)
                (opt_system_instruction options)) stored
             ++ [user_message (message options)])%list in
        (array_write (template_ref this) sequence m0,
         Ok (template_ref this, [user_message (message options)]))
    end.
Proof.
  cbv zeta. unfold assemble. simpl mem_this.
  rewrite getContextMessages_spec.
  destruct (fetch_context this queryParams options) as [fetched|e]; [|done].
  pose proof (handleSystemInstruction_resolved (system_instruction this)
                (opt_system_instruction options)) as Hsys.
  cbv zeta. unfold array_push, array_unshift, array_shift.
  destruct (resolved_instruction _ _) as [text|].
  - destruct Hsys as [Hs Hne]. rewrite !Hs. simpl content. rewrite Hne.
    rewrite !array_read_write. unfold with_instruction.
    destruct (leading_is_system _);
      by rewrite ?array_read_write, ?array_write_write, ?array_read_write.
  - rewrite Hsys. simpl.
    by rewrite ?array_read_write, ?array_write_write.
Qed.
Lemma quiet_refl a : quiet a a.
Proof. split; [apply extends_refl | done]. Qed.

Lemma quiet_trans a b c : quiet a b -> quiet b c -> quiet a c.
Proof.
  intros [Hab Sab] [Hbc Sbc]. split; [by eapply extends_trans | congruence].
Qed.

Lemma quiet_push r items m : quiet (mem_this m) (mem_this (array_push r items m)).
Proof. split; [apply extends_push | apply Storage_array_write]. Qed.

Lemma handleToolCompletion_effect m response responseMessage queryParams messages
    newMessages toolFunctions m' r :
  _handleToolCompletion m response responseMessage queryParams messages
    newMessages toolFunctions = (m', r) ->
  extends (mem_this m) (mem_this m')
  /\ (forall e, r = Err e ->
        Storage (mem_this m') = Storage (mem_this m)
        \/ failed_in_save (mem_this m) (mem_this m') e).
Proof.
  unfold _handleToolCompletion.
  destruct (match array_read messages m with
            | [] => (array_write FreshArray [] m, FreshArray)
            | _ => (m, messages)
            end) as [ma ref] eqn:Hfirst.
  assert (Ha : mem_this ma = mem_this m).
  { destruct (array_read messages m); injection Hfirst as <- <-; reflexivity. }
  pose proof (quiet_push ref [responseMessage] ma) as Hb.
  rewrite Ha in Hb.
  set (mb := array_push ref [responseMessage] ma) in *.
  destruct (_callChosenFunctions responseMessage toolFunctions) as [toolMessages|e0].
  2:{ intros Heq. injection Heq as <- <-. destruct Hb as [Hb Sb].
      split; [exact Hb | intros; by left]. }
  pose proof (quiet_trans _ _ _ Hb (quiet_push ref toolMessages mb)) as Hc.
  set (mc := array_push ref toolMessages mb) in *.
  assert (Hquiet : forall e0 : exn, (mc, Err e0) = (m', r) ->
            extends (mem_this m) (mem_this m')
            /\ (forall e, r = Err e ->
                  Storage (mem_this m') = Storage (mem_this m)
                  \/ failed_in_save (mem_this m) (mem_this m') e)).
  { intros e0 Heq. injection Heq as <- <-. destruct Hc as [Hc Sc].
    split; [exact Hc | intros; by left]. }
  destruct (chat_completions_create _) as [secondResponse|e0]; [|apply Hquiet].
  destruct (first_choice_message secondResponse) as [[secondMessage|]|e0];
    [|apply Hquiet|apply Hquiet].
  destruct (save_if_attached mc _ _) as [md rs] eqn:Hsave.
  apply save_if_attached_effect in Hsave as (Hext & _ & Hfault).
  destruct Hc as [Hc Sc].
  destruct rs as [[]|e0]; intros Heq; injection Heq as <- <-;
    (split; [by eapply extends_trans|]); intros e He; [discriminate|].
  injection He as <-. right.
  eapply failed_in_save_from; [|exact (Hfault e0 eq_refl)]. exact Sc.
Qed.

Lemma complete_effect m st queryParams messages newMessages options m' st' r :
  complete m st queryParams messages newMessages options = (m', st', r) ->
  extends (mem_this m) (mem_this m')
  /\ (forall e, r = Err e ->
        Storage (mem_this m') = Storage (mem_this m)
        \/ failed_in_save (mem_this m) (mem_this m') e).
Proof.
  unfold complete.
  destruct (match tool_choices options with
            | Some ((_ :: _) as names) =>
                match importToolFunctions names st with
                | (st', Ok toolChoices) => (st', Ok (Some toolChoices))
                | (st', Err e) => (st', Err e)
                end
            | _ => (st, Ok None)
            end) as [st1 imported].
  assert (Hquiet : forall e0 : exn, (m, st1, Err e0) = (m', st', r) ->
            extends (mem_this m) (mem_this m')
            /\ (forall e, r = Err e ->
                  Storage (mem_this m') = Storage (mem_this m)
                  \/ failed_in_save (mem_this m) (mem_this m') e)).
  { intros e0 Heq. injection Heq as <- <- <-.
    split; [apply extends_refl | intros; by left]. }
  destruct imported as [toolChoices|e0]; [|apply Hquiet].
  destruct (chat_completions_create _) as [response|e0]; [|apply Hquiet].
  destruct (first_choice_message response) as [[responseMessage|]|e0];
    [|apply Hquiet|apply Hquiet].
  destruct (tool_calls responseMessage) as [calls|];
    [destruct (choices_toolFunctions <$> toolChoices) as [functions|]|].
  - destruct (_handleToolCompletion _ _ _ _ _ _ _) as [mt rt] eqn:Htool.
    intros Heq. injection Heq as <- <- <-.
    by apply handleToolCompletion_effect in Htool.
  - destruct (save_if_attached _ _ _) as [md rs] eqn:Hs.
    apply save_if_attached_effect in Hs as (Hext & _ & Hfault).
    destruct rs as [[]|e0]; intros Heq; injection Heq as <- <- <-;
      (split; [exact Hext|]); intros e He; [discriminate|].
    injection He as <-. right. by apply Hfault.
  - destruct (save_if_attached _ _ _) as [md rs] eqn:Hs.
    apply save_if_attached_effect in Hs as (Hext & _ & Hfault).
    destruct rs as [[]|e0]; intros Heq; injection Heq as <- <- <-;
      (split; [exact Hext|]); intros e He; [discriminate|].
    injection He as <-. right. by apply Hfault.
Qed.
Lemma sent_messages_spec (this : OpenAIAgent) (options : CreateChatCompletionOptions) :
  sent_messages this options
  = match fetch_context this
            (spread_params (completionParams this) (custom_params options)) options with
    | Err e => Err e
    | Ok fetched =>
        Ok (with_instruction
              (resolved_instruction (system_instruction this)
                 (opt_system_instruction options))
              (default [] (defaultHistoryMessages this) ++ fetched)
              ++ [user_message (message options)])%list
    end.
Proof.
  unfold sent_messages. rewrite assemble_spec.
  destruct (fetch_context _ _ _) as [fetched|e]; [|done].
  cbv zeta. cbv beta iota. by rewrite array_read_write.
Qed.

Lemma createChatCompletion_spec (this : OpenAIAgent) (st : Statics)
    (options : CreateChatCompletionOptions) :
  let queryParams := spread_params (completionParams this) (custom_params options) in
  createChatCompletion this st options
  = match sent_messages this options with
    | Err e => (this, st, Err e)
    | Ok sent =>
        let '(m, st, r) :=
          complete
            (array_write (template_ref this) sent {| mem_this := this; mem_fresh := [] |})
            st queryParams (template_ref this) [user_message (message options)]
            options in
        (mem_this m, st, try_rethrow r turn_failed)
    end.
Proof.
  cbv zeta. unfold createChatCompletion. rewrite sent_messages_spec, assemble_spec.
  by destruct (fetch_context _ _ _).
Qed.


Lemma same_settings_write r contents m :
  same_settings (mem_this m) (mem_this (array_write r contents m)).
Proof. by destruct r. Qed.

(** C9. The system-instruction rule. [stored] is what the turn got as
    context, template first and stored messages after it. A non-empty
    per-call instruction is the one sent, whatever the default of the
    agent is; without it a non-empty default is sent; in both cases the
    system message goes first, and a leading system message of [stored]
    is dropped for it, so it is replaced and not doubled. With neither,
    the sequence is [stored] and the user message, nothing put in. The
    call leaves the default of the agent as it was, and a later call
    without an instruction of its own sends that default first again: an
    override holds for its own call only. *)
Theorem system_instruction_rule (this : OpenAIAgent) (st : Statics)
    (options : CreateChatCompletionOptions) :
  let queryParams := spread_params (completionParams this) (custom_params options) in
  let m0 := {| mem_this := this; mem_fresh := [] |} in
  let text := message options in
  (forall m1 ref,
     _getContextMessages m0 queryParams (Some (turn_history_options this options))
     = (m1, Ok ref) ->
     let stored := array_read ref m1 in
     let rest := if leading_is_system stored then tail stored else stored in
     (forall custom,
        opt_system_instruction options = Some custom -> custom <> EmptyString ->
        sent_messages this options
        = Ok (system_message custom :: rest ++ [user_message text])%list)
     /\ (forall dflt,
           nonempty (opt_system_instruction options) = false ->
           system_instruction this = Some dflt -> dflt <> EmptyString ->
           sent_messages this options
           = Ok (system_message dflt :: rest ++ [user_message text])%list)
     /\ (nonempty (opt_system_instruction options) = false ->
         nonempty (system_instruction this) = false ->
         sent_messages this options = Ok (stored ++ [user_message text])%list))
  /\ (forall this' st' r,
        createChatCompletion this st options = (this', st', r) ->
        system_instruction this' = system_instruction this
        /\ forall next dflt sent,
             nonempty (opt_system_instruction next) = false ->
             system_instruction this = Some dflt -> dflt <> EmptyString ->
             sent_messages this' next = Ok sent ->
             head sent = Some (system_message dflt)).
Proof.
  cbv zeta. split.
  - intros m1 ref. rewrite getContextMessages_spec, sent_messages_spec.
    destruct (fetch_context _ _ _) as [fetched|e0]; [|discriminate].
    intros Heq. injection Heq as <- <-. rewrite array_read_write.
    unfold resolved_instruction, with_instruction. repeat split.
    + intros custom -> Hne. destruct custom; [done|]. reflexivity.
    + intros dflt -> -> Hne. destruct dflt; [done|]. reflexivity.
    + by intros -> ->.
  - intros this' st' r Hturn.
    assert (Hkept : system_instruction this' = system_instruction this).
    { revert Hturn. rewrite createChatCompletion_spec.
      destruct (sent_messages this options) as [sent|e0].
      - destruct (complete _ _ _ _ _ _) as [[m st1] r1] eqn:Hc.
        apply complete_effect in Hc as [[Hsame _] _].
        intros Heq. injection Heq as <- <- <-.
        destruct Hsame as (_ & <- & _).
        by destruct (same_settings_write (template_ref this) sent
                       {| mem_this := this; mem_fresh := [] |}) as (_ & <- & _).
      - by intros [= <- <- <-]. }
    split; [exact Hkept|].
    intros next dflt sent Hnone Hdflt Hne. rewrite sent_messages_spec.
    destruct (fetch_context _ _ _) as [fetched|e0]; [|discriminate].
    intros [= <-]. rewrite Hkept, Hdflt. unfold resolved_instruction.
    rewrite Hnone. destruct dflt; [done|]. reflexivity.
Qed.
End Turn.


(** The fault of the history write is the one case in which a failed turn
    has written: [saveChatHistory] reads the whole log back after pushing,
    and an old entry that does not parse fails the turn with the new
    messages already in the log. *)
Example failed_turn_after_history_write :
  let this := Sample.agent None (Some (Sample.open_client ["garbage"])) None in
  let options :=
    {| message := "hi"; opt_system_instruction := None; tool_choices := None;
       custom_params := None;
       history := Some {| own_appended_messages := Some (Some 0);
                          own_remove_tool_messages := None |} |} in
  let '(this', _, r) :=
    @createChatCompletion Sample.json Sample.node Sample.no_files Sample.echo
      this Sample.no_statics options in
  r = Err (Error ("Chat completion failed: Error saving chat history of user: u1: "
                    +:+ "Unexpected token in JSON: garbage"))
  /\ (s ← Storage this'; c ← redisClient s; lists c !! "user:u1")
     = Some ["a:ok"; "u:hi"; "garbage"].
Proof. split; reflexivity. Qed.

(** ** The template across turns *)

Lemma with_instruction_keeps (instruction : option string) (stored : list Message)
    (x : Message) :
  x ∈ stored -> role x <> system -> x ∈ with_instruction instruction stored.
Proof.
  intros Hin Hrole. destruct instruction as [text|]; [|done]. simpl.
  apply elem_of_cons. right.
  destruct stored as [|m rest]; [done|]. simpl.
  case_bool_decide as Hm; [|done].
  apply elem_of_cons in Hin as [->|Hin]; [done | exact Hin].
Qed.

Lemma with_instruction_length (instruction : option string) (stored : list Message) :
  (length stored <= length (with_instruction instruction stored))%nat.
Proof.
  destruct instruction as [text|]; [|done]. simpl.
  destruct (leading_is_system stored); [|lia].
  destruct stored; simpl; lia.
Qed.

Section Template.
Context `{JSON} `{Builtins} `{FileSystem} `{CompletionsAPI}.

Lemma sent_keeps (this : OpenAIAgent) (options : CreateChatCompletionOptions)
    (T sent : list Message) (x : Message) :
  defaultHistoryMessages this = Some T ->
  sent_messages this options = Ok sent ->
  x ∈ T -> role x <> system -> x ∈ sent.
Proof.
  intros HT. rewrite sent_messages_spec, HT.
  destruct (fetch_context _ _ _) as [fetched|e0]; [|discriminate].
  intros [= <-] Hin Hrole. apply elem_of_app. left.
  apply with_instruction_keeps; [|done]. apply elem_of_app. by left.
Qed.

(** One turn on an agent with a template: the template afterwards starts
    with what the turn sent; a turn that could not read its context
    leaves it alone. *)
Lemma template_after_turn (this : OpenAIAgent) (st : Statics)
    (options : CreateChatCompletionOptions) (T : list Message) this' st' r :
  defaultHistoryMessages this = Some T ->
  createChatCompletion this st options = (this', st', r) ->
  match sent_messages this options with
  | Ok sent => exists extra, defaultHistoryMessages this' = Some (sent ++ extra)%list
  | Err _ => this' = this
  end.
Proof.
  intros HT. rewrite createChatCompletion_spec.
  destruct (sent_messages this options) as [sent|e0]; [|by intros [= <- <- <-]].
  destruct (complete _ _ _ _ _ _) as [[m st1] r1] eqn:Hc.
  apply complete_effect in Hc as [[_ Hgrow] _].
  intros Heq. injection Heq as <- <- <-.
  apply Hgrow. unfold template_ref. by rewrite HT.
Qed.

Lemma turn_keeps (this : OpenAIAgent) (st : Statics)
    (options : CreateChatCompletionOptions) (T : list Message) this' st' r :
  defaultHistoryMessages this = Some T ->
  createChatCompletion this st options = (this', st', r) ->
  exists T', defaultHistoryMessages this' = Some T'
    /\ forall x, x ∈ T -> role x <> system -> x ∈ T'.
Proof.
  intros HT Hturn.
  pose proof (template_after_turn _ _ _ _ _ _ _ HT Hturn) as Hafter.
  destruct (sent_messages this options) as [sent|e0] eqn:Hsent.
  - destruct Hafter as [extra Hafter]. eexists. split; [exact Hafter|].
    intros x Hin Hrole. apply elem_of_app. left.
    exact (sent_keeps this options T sent x HT Hsent Hin Hrole).
  - subst this'. by exists T.
Qed.

Lemma run_turns_keeps (turns : list CreateChatCompletionOptions) :
  forall (this : OpenAIAgent) (st : Statics) (T : list Message),
  defaultHistoryMessages this = Some T ->
  exists TN, defaultHistoryMessages (run_turns this st turns).1 = Some TN
    /\ forall x, x ∈ T -> role x <> system -> x ∈ TN.
Proof.
  induction turns as [|options rest IH]; intros this st T HT; simpl.
  - by exists T.
  - destruct (createChatCompletion this st options) as [[this1 st1] r] eqn:Hturn.
    destruct (turn_keeps _ _ _ _ _ _ _ HT Hturn) as (T1 & HT1 & Hkeep1).
    destruct (IH this1 st1 T1 HT1) as (TN & HTN & HkeepN).
    exists TN. split; [exact HTN|]. auto.
Qed.

(** C10, amended. On an agent built with template messages the working
    sequence of a turn is the template array itself. A turn that reads
    its context leaves the template holding what it sent: the old
    template, then the stored messages it fetched, with the resolved
    system message of the turn put first in place of a leading system
    message, then the new user message; the tool exchange of the turn, if
    any, follows. So the template is longer after the turn than before.
    Every message of the template that is not a system message stays in
    it through all later turns and is sent again by each of them; a
    system message at the head stays only until a later turn resolves an
    instruction of its own. *)
Theorem template_is_mutated_in_place (this : OpenAIAgent) (st : Statics)
    (options : CreateChatCompletionOptions) (T : list Message)
    (this' : OpenAIAgent) (st' : Statics) (r : result CompletionResult) :
  defaultHistoryMessages this = Some T ->
  createChatCompletion this st options = (this', st', r) ->
  (forall sent, sent_messages this options = Ok sent ->
     exists fetched extra,
       fetch_context this
         (spread_params (completionParams this) (custom_params options)) options
       = Ok fetched
       /\ sent = (with_instruction
                    (resolved_instruction (system_instruction this)
                       (opt_system_instruction options))
                    (T ++ fetched)
                    ++ [user_message (message options)])%list
       /\ defaultHistoryMessages this' = Some (sent ++ extra)%list
       /\ (length T < length (sent ++ extra))%nat)
  /\ (exists T', defaultHistoryMessages this' = Some T'
      /\ forall later,
           exists TN,
             defaultHistoryMessages (run_turns this' st' later).1 = Some TN
             /\ forall x, x ∈ T' -> role x <> system ->
                  x ∈ TN
                  /\ forall next sentN,
                       sent_messages (run_turns this' st' later).1 next = Ok sentN ->
                       x ∈ sentN).
Proof.
  intros HT Hturn. split.
  - intros sent Hsent.
    pose proof (template_after_turn _ _ _ _ _ _ _ HT Hturn) as Hafter.
    rewrite Hsent in Hafter. destruct Hafter as [extra Hafter].
    rewrite sent_messages_spec, HT in Hsent.
    destruct (fetch_context _ _ _) as [fetched|e0]; [|discriminate].
    injection Hsent as <-. exists fetched, extra.
    split; [reflexivity|]. split; [reflexivity|]. split; [exact Hafter|].
    rewrite !length_app. simpl.
    pose proof (with_instruction_length
                  (resolved_instruction (system_instruction this)
                     (opt_system_instruction options)) (T ++ fetched)) as Hlen.
    rewrite length_app in Hlen. lia.
  - destruct (turn_keeps _ _ _ _ _ _ _ HT Hturn) as (T' & HT' & _).
    exists T'. split; [exact HT'|]. intros later.
    destruct (run_turns_keeps later this' st' T' HT') as (TN & HTN & Hkeep).
    exists TN. split; [exact HTN|]. intros x Hin Hrole.
    split; [by apply Hkeep|].
    intros next sentN HsentN.
    exact (sent_keeps _ next TN sentN x HTN HsentN (Hkeep x Hin Hrole) Hrole).
Qed.
End Template.

(** C10, as stated, fails for the system message of a turn: it is put into
    the template, but the next turn that resolves an instruction of its own
    takes it out again, so it is not sent on every later turn. *)
Lemma replaced_instruction_is_not_resent :
  let this0 := Sample.agent (Some []) None None in
  let turn1 :=
    @createChatCompletion Sample.json Sample.node Sample.no_files Sample.echo
      this0 Sample.no_statics (Sample.ask "hi" (Some "A")) in
  let this1 := turn1.1.1 in
  defaultHistoryMessages this1 = Some [system_message "A"; user_message "hi"]
  /\ @sent_messages Sample.json this1 (Sample.ask "again" (Some "B"))
     = Ok [system_message "B"; user_message "hi"; user_message "again"]
  /\ ~ In (system_message "A")
         [system_message "B"; user_message "hi"; user_message "again"].
Proof.
  split; [reflexivity|]. split; [reflexivity|].
  simpl. intros [Heq|[Heq|[Heq|[]]]]; discriminate.
Qed.

(* ================================================================== *)
(** * The statements at work on the sample host *)
(* ================================================================== *)

(** Five calls, one to an unknown name, one with unreadable arguments, one
    to a silent tool and one to a throwing tool: five messages. *)
Lemma callChosenFunctions_witness :
  Sample.calls <> []
  /\ exists toolMessages,
       @_callChosenFunctions Sample.json Sample.node Sample.tool_request Sample.functions
       = Ok toolMessages
       /\ Forall2 (@answers Sample.json Sample.node Sample.functions) Sample.calls toolMessages.
Proof.
  split; [discriminate|].
  apply (proj1 (@callChosenFunctions_one_message_per_call Sample.json Sample.node
                  Sample.tool_request Sample.functions));
    [reflexivity | discriminate].
Defined.

(** A log of three messages read with limit 2. *)
Lemma getStoredMessages_limit_witness :
  let client := Sample.open_client ["u:3"; "a:2"; "u:1"] in
  isOpen client = true
  /\ exists recent,
       @getStoredMessages Sample.json {| redisClient := Some client |} "u1"
         (Some {| appended_messages := Some 2; remove_tool_messages := None |})
       = Ok recent
       /\ recent = drop (3 - 2) Sample.history
       /\ (2 <= 3 -> length recent = 2)%nat.
Proof.
  split; [reflexivity|].
  assert (Hlog : Forall2 (fun entry m => @parse_message Sample.json entry = Some m)
                   (key_list (user_key "u1") (Sample.open_client ["u:3"; "a:2"; "u:1"]))
                   (rev Sample.history)).
  { repeat constructor. }
  destruct (@getStoredMessages_limit Sample.json
              (Sample.open_client ["u:3"; "a:2"; "u:1"]) "u1" Sample.history
              eq_refl Hlog) as (_ & Hk & _).
  apply (Hk 2 {| appended_messages := Some 2; remove_tool_messages := None |});
    [lia | reflexivity | reflexivity].
Defined.

(** A system message and two more, saved for user [u1]. *)
Lemma saveChatHistory_persists_witness :
  let client := Sample.open_client ["u:1"] in
  let messages := [system_message "be brief"; user_message "2";
                   Sample.assistant_message "3"] in
  isOpen client = true
  /\ exists client' returned remaining id,
       @saveChatHistory Sample.json {| redisClient := Some client |} (Some "u1") messages
       = ({| redisClient := Some client' |}, returned)
       /\ remaining = [user_message "2"; Sample.assistant_message "3"]
       /\ id = "u1"
       /\ rev (key_list ("user:" +:+ id) client')
          = (rev (key_list ("user:" +:+ id) client)
               ++ map (@stringify_message Sample.json) remaining)%list.
Proof.
  split; [reflexivity|].
  destruct (@saveChatHistory_persists Sample.json (Sample.open_client ["u:1"])
              (Some "u1")
              [system_message "be brief"; user_message "2"; Sample.assistant_message "3"]
              eq_refl)
    as (client' & returned & remaining & id & Hsave & Hrem & _ & Hid & Hlog & _).
  exists client', returned, remaining, id.
  split; [exact Hsave|]. split; [exact Hrem|]. split; [exact Hid|]. exact Hlog.
Defined.

(** A directory with one definition and no implementation, and one whose
    only implementation has another name than its definition. *)
Lemma load_failure_witness :
  (@enumerate_tools Sample.node Sample.tool_files "uneven"
   = Ok ([Sample.definition_of "get_time"], no_functions)
   /\ length [Sample.definition_of "get_time"]
      <> size (own_functions no_functions)
   /\ @loadToolsDirFiles Sample.node Sample.tool_files "uneven" Sample.loaded_statics
      = (Sample.loaded_statics,
         Err (ValidationError
                ("Mismatch between number of function definitions ("
                   +:+ pretty (length [Sample.definition_of "get_time"])
                   +:+ ") and implementations ("
                   +:+ pretty (size (own_functions no_functions)) +:+ ")"))))
  /\ (let fns := Sample.functions_of {[ "now" := (fun _ => Ok (VStr "noon")) ]} in
      @enumerate_tools Sample.node Sample.tool_files "unmatched"
      = Ok ([Sample.definition_of "get_time"], fns)
      /\ exists def,
           def ∈ [Sample.definition_of "get_time"]
           /\ @get_function Sample.node fns (tool_name def) = Ok None
           /\ @loadToolsDirFiles Sample.node Sample.tool_files "unmatched"
                Sample.loaded_statics
              = (Sample.loaded_statics,
                 Err (Error
                        ("Unexpected error loading tools: Tool not found: "
                           +:+ "Missing function implementation for tool: "
                           +:+ tool_name def)))).
Proof.
  split.
  - split; [reflexivity|]. split; [discriminate|].
    destruct (@load_failure_keeps_snapshot Sample.node Sample.tool_files "uneven"
                Sample.loaded_statics) as (_ & _ & Hfail).
    destruct (Hfail [Sample.definition_of "get_time"] no_functions eq_refl)
      as [Hcount _].
    apply Hcount. discriminate.
  - cbv zeta. split; [reflexivity|].
    destruct (@load_failure_keeps_snapshot Sample.node Sample.tool_files "unmatched"
                Sample.loaded_statics) as (_ & _ & Hfail).
    destruct (Hfail [Sample.definition_of "get_time"]
                (Sample.functions_of {[ "now" := (fun _ => Ok (VStr "noon")) ]})
                eq_refl) as (_ & Hname & _).
    apply Hname; [reflexivity| |].
    + repeat constructor. by eexists.
    + exists (Sample.definition_of "get_time"). split; [|reflexivity].
      apply elem_of_cons. by left.
Defined.

(** Three names asked for, two of them unknown to the snapshot; and one
    name asked for that the snapshot has. *)
Lemma importToolFunctions_witness :
  toolsDirPath Sample.loaded_statics = Some "tools"
  /\ instance Sample.loaded_statics = Some Sample.weather_tools
  /\ @importToolFunctions Sample.node Sample.tool_files ["get_weather"; "nope"; "nada"]
       Sample.loaded_statics
     = (Sample.loaded_statics,
        Err (ToolNotFoundError "The following tools were not found: nope, nada"))
  /\ exists toolChoices,
       @importToolFunctions Sample.node Sample.tool_files ["get_weather"] Sample.loaded_statics
       = (Sample.loaded_statics,
          Ok {| choices_toolChoices := toolChoices;
                choices_toolFunctions := toolFunctions Sample.weather_tools |})
       /\ Forall2 (fun name t =>
                     find_definition (toolDefinitions Sample.weather_tools) name = Some t
                     /\ t ∈ toolDefinitions Sample.weather_tools
                     /\ tool_name t = name)
            ["get_weather"] toolChoices.
Proof.
  split; [reflexivity|]. split; [reflexivity|]. split.
  - destruct (@importToolFunctions_collects_missing Sample.node Sample.tool_files
                ["get_weather"; "nope"; "nada"] Sample.loaded_statics
                Sample.loaded_statics "tools" Sample.weather_tools
                eq_refl ltac:(discriminate) (or_introl (conj eq_refl eq_refl)))
      as [Hmissing _].
    apply Hmissing. discriminate.
  - destruct (@importToolFunctions_collects_missing Sample.node Sample.tool_files
                ["get_weather"] Sample.loaded_statics
                Sample.loaded_statics "tools" Sample.weather_tools
                eq_refl ltac:(discriminate) (or_introl (conj eq_refl eq_refl)))
      as [_ Hfound].
    apply Hfound. reflexivity.
Defined.

(** Purging a log of five messages, twice. *)
Lemma purge_witness :
  let client := Sample.open_client ["a:5"; "u:4"; "a:3"; "u:2"; "u:1"] in
  let this := Sample.agent None (Some client) None in
  isOpen client = true
  /\ exists client1,
       let this1 := set_Storage this {| redisClient := Some client1 |} in
       deleteChatHistory this "u1" = (this1, Ok true)
       /\ key_list (user_key "u1") client1 = []
       /\ deleteChatHistory this1 "u1" = (this1, Ok true)
       /\ snd (deleteHistory {| redisClient := Some client |} "u1") = Ok 1
       /\ snd (deleteHistory {| redisClient := Some client1 |} "u1") = Ok 0.
Proof.
  split; [reflexivity|].
  destruct (proj2 (purge_reports_keys_deleted
                     (Sample.agent None
                        (Some (Sample.open_client ["a:5"; "u:4"; "a:3"; "u:2"; "u:1"]))
                        None) "u1")
              (Sample.open_client ["a:5"; "u:4"; "a:3"; "u:2"; "u:1"]) eq_refl eq_refl)
    as (client1 & H1 & H2 & _ & H3 & H4 & H5).
  exists client1. split; [exact H1|]. split; [exact H2|]. split; [exact H3|].
  split; [by rewrite H4 | by rewrite H5].
Defined.


(** An agent whose default is [be brief], asked with the instruction [A]
    over a template that starts with a system message. *)
Lemma system_instruction_rule_witness :
  let this := Sample.agent (Some [system_message "old"; user_message "1"]) None
                (Some "be brief") in
  let options := Sample.ask "hi" (Some "A") in
  @sent_messages Sample.json this options
  = Ok [system_message "A"; user_message "1"; user_message "hi"].
Proof.
  destruct (@system_instruction_rule Sample.json Sample.node Sample.no_files Sample.echo
              (Sample.agent (Some [system_message "old"; user_message "1"]) None
                 (Some "be brief"))
              Sample.no_statics (Sample.ask "hi" (Some "A"))) as [Hrule _].
  destruct (Hrule _ _ eq_refl) as (Hcustom & _ & _).
  apply (Hcustom "A"); [reflexivity | discriminate].
Defined.

(** One turn on an agent with an empty template. *)
Lemma template_witness :
  let this := Sample.agent (Some []) None None in
  let options := Sample.ask "hi" (Some "A") in
  defaultHistoryMessages this = Some []
  /\ exists T', defaultHistoryMessages
                  (@createChatCompletion Sample.json Sample.node Sample.no_files Sample.echo
                     this Sample.no_statics options).1.1 = Some T'
       /\ forall later, exists TN,
            defaultHistoryMessages
              (@run_turns Sample.json Sample.node Sample.no_files Sample.echo
                 (@createChatCompletion Sample.json Sample.node Sample.no_files Sample.echo
                    this Sample.no_statics options).1.1
                 (@createChatCompletion Sample.json Sample.node Sample.no_files Sample.echo
                    this Sample.no_statics options).1.2 later).1 = Some TN
            /\ forall x, x ∈ T' -> role x <> system -> x ∈ TN.
Proof.
  split; [reflexivity|].
  destruct (@template_is_mutated_in_place Sample.json Sample.node Sample.no_files Sample.echo
              (Sample.agent (Some []) None None) Sample.no_statics
              (Sample.ask "hi" (Some "A")) [] _ _ _ eq_refl eq_refl)
    as [_ (T' & HT' & Hlater)].
  exists T'. split; [exact HT'|]. intros later.
  destruct (Hlater later) as (TN & HTN & Hkeep).
  exists TN. split; [exact HTN|]. intros x Hin Hrole.
  exact (proj1 (Hkeep x Hin Hrole)).
Defined.

(** A plain turn: one completion, the usage of the provider, the user
    message and the answer as the messages of the turn. *)
Example plain_turn :
  let '(_, _, r) :=
    @createChatCompletion Sample.json Sample.node Sample.no_files Sample.echo
      (Sample.agent None None None) Sample.no_statics (Sample.ask "2+2?" None) in
  r = Ok {| res_choices := ["ok"];
            total_usage := {| prompt_tokens := 3; completion_tokens := 1;
                              total_tokens := 4 |};
            completion_messages := [user_message "2+2?"; Sample.assistant_message "ok"];
            completions := [Sample.answer (Sample.assistant_message "ok") 3 1] |}.
Proof. reflexivity. Qed.

(** A turn with one tool call: the registry is loaded on demand, the tool
    runs, a second request goes out, the usage is the sum, and the four
    new messages are written to the log of the user, oldest last. *)
Example tool_turn :
  let this := Sample.agent None (Some (Sample.open_client [])) None in
  let options :=
    {| message := "weather?"; opt_system_instruction := None;
       tool_choices := Some ["get_weather"]; custom_params := None;
       history := None |} in
  let '(this', st', r) :=
    @createChatCompletion Sample.json Sample.node Sample.tool_files Sample.forecaster
      this {| instance := None; toolsDirPath := Some "tools" |} options in
  (completions <$> r)
  = Ok [Sample.answer Sample.weather_call 5 1;
        Sample.answer (Sample.assistant_message "it is sunny") 10 2]
  /\ (total_usage <$> r)
     = Ok {| prompt_tokens := 15; completion_tokens := 3; total_tokens := 18 |}
  /\ (completion_messages <$> r)
     = Ok [user_message "weather?"; Sample.weather_call;
           tool_message "c1" (dquote +:+ "sunny" +:+ dquote);
           Sample.assistant_message "it is sunny"]
  /\ (s ← Storage this'; c ← redisClient s; lists c !! "user:u1")
     = Some ["a:it is sunny"; "t:" +:+ dquote +:+ "sunny" +:+ dquote; "a:";
             "u:weather?"]
  /\ is_Some (instance st').
Proof. vm_compute. repeat split. by eexists. Qed.

(* ================================================================== *)
(** * More properties of the history store *)
(* ================================================================== *)

(** X1. On usage records, present or missing, whose counts are
    non-negative integers and add up, all three together, to safe integers,
    aggregating does not depend on the order or the grouping of the
    operands, and every sum taken on the way is a safe integer too, so that
    each addition is the exact one. *)
Theorem getTokensUsage_order_free (a b c : option CompletionUsage) :
  safe_usage a -> safe_usage b -> safe_usage c ->
  safe_usage (Some (getTokensUsage (Some (getTokensUsage a b)) c)) ->
  getTokensUsage a b = getTokensUsage b a
  /\ getTokensUsage (Some (getTokensUsage a b)) c
     = getTokensUsage a (Some (getTokensUsage b c))
  /\ safe_usage (Some (getTokensUsage a b))
  /\ safe_usage (Some (getTokensUsage b c))
  /\ safe_usage (Some (getTokensUsage a (Some (getTokensUsage b c)))).
Proof.
  unfold safe_usage, safe_count, getTokensUsage. simpl.
  intros (Ha1 & Ha2 & Ha3) (Hb1 & Hb2 & Hb3) (Hc1 & Hc2 & Hc3) (Hs1 & Hs2 & Hs3).
  split; [f_equal; lia|]. split; [f_equal; lia|]. repeat split; lia.
Qed.

Lemma lrange_negative (l : list string) (j : Z) :
  0 < j -> lrange l 0 (- j - 1) = take (length l - Z.to_nat j) l.
Proof.
  intros Hj.
  assert (E1 : (- j - 1 <? 0) = true) by (apply Z.ltb_lt; lia).
  unfold lrange. cbv zeta.
  change (0 <? 0) with false. cbv iota. rewrite E1. cbv iota.
  change (0 <? 0) with false. cbv iota.
  destruct (Z.of_nat (length l) + (- j - 1) <? 0) eqn:E2.
  - apply Z.ltb_lt in E2. simpl.
    replace (length l - Z.to_nat j)%nat with 0%nat by lia. done.
  - apply Z.ltb_ge in E2. rewrite orb_false_l.
    destruct (Z.of_nat (length l) <=? 0) eqn:E3; [apply Z.leb_le in E3; lia|].
    destruct (Z.of_nat (length l) <=? Z.of_nat (length l) + (- j - 1)) eqn:E4;
      [apply Z.leb_le in E4; lia|].
    change (Z.to_nat 0) with 0%nat. rewrite drop_0. f_equal. lia.
Qed.

Section Reads.
Context `{JSON}.

(** The part of [getStoredMessages] after the range has been fetched. *)
Lemma getStoredMessages_open (client : RedisClient) (userId : string)
    (o : HistoryOptions) :
  isOpen client = true ->
  getStoredMessages {| redisClient := Some client |} userId (Some o)
  = match appended_messages o with
    | Some 0 => Ok []
    | other =>
        let stop := match other with Some k => k - 1 | None => -1 end in
        match lrange (key_list (user_key userId) client) 0 stop with
        | [] => Ok []
        | messages =>
            parsedMessages ← map_result parse_stored messages;
            if default false (remove_tool_messages o)
            then Ok (List.filter is_plain_message (rev parsedMessages))
            else Ok (rev parsedMessages)
        end
    end.
Proof.
  intros Hopen. unfold getStoredMessages, lRange. simpl. rewrite Hopen. simpl.
  destruct (appended_messages o) as [[|p|p]|]; try reflexivity;
    destruct (lrange _ _ _); reflexivity.
Qed.


(** What a read gives for every value of the limit, on a log that parses. *)
Lemma read_parsed (client : RedisClient) (userId : string) (log : list Message)
    (o : HistoryOptions) :
  isOpen client = true ->
  Forall2 (fun entry m => parse_message entry = Some m)
    (key_list (user_key userId) client) (rev log) ->
  default false (remove_tool_messages o) = false ->
  getStoredMessages {| redisClient := Some client |} userId (Some o)
  = Ok match appended_messages o with
       | Some 0 => []
       | Some (Z.pos p) => drop (length log - Pos.to_nat p) log
       | Some (Z.neg p) => drop (Pos.to_nat p) log
       | None => log
       end.
Proof.
  intros Hopen Hlog Hr. rewrite getStoredMessages_open by done. rewrite Hr.
  pose proof (Forall2_length _ _ _ Hlog) as Hlen. rewrite length_rev in Hlen.
  assert (Hwin : forall k,
            match take k (key_list (user_key userId) client) with
            | [] => Ok []
            | s :: l =>
                parsedMessages ← map_result parse_stored (s :: l);
                Ok (rev parsedMessages)
            end = Ok (drop (length log - k) log)).
  { intros k. rewrite <- (fetch_window _ log k Hlog).
    by destruct (take k _). }
  destruct (appended_messages o) as [[|p|p]|]; cbv zeta.
  - reflexivity.
  - rewrite lrange_prefix by lia. rewrite Hwin; try reflexivity; do 2 f_equal; lia.
  - replace (Z.neg p - 1) with (- Z.pos p - 1) by lia.
    rewrite lrange_negative by lia.
    rewrite Hwin, Hlen. f_equal.
    destruct (decide (Pos.to_nat p <= length log)%nat) as [Hle|Hgt].
    + f_equal. lia.
    + rewrite !drop_ge by lia. done.
  - rewrite lrange_all. specialize (Hwin (length log)).
    rewrite take_ge in Hwin by lia. rewrite Hwin.
    replace (length log - length log)%nat with 0%nat by lia. by rewrite drop_0.
Qed.

(** X3. A negative limit [-j] is not rejected: the range read then stops
    [j] entries before the oldest one, so the read returns the log without
    its [j] oldest messages (nothing when the log has no more than [j]). *)
Theorem getStoredMessages_negative_limit (client : RedisClient) (userId : string)
    (log : list Message) (j : Z) :
  isOpen client = true ->
  Forall2 (fun entry m => parse_message entry = Some m)
    (key_list (user_key userId) client) (rev log) ->
  0 < j ->
  getStoredMessages {| redisClient := Some client |} userId
    (Some {| appended_messages := Some (- j); remove_tool_messages := None |})
  = Ok (drop (Z.to_nat j) log).
Proof.
  intros Hopen Hlog Hj. rewrite (read_parsed client userId log) by done. simpl.
  destruct j as [|p|p]; try lia. simpl. try reflexivity; do 2 f_equal; lia.
Qed.
End Reads.

Lemma lrange_nil (start stop : Z) : lrange [] start stop = [].
Proof.
  unfold lrange. cbv zeta. destruct (_ || _); [done|].
  by rewrite drop_nil, take_nil.
Qed.

Lemma user_key_inj (a b : string) : user_key a = user_key b -> a = b.
Proof. unfold user_key. simpl. by intros [=]. Qed.

Section Store.
Context `{JSON}.

Lemma map_result_app_fail (good rest : list string) (bad : string) :
  Forall (fun entry => is_Some (parse_message entry)) good ->
  parse_message bad = None ->
  map_result parse_stored (good ++ bad :: rest)
  = Err (Thrown CSyntaxError (JSON_syntax_error bad) None).
Proof.
  intros Hgood Hbad.
  assert (Hb : parse_stored bad
               = Err (Thrown CSyntaxError (JSON_syntax_error bad) None))
    by (unfold parse_stored; by rewrite Hbad).
  induction Hgood as [|entry good [m Hm] _ IH]; simpl.
  - by rewrite Hb.
  - assert (Hs : parse_stored entry = Ok m) by (unfold parse_stored; by rewrite Hm).
    rewrite Hs. simpl. by rewrite IH.
Qed.

(** X4. A read with limit [k > 0] looks at the [k] most recent entries of
    the list and at nothing else: when they parse, the result is their
    messages, oldest first, whatever lies behind them; when one of them
    does not parse, the read fails with the [SyntaxError] of the first
    such entry, met from the most recent one on. *)
Theorem getStoredMessages_window (client : RedisClient) (userId : string) (k : Z) :
  isOpen client = true -> 0 < k ->
  let window := take (Z.to_nat k) (key_list (user_key userId) client) in
  let read :=
    getStoredMessages {| redisClient := Some client |} userId
      (Some {| appended_messages := Some k; remove_tool_messages := None |}) in
  (forall messages,
     Forall2 (fun entry m => parse_message entry = Some m) window messages ->
     read = Ok (rev messages))
  /\ (forall good bad rest,
        window = (good ++ bad :: rest)%list ->
        Forall (fun entry => is_Some (parse_message entry)) good ->
        parse_message bad = None ->
        read = Err (Thrown CSyntaxError (JSON_syntax_error bad) None)).
Proof.
  intros Hopen Hk. cbv zeta. rewrite getStoredMessages_open by done. simpl.
  destruct k as [|p|p]; try lia. cbv zeta. rewrite lrange_prefix by lia.
  split.
  - intros messages Hparse. pose proof (map_result_parse _ _ Hparse) as Hm.
    destruct (take _ _); [by inversion Hparse|].
    simpl in Hm. by rewrite Hm.
  - intros good bad rest Hwin Hgood Hbad. rewrite Hwin.
    pose proof (map_result_app_fail good rest bad Hgood Hbad) as Hm.
    destruct good; simpl in *; by rewrite Hm.
Qed.

(** The loop of [saveChatHistory] never changes whether the client is open
    and never touches another key. *)
Lemma push_all_frame (key : string) (messages : list Message) :
  forall client client' r,
  push_all key messages client = (client', r) ->
  isOpen client' = isOpen client
  /\ forall k, k <> key -> lists client' !! k = lists client !! k.
Proof.
  induction messages as [|m rest IH]; intros client client' r; simpl.
  - by intros [= <- <-].
  - unfold lPush. destruct (isOpen client) eqn:Hopen.
    + intros Hpush. apply IH in Hpush as [Ho Hk]. simpl in *.
      split; [congruence|]. intros k Hne. rewrite (Hk k Hne).
      by rewrite lookup_insert_ne.
    + by intros [= <- <-].
Qed.

Lemma getStoredMessages_ext (c c' : RedisClient) (userId : string)
    (o : option HistoryOptions) :
  isOpen c' = isOpen c ->
  lists c' !! user_key userId = lists c !! user_key userId ->
  getStoredMessages {| redisClient := Some c' |} userId o
  = getStoredMessages {| redisClient := Some c |} userId o.
Proof.
  intros Ho Hl. unfold getStoredMessages, lRange, key_list. simpl.
  by rewrite Ho, Hl.
Qed.

Lemma saveChatHistory_frame storage userId messages storage' r :
  saveChatHistory storage userId messages = (storage', r) ->
  other_logs_kept (id_or_default userId) storage storage'.
Proof.
  unfold saveChatHistory. destruct storage as [[client|]]; simpl.
  - destruct (push_all _ _ client) as [client' rp] eqn:Hpush.
    apply push_all_frame in Hpush as [Ho Hk].
    assert (Hkept : other_logs_kept (id_or_default userId)
                      {| redisClient := Some client |}
                      {| redisClient := Some client' |}).
    { intros other o Hne. apply getStoredMessages_ext; [done|].
      apply Hk. intros Heq. by apply user_key_inj in Heq. }
    by destruct rp as [[]|e]; intros [= <- <-].
  - by intros [= <- <-] other o Hne.
Qed.

Lemma deleteHistory_frame storage userId storage' r :
  deleteHistory storage userId = (storage', r) ->
  other_logs_kept userId storage storage'.
Proof.
  unfold deleteHistory, del. destruct storage as [[client|]]; simpl.
  - destruct (isOpen client) eqn:Hopen.
    + destruct (lists client !! user_key userId) eqn:Hl;
        intros [= <- <-] other o Hne; [|done].
      apply getStoredMessages_ext; [done|]. simpl.
      apply lookup_delete_ne. intros Heq. by apply user_key_inj in Heq.
    + by intros [= <- <-] other o Hne.
  - by intros [= <- <-] other o Hne.
Qed.

(** X5. The log of one user is the unit of isolation of the store: whatever
    [saveChatHistory] and [deleteHistory] do and however they end, every
    read of another user's log gives afterwards what it gave before. The
    log written is the one of the given id, or of [default] when the id is
    absent or empty. *)
Theorem history_writes_are_per_user (storage : AgentStorage) :
  (forall userId messages storage' r,
     saveChatHistory storage userId messages = (storage', r) ->
     forall other o, other <> id_or_default userId ->
       getStoredMessages storage' other o = getStoredMessages storage other o)
  /\ (forall userId storage' r,
        deleteHistory storage userId = (storage', r) ->
        forall other o, other <> userId ->
          getStoredMessages storage' other o = getStoredMessages storage other o).
Proof.
  split.
  - intros userId messages storage' r Hsave. by apply saveChatHistory_frame in Hsave.
  - intros userId storage' r Hdel. by apply deleteHistory_frame in Hdel.
Qed.

(** X6. Writing and reading back: on an open client whose log parses, and
    for messages that the codec reads back as written, [saveChatHistory]
    returns the whole log in chronological order, the old messages followed
    by the new ones without a leading system message; and a read bounded
    by the number of new messages returns just them. *)
Theorem saveChatHistory_reads_back (client : RedisClient) (userId : option string)
    (log messages : list Message) :
  isOpen client = true ->
  Forall2 (fun entry m => parse_message entry = Some m)
    (key_list (user_key (id_or_default userId)) client) (rev log) ->
  Forall (fun m => parse_message (stringify_message m) = Some m)
    (drop_leading_system messages) ->
  exists client',
    saveChatHistory {| redisClient := Some client |} userId messages
    = ({| redisClient := Some client' |},
       Ok (log ++ drop_leading_system messages)%list)
    /\ (drop_leading_system messages <> [] ->
        getStoredMessages {| redisClient := Some client' |} (id_or_default userId)
          (Some {| appended_messages :=
                     Some (Z.of_nat (length (drop_leading_system messages)));
                   remove_tool_messages := None |})
        = Ok (drop_leading_system messages)).
Proof.
  intros Hopen Hlog Hcodec.
  set (remaining := drop_leading_system messages) in *.
  destruct (push_all_open (user_key (id_or_default userId)) remaining client Hopen)
    as (client' & Hpush & Hopen' & Hkey & _).
  assert (Hlog' : Forall2 (fun entry m => parse_message entry = Some m)
                    (key_list (user_key (id_or_default userId)) client')
                    (rev (log ++ remaining))).
  { rewrite Hkey, rev_app_distr. apply Forall2_app; [|exact Hlog].
    rewrite <- map_rev. apply Forall2_fmap_l, Forall_Forall2_diag.
    apply Forall_forall. intros m Hin. rewrite Forall_forall in Hcodec.
    apply Hcodec. by apply list_elem_of_In, in_rev, list_elem_of_In. }
  exists client'. split.
  - unfold saveChatHistory. simpl. fold remaining. rewrite Hpush.
    change (getStoredMessages ?s ?u None)
      with (getStoredMessages s u (Some no_options)).
    by rewrite (read_parsed client' _ (log ++ remaining)).
  - intros Hne.
    rewrite (read_parsed client' _ (log ++ remaining)) by done. simpl.
    destruct (Z.of_nat (length remaining)) as [|p|p] eqn:Hp.
    + destruct remaining; [done | simpl in Hp; lia].
    + f_equal. rewrite length_app.
      replace (length log + length remaining - Pos.to_nat p)%nat
        with (length log) by lia.
      by rewrite drop_app_length.
    + lia.
Qed.
End Store.

(* ================================================================== *)
(** * More properties of the turn *)
(* ================================================================== *)

Section TurnStore.
Context `{JSON} `{Builtins} `{FileSystem} `{CompletionsAPI}.

Lemma saved_by_from (userId : option string) (a a' b : OpenAIAgent) :
  Storage a' = Storage a -> saved_by userId a' b -> saved_by userId a b.
Proof.
  intros Heq [Hs|(storage & messages & storage' & r & Hb & Hsave & Ha)].
  - left. congruence.
  - right. exists storage, messages, storage', r. by rewrite <- Heq.
Qed.

Lemma save_if_attached_store m userId newMessages m' r :
  save_if_attached m userId newMessages = (m', r) ->
  saved_by userId (mem_this m) (mem_this m').
Proof.
  unfold save_if_attached.
  destruct (Storage (mem_this m)) as [storage|] eqn:Hs.
  - destruct (saveChatHistory storage userId newMessages) as [storage' rs] eqn:Hsave.
    assert (Hby : saved_by userId (mem_this m)
                    (mem_this (mem_set_Storage storage' m))).
    { right. by exists storage, newMessages, storage', rs. }
    by destruct rs; intros [= <- <-].
  - intros [= <- <-]. by left.
Qed.

Lemma handleToolCompletion_store m response responseMessage queryParams messages
    newMessages toolFunctions m' r :
  _handleToolCompletion m response responseMessage queryParams messages
    newMessages toolFunctions = (m', r) ->
  saved_by (user_param queryParams) (mem_this m) (mem_this m').
Proof.
  unfold _handleToolCompletion.
  destruct (match array_read messages m with
            | [] => (array_write FreshArray [] m, FreshArray)
            | _ => (m, messages)
            end) as [ma ref] eqn:Hfirst.
  assert (Ha : mem_this ma = mem_this m).
  { destruct (array_read messages m); injection Hfirst as <- <-; reflexivity. }
  assert (Hb : Storage (mem_this (array_push ref [responseMessage] ma))
               = Storage (mem_this m)).
  { unfold array_push. by rewrite Storage_array_write, Ha. }
  set (mb := array_push ref [responseMessage] ma) in *.
  destruct (_callChosenFunctions responseMessage toolFunctions) as [toolMessages|e0];
    [|intros [= <- <-]; by left].
  assert (Hc : Storage (mem_this (array_push ref toolMessages mb))
               = Storage (mem_this m)).
  { unfold array_push. by rewrite Storage_array_write. }
  set (mc := array_push ref toolMessages mb) in *.
  destruct (chat_completions_create _) as [secondResponse|e0];
    [|intros [= <- <-]; by left].
  destruct (first_choice_message secondResponse) as [[secondMessage|]|e0];
    [|intros [= <- <-]; by left|intros [= <- <-]; by left].
  destruct (save_if_attached mc _ _) as [md rs] eqn:Hsave.
  apply save_if_attached_store in Hsave.
  apply (saved_by_from _ _ _ _ Hc) in Hsave.
  by destruct rs; intros [= <- <-].
Qed.

Lemma complete_store m st queryParams messages newMessages options m' st' r :
  complete m st queryParams messages newMessages options = (m', st', r) ->
  saved_by (user_param queryParams) (mem_this m) (mem_this m').
Proof.
  unfold complete.
  destruct (match tool_choices options with
            | Some ((_ :: _) as names) =>
                match importToolFunctions names st with
                | (st', Ok toolChoices) => (st', Ok (Some toolChoices))
                | (st', Err e) => (st', Err e)
                end
            | _ => (st, Ok None)
            end) as [st1 imported].
  destruct imported as [toolChoices|e0]; [|intros [= <- <- <-]; by left].
  assert (Huser : user_param
            match toolChoices with
            | Some tc =>
                {| model := model queryParams;
                   user_param := user_param queryParams;
                   tools := Some (choices_toolChoices tc);
                   other_params := other_params queryParams |}
            | None => queryParams
            end = user_param queryParams) by (by destruct toolChoices).
  destruct (chat_completions_create _) as [response|e0];
    [|intros [= <- <- <-]; by left].
  destruct (first_choice_message response) as [[responseMessage|]|e0];
    [|intros [= <- <- <-]; by left|intros [= <- <- <-]; by left].
  destruct (tool_calls responseMessage) as [calls|];
    [destruct (choices_toolFunctions <$> toolChoices) as [functions|]|].
  - destruct (_handleToolCompletion _ _ _ _ _ _ _) as [mt rt] eqn:Htool.
    intros [= <- <- <-]. apply handleToolCompletion_store in Htool.
    by rewrite Huser in Htool.
  - destruct (save_if_attached _ _ _) as [md rs] eqn:Hs.
    apply save_if_attached_store in Hs. rewrite Huser in Hs.
    by destruct rs; intros [= <- <- <-].
  - destruct (save_if_attached _ _ _) as [md rs] eqn:Hs.
    apply save_if_attached_store in Hs. rewrite Huser in Hs.
    by destruct rs; intros [= <- <- <-].
Qed.

Lemma createChatCompletion_store (this : OpenAIAgent) (st : Statics)
    (options : CreateChatCompletionOptions) this' st' r :
  createChatCompletion this st options = (this', st', r) ->
  saved_by (user_param (spread_params (completionParams this) (custom_params options)))
    this this'.
Proof.
  rewrite createChatCompletion_spec.
  destruct (sent_messages this options) as [sent|e0]; [|intros [= <- <- <-]; by left].
  destruct (complete _ _ _ _ _ _) as [[m st1] rc] eqn:Hc.
  apply complete_store in Hc. intros [= <- <- <-].
  eapply saved_by_from; [|exact Hc]. apply Storage_array_write.
Qed.

(** X7. A turn writes to the history of one user at most, the one named by
    the [user] parameter of the request ([default] without one): whatever
    the outcome of the turn, the history of every other user reads
    afterwards as it read before. *)
Theorem turn_touches_one_log (this : OpenAIAgent) (st : Statics)
    (options : CreateChatCompletionOptions) this' st' r :
  createChatCompletion this st options = (this', st', r) ->
  forall other o,
    other <> id_or_default
               (user_param (spread_params (completionParams this)
                              (custom_params options))) ->
    getChatHistory this' other o = getChatHistory this other o.
Proof.
  intros Hturn other o Hne. apply createChatCompletion_store in Hturn.
  unfold getChatHistory.
  destruct Hturn as [->|(storage & messages & storage' & rs & -> & Hsave & ->)];
    [done|].
  by apply (saveChatHistory_frame _ _ _ _ _ Hsave).
Qed.

(** X8. After a purge on an open store the history of that user reads
    empty under every option, and the purge has not changed what any other
    user's history reads. *)
Theorem purge_then_read (this : OpenAIAgent) (client : RedisClient)
    (userId : string) :
  Storage this = Some {| redisClient := Some client |} ->
  isOpen client = true ->
  exists this1,
    deleteChatHistory this userId = (this1, Ok true)
    /\ (forall o, getChatHistory this1 userId o = Ok [])
    /\ (forall other o, other <> userId ->
          getChatHistory this1 other o = getChatHistory this other o).
Proof.
  intros Hs Hopen.
  assert (Hdel : exists client' count,
            deleteHistory {| redisClient := Some client |} userId
            = ({| redisClient := Some client' |}, Ok count)
            /\ isOpen client' = true
            /\ key_list (user_key userId) client' = []).
  { unfold deleteHistory, del, key_list. simpl. rewrite Hopen.
    destruct (lists client !! user_key userId) eqn:Hl; simpl.
    - eexists _, _. split; [reflexivity|]. simpl. split; [done|].
      by rewrite lookup_delete_eq.
    - eexists _, _. split; [reflexivity|]. split; [done|]. by rewrite Hl. }
  destruct Hdel as (client' & count & Hdel & Hopen' & Hkey).
  pose proof (deleteHistory_frame _ _ _ _ Hdel) as Hframe.
  exists (set_Storage this {| redisClient := Some client' |}).
  split; [|split].
  - unfold deleteChatHistory. by rewrite Hs, Hdel.
  - intros o. unfold getChatHistory. simpl.
    destruct o as [o|].
    + rewrite getStoredMessages_open by done. rewrite Hkey.
      destruct (appended_messages o) as [[|p|p]|]; cbv zeta;
        by rewrite ?lrange_nil.
    + change (getStoredMessages ?s ?u None)
        with (getStoredMessages s u (Some no_options)).
      rewrite getStoredMessages_open by done. rewrite Hkey.
      cbn [appended_messages no_options]. cbv zeta. by rewrite ?lrange_nil.
  - intros other o Hne. unfold getChatHistory. simpl. rewrite Hs.
    by apply Hframe.
Qed.
End TurnStore.

Section TurnResults.
Context `{JSON} `{Builtins} `{FileSystem} `{CompletionsAPI}.

Lemma template_after_write (this : OpenAIAgent) (contents : list Message) :
  defaultHistoryMessages
    (mem_this (array_write (template_ref this) contents
                 {| mem_this := this; mem_fresh := [] |}))
  = match defaultHistoryMessages this with
    | Some _ => Some contents
    | None => None
    end.
Proof.
  unfold template_ref. destruct (defaultHistoryMessages this) eqn:HT; simpl; done.
Qed.

Lemma sent_messages_nonempty (this : OpenAIAgent) (options : CreateChatCompletionOptions)
    (sent : list Message) :
  sent_messages this options = Ok sent -> sent <> [].
Proof.
  rewrite sent_messages_spec. destruct (fetch_context _ _ _); [|discriminate].
  intros [= <-]. by destruct (with_instruction _ _).
Qed.

(** What [save_if_attached] comes to on the memory a turn starts from. *)
Lemma save_if_attached_written (this : OpenAIAgent) (ref : ArrayRef)
    (contents : list Message) (userId : option string) (newMessages : list Message) :
  let m := array_write ref contents {| mem_this := this; mem_fresh := [] |} in
  save_if_attached m userId newMessages
  = match Storage this with
    | Some storage =>
        let '(storage', saved) := saveChatHistory storage userId newMessages in
        (mem_set_Storage storage' m, _ ← saved; Ok tt)
    | None => (m, Ok tt)
    end.
Proof.
  cbv zeta. unfold save_if_attached. rewrite Storage_array_write. simpl.
  destruct (Storage this) as [storage|]; [|done].
  by destruct (saveChatHistory storage userId newMessages) as [storage' [l|e]].
Qed.

(** X9. A turn for which no tools are requested makes one provider call,
    also when the answer carries tool calls; these are not dispatched. The
    result has the texts of that response, its usage, the user message and
    the answer as the messages of the turn, and that one response. The two
    messages are handed to the store when one is attached, and a fault of
    the store then fails the turn. The registry is left alone, and a
    template of the agent holds afterwards what was sent. *)
Theorem plain_turn_result (this : OpenAIAgent) (st : Statics)
    (options : CreateChatCompletionOptions) (sent : list Message)
    (response : ChatCompletion) (responseMessage : Message) (rest : list Choice) :
  let queryParams := spread_params (completionParams this) (custom_params options) in
  let query := {| q_params := queryParams; q_messages := sent |} in
  let newMessages := [user_message (message options); responseMessage] in
  let result :=
    {| res_choices := handleNResponses response query;
       total_usage := getCompletionsUsage response None;
       completion_messages := newMessages;
       completions := [response] |} in
  tool_choices options = None \/ tool_choices options = Some [] ->
  sent_messages this options = Ok sent ->
  chat_completions_create query = Ok response ->
  choices response = {| choice_message := Some responseMessage |} :: rest ->
  exists this',
    defaultHistoryMessages this'
    = match defaultHistoryMessages this with
      | Some _ => Some sent
      | None => None
      end
    /\ match Storage this with
       | None =>
           createChatCompletion this st options = (this', st, Ok result)
           /\ Storage this' = None
       | Some storage =>
           let '(storage', saved) :=
             saveChatHistory storage (user_param queryParams) newMessages in
           createChatCompletion this st options
           = (this', st,
              match saved with
              | Ok _ => Ok result
              | Err e => Err (Error ("Chat completion failed: " +:+ error_message e))
              end)
           /\ Storage this' = Some storage'
       end.
Proof.
  cbv zeta. intros Htools Hsent Hcreate Hchoices.
  rewrite createChatCompletion_spec, Hsent. unfold complete.
  assert (Hnone : match tool_choices options with
                  | Some ((_ :: _) as names) =>
                      match importToolFunctions names st with
                      | (st', Ok toolChoices) => (st', Ok (Some toolChoices))
                      | (st', Err e) => (st', Err e)
                      end
                  | _ => (st, Ok None)
                  end = (st, Ok None)) by (by destruct Htools as [-> | ->]).
  rewrite Hnone. cbv beta iota. rewrite array_read_write.
  unfold fmap, option_fmap, option_map. rewrite Hcreate.
  unfold first_choice_message. rewrite Hchoices. cbv beta iota. simpl choice_message.
  cbv beta iota.
  assert (Hbranch : forall A (y : A),
            match tool_calls responseMessage with
            | Some _ => y
            | None => y
            end = y) by (intros; by destruct (tool_calls responseMessage)).
  rewrite Hbranch. rewrite save_if_attached_written.
  destruct (Storage this) as [storage|] eqn:Hs.
  - destruct (saveChatHistory storage _ _) as [storage' saved] eqn:Hsave.
    eexists. split; [|split; [destruct saved; reflexivity|]].
    + destruct saved; simpl; apply template_after_write.
    + by destruct saved.
  - eexists. split; [|split; [reflexivity|]].
    + apply template_after_write.
    + by rewrite Storage_array_write.
Qed.

Lemma array_push_write r items contents m :
  array_push r items (array_write r contents m)
  = array_write r (contents ++ items)%list m.
Proof. unfold array_push. by rewrite array_read_write, array_write_write. Qed.

(** The [try] body once the tools of the turn are resolved. *)
Lemma complete_requested m st queryParams messages newMessages options st' toolChoices :
  requested_tools options st = (st', Ok toolChoices) ->
  complete m st queryParams messages newMessages options
  = let toolParams := with_tools queryParams toolChoices in
    let query := {| q_params := toolParams; q_messages := array_read messages m |} in
    match chat_completions_create query with
    | Err e => (m, st', Err e)
    | Ok response =>
        match first_choice_message response with
        | Err e => (m, st', Err e)
        | Ok None => (m, st', Err (Error "No response message received from OpenAI"))
        | Ok (Some responseMessage) =>
            let newMessages := (newMessages ++ [responseMessage])%list in
            match tool_calls responseMessage, toolChoices with
            | Some _, Some tc =>
                let '(m, r) :=
                  _handleToolCompletion m response responseMessage toolParams
                    messages newMessages (choices_toolFunctions tc) in
                (m, st', r)
            | _, _ =>
                match save_if_attached m (user_param toolParams) newMessages with
                | (m, Err e) => (m, st', Err e)
                | (m, Ok _) =>
                    (m, st', Ok {| res_choices := handleNResponses response query;
                                   total_usage := getCompletionsUsage response None;
                                   completion_messages := newMessages;
                                   completions := [response] |})
                end
            end
        end
    end.
Proof.
  intros Hreq. unfold complete. unfold requested_tools in Hreq. rewrite Hreq.
  by destruct toolChoices.
Qed.

(** The tool round on the memory a turn starts from. *)
Lemma handleToolCompletion_written (this : OpenAIAgent) (ref : ArrayRef)
    (sent : list Message) response responseMessage queryParams newMessages functions :
  sent <> [] ->
  let m0 := {| mem_this := this; mem_fresh := [] |} in
  _handleToolCompletion (array_write ref sent m0) response responseMessage queryParams
    ref newMessages functions
  = match _callChosenFunctions responseMessage functions with
    | Err e => (array_write ref (sent ++ [responseMessage])%list m0, Err e)
    | Ok toolMessages =>
        let contents := (sent ++ [responseMessage] ++ toolMessages)%list in
        let m := array_write ref contents m0 in
        let query := {| q_params := queryParams; q_messages := contents |} in
        match chat_completions_create query with
        | Err e => (m, Err e)
        | Ok secondResponse =>
            match first_choice_message secondResponse with
            | Err e => (m, Err e)
            | Ok None =>
                (m, Err (Error
                  "No response message received from second tool query to OpenAI"))
            | Ok (Some secondResponseMessage) =>
                let newMessages :=
                  (newMessages ++ toolMessages ++ [secondResponseMessage])%list in
                match save_if_attached m (user_param queryParams) newMessages with
                | (m, Err e) => (m, Err e)
                | (m, Ok _) =>
                    (m, Ok {| res_choices := handleNResponses secondResponse query;
                              total_usage :=
                                getCompletionsUsage response (Some secondResponse);
                              completion_messages := newMessages;
                              completions := [response; secondResponse] |})
                end
            end
        end
    end.
Proof.
  intros Hne. cbv zeta. unfold _handleToolCompletion.
  rewrite array_read_write. destruct sent as [|first sent']; [done|].
  rewrite !array_push_write.
  destruct (_callChosenFunctions responseMessage functions) as [toolMessages|e]; [|done].
  rewrite !array_push_write, array_read_write.
  rewrite <- !(app_assoc (first :: sent')).
  destruct (chat_completions_create _) as [secondResponse|e]; [|done].
  destruct (first_choice_message secondResponse) as [[secondResponseMessage|]|e];
    [|done|done].
  by rewrite <- !(app_assoc newMessages).
Qed.

(** X10. A turn whose tools resolve and whose first answer asks for tool
    calls runs every call, sends the first request again with the answer
    and the tool messages appended, and returns the texts of the second
    response, the usage of both, the user message, the first answer, the
    tool messages and the second answer as the messages of the turn, and
    both responses. These messages are handed to the store when one is
    attached. A template of the agent holds afterwards the second request.
    The second answer is not inspected for tool calls. *)
Theorem tool_turn_result (this : OpenAIAgent) (st st' : Statics)
    (options : CreateChatCompletionOptions) (tc : ToolChoices) (sent : list Message)
    (response secondResponse : ChatCompletion)
    (responseMessage secondResponseMessage : Message) (calls : list ToolCall)
    (rest rest' : list Choice) :
  let queryParams :=
    with_tools (spread_params (completionParams this) (custom_params options))
      (Some tc) in
  let toolMessages := map (call_tool (choices_toolFunctions tc)) calls in
  let resent := (sent ++ [responseMessage] ++ toolMessages)%list in
  let query := {| q_params := queryParams; q_messages := resent |} in
  let newMessages :=
    ([user_message (message options); responseMessage] ++ toolMessages
       ++ [secondResponseMessage])%list in
  let result :=
    {| res_choices := handleNResponses secondResponse query;
       total_usage := getCompletionsUsage response (Some secondResponse);
       completion_messages := newMessages;
       completions := [response; secondResponse] |} in
  requested_tools options st = (st', Ok (Some tc)) ->
  sent_messages this options = Ok sent ->
  chat_completions_create {| q_params := queryParams; q_messages := sent |}
  = Ok response ->
  choices response = {| choice_message := Some responseMessage |} :: rest ->
  tool_calls responseMessage = Some calls ->
  calls <> [] ->
  chat_completions_create query = Ok secondResponse ->
  choices secondResponse = {| choice_message := Some secondResponseMessage |} :: rest' ->
  exists this',
    defaultHistoryMessages this'
    = match defaultHistoryMessages this with
      | Some _ => Some resent
      | None => None
      end
    /\ match Storage this with
       | None =>
           createChatCompletion this st options = (this', st', Ok result)
           /\ Storage this' = None
       | Some storage =>
           let '(storage', saved) :=
             saveChatHistory storage (user_param queryParams) newMessages in
           createChatCompletion this st options
           = (this', st',
              match saved with
              | Ok _ => Ok result
              | Err e => Err (Error ("Chat completion failed: " +:+ error_message e))
              end)
           /\ Storage this' = Some storage'
       end.
Proof.
  cbv zeta. intros Hreq Hsent Hcreate Hchoices Hcalls Hne Hcreate' Hchoices'.
  remember (createChatCompletion this st options) as turn eqn:Hturn.
  rewrite createChatCompletion_spec, Hsent in Hturn.
  rewrite (complete_requested _ _ _ _ _ _ _ _ Hreq) in Hturn. cbv zeta in Hturn.
  rewrite array_read_write, Hcreate in Hturn.
  unfold first_choice_message at 1 in Hturn. rewrite Hchoices in Hturn.
  simpl choice_message in Hturn. cbv beta iota in Hturn. rewrite Hcalls in Hturn.
  rewrite handleToolCompletion_written in Hturn
    by exact (sent_messages_nonempty _ _ _ Hsent).
  unfold _callChosenFunctions in Hturn. rewrite Hcalls in Hturn.
  destruct calls as [|call calls']; [done|]. cbv beta iota zeta in Hturn.
  rewrite Hcreate' in Hturn. unfold first_choice_message in Hturn.
  rewrite Hchoices' in Hturn. simpl choice_message in Hturn. cbv beta iota in Hturn.
  rewrite save_if_attached_written in Hturn. simpl app in *.
  destruct (Storage this) as [storage|] eqn:Hs.
  - destruct (saveChatHistory storage _ _) as [storage' saved] eqn:Hsave.
    subst turn. eexists. split; [|split; [destruct saved; reflexivity|]].
    + destruct saved; simpl; apply template_after_write.
    + by destruct saved.
  - subst turn. eexists. split; [|split; [reflexivity|]].
    + apply template_after_write.
    + by rewrite Storage_array_write.
Qed.

Lemma written_agent (this : OpenAIAgent) (contents : list Message) :
  mem_this (array_write (template_ref this) contents
              {| mem_this := this; mem_fresh := [] |})
  = match defaultHistoryMessages this with
    | Some _ => set_template this contents
    | None => this
    end.
Proof. unfold template_ref. by destruct (defaultHistoryMessages this). Qed.

(** X11. When the first provider call of a turn fails, returns no choice
    or returns a first choice without a message, the turn fails with that
    cause behind the prefix of the turn's faults, nothing is handed to the
    store, and the registry is as tool resolution left it. The user
    message of the failed turn is not taken back: a template of the agent
    holds what was sent. *)
Theorem first_call_fault (this : OpenAIAgent) (st st' : Statics)
    (options : CreateChatCompletionOptions) (toolChoices : option ToolChoices)
    (sent : list Message) (cause : exn) :
  let query :=
    {| q_params :=
         with_tools (spread_params (completionParams this) (custom_params options))
           toolChoices;
       q_messages := sent |} in
  requested_tools options st = (st', Ok toolChoices) ->
  sent_messages this options = Ok sent ->
  (chat_completions_create query = Err cause
   \/ exists response,
        chat_completions_create query = Ok response
        /\ match choices response with
           | [] =>
               cause = Thrown CTypeError
                         "Cannot read properties of undefined (reading 'message')" None
           | {| choice_message := None |} :: _ =>
               cause = Error "No response message received from OpenAI"
           | _ => False
           end) ->
  createChatCompletion this st options
  = (match defaultHistoryMessages this with
     | Some _ => set_template this sent
     | None => this
     end,
     st',
     Err (Error ("Chat completion failed: " +:+ error_message cause))).
Proof.
  cbv zeta. intros Hreq Hsent Hfault.
  rewrite createChatCompletion_spec, Hsent.
  rewrite (complete_requested _ _ _ _ _ _ _ _ Hreq). cbv zeta.
  rewrite array_read_write.
  destruct Hfault as [Hcreate | (response & Hcreate & Hchoices)]; rewrite Hcreate.
  - cbv beta iota; by rewrite written_agent.
  - unfold first_choice_message.
    destruct (choices response) as [|[[responseMessage|]] rest]; [|done|];
      subst cause; simpl choice_message; cbv beta iota; by rewrite written_agent.
Qed.

(** X12. The faults of the tool round. When tools were resolved and the
    first answer carries an empty list of tool calls, the turn fails for the
    lack of tool calls, and a template holds the request and that answer.
    When the calls have run and the second provider call fails, returns no
    choice or a first choice without a message, the turn fails with that
    cause, and a template holds the second request, tool messages
    included. In both cases nothing is handed to the store. *)
Theorem tool_round_fault (this : OpenAIAgent) (st st' : Statics)
    (options : CreateChatCompletionOptions) (tc : ToolChoices) (sent : list Message)
    (response : ChatCompletion) (responseMessage : Message) (rest : list Choice)
    (calls : list ToolCall) (contents : list Message) (cause : exn) :
  let queryParams :=
    with_tools (spread_params (completionParams this) (custom_params options))
      (Some tc) in
  let toolMessages := map (call_tool (choices_toolFunctions tc)) calls in
  let query := {| q_params := queryParams; q_messages := contents |} in
  requested_tools options st = (st', Ok (Some tc)) ->
  sent_messages this options = Ok sent ->
  chat_completions_create {| q_params := queryParams; q_messages := sent |}
  = Ok response ->
  choices response = {| choice_message := Some responseMessage |} :: rest ->
  tool_calls responseMessage = Some calls ->
  (calls = []
   /\ contents = (sent ++ [responseMessage])%list
   /\ cause = Error "No tool calls found in the response message")
  \/ (calls <> []
      /\ contents = (sent ++ [responseMessage] ++ toolMessages)%list
      /\ (chat_completions_create query = Err cause
          \/ exists secondResponse,
               chat_completions_create query = Ok secondResponse
               /\ match choices secondResponse with
                  | [] =>
                      cause = Thrown CTypeError
                        "Cannot read properties of undefined (reading 'message')" None
                  | {| choice_message := None |} :: _ =>
                      cause = Error
                        "No response message received from second tool query to OpenAI"
                  | _ => False
                  end)) ->
  createChatCompletion this st options
  = (match defaultHistoryMessages this with
     | Some _ => set_template this contents
     | None => this
     end,
     st',
     Err (Error ("Chat completion failed: " +:+ error_message cause))).
Proof.
  cbv zeta. intros Hreq Hsent Hcreate Hchoices Hcalls Hfault.
  rewrite createChatCompletion_spec, Hsent.
  rewrite (complete_requested _ _ _ _ _ _ _ _ Hreq). cbv zeta.
  rewrite array_read_write, Hcreate.
  unfold first_choice_message at 1. rewrite Hchoices. simpl choice_message.
  cbv beta iota. rewrite Hcalls.
  rewrite handleToolCompletion_written by exact (sent_messages_nonempty _ _ _ Hsent).
  unfold _callChosenFunctions. rewrite Hcalls.
  destruct Hfault as [(-> & -> & ->) | (Hne & -> & Hsecond)].
  - cbv beta iota; by rewrite written_agent.
  - destruct calls as [|call calls']; [done|]. cbv beta iota zeta.
    destruct Hsecond as [Hcreate' | (secondResponse & Hcreate' & Hchoices')];
      rewrite Hcreate'.
    + cbv beta iota; by rewrite written_agent.
    + unfold first_choice_message.
      destruct (choices secondResponse) as [|[[secondResponseMessage|]] rest'];
        [|done|]; subst cause; simpl choice_message; cbv beta iota; by rewrite written_agent.
Qed.
End TurnResults.

Section TurnContext.
Context `{JSON}.

Lemma filtered_read_plain (storage : AgentStorage) (userId : string)
    (o : HistoryOptions) (messages : list Message) :
  remove_tool_messages o = Some true ->
  getStoredMessages storage userId (Some o) = Ok messages ->
  Forall (fun m => is_plain_message m = true) messages.
Proof.
  intros Hr. unfold getStoredMessages.
  destruct (redisClient storage) as [client|]; [|discriminate].
  simpl. rewrite Hr. simpl. unfold lRange.
  assert (Hfetch : forall stop,
            (messages0 ← (if isOpen client
                          then Ok (lrange (key_list (user_key userId) client) 0 stop)
                          else Err ClientClosedError);
             match messages0 with
             | [] => Ok []
             | _ :: _ =>
                 parsedMessages ← map_result parse_stored messages0;
                 Ok (List.filter is_plain_message (rev parsedMessages))
             end) = Ok messages ->
            Forall (fun m => is_plain_message m = true) messages).
  { intros stop. destruct (isOpen client); [|discriminate]. simpl.
    destruct (lrange _ _ _) as [|entry entries]; [by intros [= <-]|].
    destruct (map_result parse_stored (entry :: entries)) as [parsed|e];
      [|discriminate].
    simpl. intros [= <-]. apply Forall_forall. intros m Hin.
    by apply list_elem_of_In, filter_In in Hin as [_ Hplain]. }
  destruct (appended_messages o) as [[|p|p]|].
  - by intros [= <-].
  - apply Hfetch.
  - apply Hfetch.
  - apply Hfetch.
Qed.

(** X13. On an agent with a store and a non-zero window of its own, a
    turn that names tools, even an empty list of them, reads its context
    with the tool traffic filtered out, whatever the history options of the
    call say: every stored message that goes into the request is a user
    message or an assistant message without tool calls. *)
Theorem tool_turn_context_is_plain (this : OpenAIAgent) (storage : AgentStorage)
    (options : CreateChatCompletionOptions) (names : list string) (k : Z)
    (fetched : list Message) :
  Storage this = Some storage ->
  tool_choices options = Some names ->
  historyOptions this ≫= (fun h => mjoin (own_appended_messages h)) = Some k ->
  k <> 0 ->
  fetch_context this
    (spread_params (completionParams this) (custom_params options)) options
  = Ok fetched ->
  Forall (fun m => role m = user \/ (role m = assistant /\ tool_calls m = None))
    fetched.
Proof.
  intros Hs Hnames Hk Hnz. unfold fetch_context. rewrite Hs.
  intros Hread. apply filtered_read_plain in Hread.
  - eapply Forall_impl; [exact Hread|]. intros m Hplain.
    unfold is_plain_message in Hplain.
    destruct (role m); try discriminate; [by left|].
    right. split; [done|]. by destruct (tool_calls m).
  - unfold turn_history_options. rewrite Hs, Hnames, Hk.
    rewrite !bool_decide_eq_true_2 by (by eexists).
    unfold nonzero. by destruct (Z.eqb_spec k 0).
Qed.
End TurnContext.

(* ================================================================== *)
(** * More properties of the registry *)
(* ================================================================== *)

Section RegistryState.
Context `{Builtins} `{FileSystem}.

Lemma loadToolsDirFiles_statics (dirPath : string) (st st' : Statics)
    (r : result AgentTools) :
  loadToolsDirFiles dirPath st = (st', r) ->
  toolsDirPath st' = toolsDirPath st
  /\ match r with
     | Ok tools => instance st' = Some tools
     | Err _ => st' = st
     end.
Proof.
  unfold loadToolsDirFiles.
  destruct (enumerate_tools dirPath) as [[defs fns]|e]; simpl.
  - destruct (validateToolConfiguration defs fns) as [[]|e]; simpl;
      by intros [= <- <-].
  - by intros [= <- <-].
Qed.

Lemma importToolFunctions_statics (toolNames : list string) (st st' : Statics)
    (r : result ToolChoices) :
  importToolFunctions toolNames st = (st', r) ->
  toolsDirPath st' = toolsDirPath st
  /\ (is_Some (instance st) -> st' = st)
  /\ (toolsDirPath st = None -> st' = st)
  /\ (instance st' = None -> st' = st).
Proof.
  unfold importToolFunctions.
  destruct (toolsDirPath st) as [[|c dirPath]|] eqn:Hpath;
    try (intros [= <- <-]; by rewrite ?Hpath).
  destruct (instance st) as [tools|] eqn:Hinst.
  - intros [= <- <-]. by rewrite ?Hpath.
  - destruct (loadToolsDirFiles _ st) as [st1 loaded] eqn:Hload.
    apply loadToolsDirFiles_statics in Hload as [Hp Hr].
    intros [= <- <-]. rewrite Hp, Hpath. split; [done|].
    split; [by intros [? ?]|]. split; [done|].
    destruct loaded as [tools|e]; [congruence|done].
Qed.
End RegistryState.

Section TurnRegistry.
Context `{JSON} `{Builtins} `{FileSystem} `{CompletionsAPI}.

Lemma complete_statics m st queryParams messages newMessages options m' st' r :
  complete m st queryParams messages newMessages options = (m', st', r) ->
  (requested_tools options st).1 = st'.
Proof.
  destruct (requested_tools options st) as [st1 [toolChoices|e]] eqn:Hreq.
  - rewrite (complete_requested _ _ _ _ _ _ _ _ Hreq). cbv zeta.
    destruct (chat_completions_create _) as [response|e];
      [|by intros [= <- <- <-]].
    destruct (first_choice_message response) as [[responseMessage|]|e];
      [|by intros [= <- <- <-]|by intros [= <- <- <-]].
    destruct (tool_calls responseMessage), toolChoices as [tc|];
      try (destruct (save_if_attached _ _ _) as [m1 [[]|e]]; by intros [= <- <- <-]).
    destruct (_handleToolCompletion _ _ _ _ _ _ _) as [m1 r1].
    by intros [= <- <- <-].
  - unfold complete. unfold requested_tools in Hreq. rewrite Hreq.
    by intros [= <- <- <-].
Qed.

(** X14. What a turn does to the registry. It never changes the recorded
    tools directory. It leaves the registry as it was when no tool is
    named, when no directory is recorded, when a snapshot is already
    published, and when the turn ends without a snapshot: the one change a
    turn can make is to publish the snapshot of a load on demand, and it
    makes it also when the turn fails afterwards. *)
Theorem turn_keeps_registry (this : OpenAIAgent) (st : Statics)
    (options : CreateChatCompletionOptions) this' st' r :
  createChatCompletion this st options = (this', st', r) ->
  toolsDirPath st' = toolsDirPath st
  /\ (tool_choices options = None \/ tool_choices options = Some [] -> st' = st)
  /\ (toolsDirPath st = None -> st' = st)
  /\ (is_Some (instance st) -> st' = st)
  /\ (instance st' = None -> st' = st).
Proof.
  rewrite createChatCompletion_spec.
  destruct (sent_messages this options) as [sent|e]; [|by intros [= <- <- <-]].
  destruct (complete _ _ _ _ _ _) as [[m st1] rc] eqn:Hc.
  apply complete_statics in Hc. intros [= <- <- <-]. revert Hc.
  unfold requested_tools.
  destruct (tool_choices options) as [[|name names]|]; try by intros <-.
  destruct (importToolFunctions (name :: names) st) as [st2 imported] eqn:Himp.
  apply importToolFunctions_statics in Himp as (Hp & Hi & Hn & Hl).
  intros Heq. assert (st1 = st2) as -> by (by destruct imported).
  split; [done|]. split; [by intros [[=]|[=]]|]. done.
Qed.
End TurnRegistry.

(* ================================================================== *)
(** * The earlier loader against the registry *)
(* ================================================================== *)

Lemma isValidFunctionName_validate (s : string) :
  ToolsLoader.isValidFunctionName s = true <-> validateFunctionName (VStr s) = Ok tt.
Proof.
  unfold ToolsLoader.isValidFunctionName, validateFunctionName.
  destruct (String.eqb s EmptyString); simpl; [done|].
  destruct (Nat.ltb_spec 64 (js_length s)), (Nat.leb_spec (js_length s) 64);
    try lia; destruct (all_name_chars s); simpl; done.
Qed.

Lemma isValidFunctionParameters_validate (v : value) :
  ToolsLoader.isValidFunctionParameters v = true
  <-> validateFunctionParameters v = Ok tt.
Proof.
  unfold ToolsLoader.isValidFunctionParameters, validateFunctionParameters.
  destruct v as [| |b|n|s| |]; try done.
  - simpl. by destruct b.
  - simpl. by destruct (n =? 0).
  - simpl. by destruct (String.eqb s EmptyString).
Qed.

Lemma isValidFunctionDefinition_validate (v : value) :
  ToolsLoader.isValidFunctionDefinition v = true
  <-> validateFunctionDefinition v = Ok tt.
Proof.
  unfold ToolsLoader.isValidFunctionDefinition, validateFunctionDefinition.
  destruct v as [| | | | |items|fields];
    try (simpl; rewrite ?orb_true_r; done).
  change (negb (truthy (VObj fields)) || negb (String.eqb (typeof (VObj fields)) "object"))
    with false.
  change (negb (String.eqb (typeof (VObj fields)) "object") || is_null (VObj fields))
    with false.
  cbv zeta iota.
  generalize (get_prop "description" (VObj fields)) as description.
  generalize (get_prop "parameters" (VObj fields)) as parameters.
  generalize (get_prop "strict" (VObj fields)) as strict.
  intros strict parameters description.
  destruct (get_prop "name" (VObj fields)) as [| | | |name| |]; try done.
  pose proof (isValidFunctionName_validate name) as Hn.
  destruct (ToolsLoader.isValidFunctionName name);
    destruct (validateFunctionName (VStr name)) as [[]|e]; simpl;
    [|destruct Hn as [Hn _]; by specialize (Hn eq_refl)
     |destruct Hn as [_ Hn]; by specialize (Hn eq_refl)|done].
  destruct (negb (is_undefined description)
            && negb (String.eqb (typeof description) "string")); [done|].
  pose proof (isValidFunctionParameters_validate parameters) as Hp.
  destruct (is_undefined parameters); simpl.
  - by destruct (negb (is_undefined strict) && _ && _).
  - destruct (ToolsLoader.isValidFunctionParameters parameters);
      destruct (validateFunctionParameters parameters) as [[]|e]; simpl;
      [|destruct Hp as [Hp _]; by specialize (Hp eq_refl)
       |destruct Hp as [_ Hp]; by specialize (Hp eq_refl)|done].
    by destruct (negb (is_undefined strict) && _ && _).
Qed.

(** The test [type === 'function'] as a comparison of strings. *)
Lemma match_function {A : Type} (x y : A) (type : string) :
  match type with
  | "function" => x
  | _ => y
  end = if String.eqb type "function" then x else y.
Proof.
  do 8 (destruct type as [|[[] [] [] [] [] [] [] []] type]; try reflexivity).
  by destruct type.
Qed.

Lemma isValidChatCompletionTool_validate (v : value) :
  ToolsLoader.isValidChatCompletionTool v = true
  <-> validateChatCompletionTool v = Ok tt.
Proof.
  unfold ToolsLoader.isValidChatCompletionTool, validateChatCompletionTool.
  destruct v as [| | | | |items|fields];
    try (simpl; rewrite ?orb_true_r; done).
  change (negb (truthy (VObj fields)) || negb (String.eqb (typeof (VObj fields)) "object"))
    with false.
  change (negb (String.eqb (typeof (VObj fields)) "object") || is_null (VObj fields))
    with false.
  cbv zeta iota.
  destruct (get_prop "type" (VObj fields)) as [| | | |type| |]; try done.
  rewrite !match_function. destruct (String.eqb type "function"); [|done].
  apply isValidFunctionDefinition_validate.
Qed.

(** X15. The boolean validators of the earlier loader and the throwing
    validators of the registry accept the same values: names, parameter
    objects, function definitions and tool definitions. *)
Theorem validators_agree :
  (forall s, ToolsLoader.isValidFunctionName s = true
             <-> validateFunctionName (VStr s) = Ok tt)
  /\ (forall v, ToolsLoader.isValidFunctionParameters v = true
                <-> validateFunctionParameters v = Ok tt)
  /\ (forall v, ToolsLoader.isValidFunctionDefinition v = true
                <-> validateFunctionDefinition v = Ok tt)
  /\ (forall v, ToolsLoader.isValidChatCompletionTool v = true
                <-> validateChatCompletionTool v = Ok tt).
Proof.
  split; [exact isValidFunctionName_validate|].
  split; [exact isValidFunctionParameters_validate|].
  split; [exact isValidFunctionDefinition_validate|].
  exact isValidChatCompletionTool_validate.
Qed.

Lemma fold_result_invariant {A S : Type} (P : S -> Prop) (body : S -> A -> result S)
    (xs : list A) :
  (forall s x s', body s x = Ok s' -> P s -> P s') ->
  forall s s', fold_result body xs s = Ok s' -> P s -> P s'.
Proof.
  intros Hbody. induction xs as [|x rest IH]; simpl; intros s s'.
  - by intros [= <-].
  - destruct (body s x) as [s1|e] eqn:Hx; simpl; [|discriminate].
    intros Hrest Hs. eapply IH; [exact Hrest|]. by eapply Hbody.
Qed.

Lemma check_schemas_implementations `{Builtins} (defs : list value)
    (fns : ToolFunctions) :
  check_implementations defs fns = Ok tt -> ToolsLoader.check_schemas defs fns = Ok tt.
Proof.
  induction defs as [|def rest IH]; simpl; [done|].
  destruct (get_function fns (tool_name def)) as [[f|]|e]; simpl;
    [exact IH|discriminate|discriminate].
Qed.

Section Loaders.
Context `{Builtins} `{FileSystem}.

Lemma process_export_valid (fullPath : string) acc entry acc' :
  process_export fullPath acc entry = Ok acc' ->
  Forall (fun t => validateChatCompletionTool t = Ok tt) acc.1 ->
  Forall (fun t => validateChatCompletionTool t = Ok tt) acc'.1.
Proof.
  destruct acc as [defs fns], entry as [fnName [f|v|error]]; simpl.
  - destruct (set_function fns fnName f) as [fns'|e]; simpl; [|discriminate].
    by intros [= <-].
  - destruct (validateChatCompletionTool v) as [[]|e] eqn:Hv; simpl; [|discriminate].
    intros [= <-] Hdefs. simpl. apply Forall_app. split; [done|]. by constructor.
  - discriminate.
Qed.

Lemma process_file_valid (dirPath : string) acc file acc' :
  process_file dirPath acc file = Ok acc' ->
  Forall (fun t => validateChatCompletionTool t = Ok tt) acc.1 ->
  Forall (fun t => validateChatCompletionTool t = Ok tt) acc'.1.
Proof.
  unfold process_file.
  destruct (negb (endsWith file ".js") && negb (endsWith file ".ts"));
    [by intros [= <-]|].
  destruct (fs_stat_isFile _) as [[]|e]; simpl; [| by intros [= <-] | discriminate].
  destruct (import_module _) as [fileFunctions|e]; simpl; [|discriminate].
  apply (fold_result_invariant
           (fun acc => Forall (fun t => validateChatCompletionTool t = Ok tt) acc.1)).
  intros s x s'. apply process_export_valid.
Qed.

Lemma enumerate_tools_valid (dirPath : string) defs fns :
  enumerate_tools dirPath = Ok (defs, fns) ->
  Forall (fun t => validateChatCompletionTool t = Ok tt) defs.
Proof.
  unfold enumerate_tools.
  destruct (fs_access dirPath) as [[]|e]; simpl; [|discriminate].
  destruct (fs_readdir dirPath) as [files|e]; simpl; [|discriminate].
  intros Hfold.
  apply (fold_result_invariant
           (fun acc => Forall (fun t => validateChatCompletionTool t = Ok tt) acc.1)
           _ _ (process_file_valid dirPath) _ _ Hfold).
  constructor.
Qed.

Lemma loadToolsDirFiles_valid (dirPath : string) (st st' : Statics)
    (tools : AgentTools) :
  loadToolsDirFiles dirPath st = (st', Ok tools) -> valid_snapshot tools.
Proof.
  unfold loadToolsDirFiles.
  destruct (enumerate_tools dirPath) as [[defs fns]|e] eqn:Henum; simpl;
    [|discriminate].
  destruct (validateToolConfiguration defs fns) as [[]|e] eqn:Hv; simpl;
    [|discriminate].
  intros [= <- <-]. unfold valid_snapshot. simpl.
  split; [by eapply enumerate_tools_valid|].
  unfold validateToolConfiguration in Hv. cbv zeta in Hv.
  destruct (length defs =? size (own_functions fns))%nat eqn:Hc; simpl in Hv;
    [|discriminate].
  apply Nat.eqb_eq in Hc. split; [exact Hc | by apply check_implementations_ok].
Qed.

Lemma loadToolsDirFiles_ok (dirPath : string) (st st' : Statics)
    (r : result AgentTools) :
  loadToolsDirFiles dirPath st = (st', r) -> registry_ok st -> registry_ok st'.
Proof.
  intros Hload Hok. pose proof (loadToolsDirFiles_statics _ _ _ _ Hload) as [_ Hr].
  destruct r as [tools|e]; [|by subst].
  intros tools' Hinst. rewrite Hr in Hinst. injection Hinst as <-.
  by eapply loadToolsDirFiles_valid.
Qed.

Lemma importToolFunctions_ok (toolNames : list string) (st st' : Statics)
    (r : result ToolChoices) :
  importToolFunctions toolNames st = (st', r) -> registry_ok st -> registry_ok st'.
Proof.
  unfold importToolFunctions.
  destruct (toolsDirPath st) as [[|c dirPath]|]; try by intros [= <- <-].
  destruct (instance st) as [tools|]; [by intros [= <- <-]|].
  destruct (loadToolsDirFiles _ st) as [st1 loaded] eqn:Hload.
  intros [= <- <-]. by eapply loadToolsDirFiles_ok.
Qed.

(** A successful resolution, read off the snapshot in effect afterwards. *)
Lemma importToolFunctions_Ok (toolNames : list string) (st st' : Statics)
    (tc : ToolChoices) :
  importToolFunctions toolNames st = (st', Ok tc) ->
  exists tools,
    instance st' = Some tools
    /\ choices_toolFunctions tc = toolFunctions tools
    /\ choices_toolChoices tc
       = omap (find_definition (toolDefinitions tools)) toolNames
    /\ List.filter
         (fun name => bool_decide (name ∉ map tool_name (toolDefinitions tools)))
         toolNames = [].
Proof.
  unfold importToolFunctions.
  destruct (toolsDirPath st) as [[|c dirPath]|]; try discriminate.
  assert (Hres : forall tools : AgentTools,
            try_rethrow
              (tools ← Ok tools;
               let toolChoices :=
                 omap (find_definition (toolDefinitions tools)) toolNames in
               let missingTools :=
                 List.filter
                   (fun name =>
                      negb (existsb (fun t => String.eqb (tool_name t) name)
                              toolChoices))
                   toolNames in
               if (0 <? length missingTools)%nat then
                 Err (ToolNotFoundError
                        ("The following tools were not found: "
                           +:+ String.concat ", " missingTools))
               else
                 Ok {| choices_toolChoices := toolChoices;
                       choices_toolFunctions := toolFunctions tools |})
              import_rethrow = Ok tc ->
            choices_toolFunctions tc = toolFunctions tools
            /\ choices_toolChoices tc
               = omap (find_definition (toolDefinitions tools)) toolNames
            /\ List.filter
                 (fun name =>
                    bool_decide (name ∉ map tool_name (toolDefinitions tools)))
                 toolNames = []).
  { intros tools. simpl. rewrite missing_filter.
    destruct (List.filter _ toolNames) as [|name missing]; simpl; [|discriminate].
    by intros [= <-]. }
  destruct (instance st) as [tools|] eqn:Hinst.
  - intros [= <- Hr]. exists tools. split; [done|]. by apply Hres.
  - destruct (loadToolsDirFiles _ st) as [st1 [tools|e]] eqn:Hload;
      [|discriminate].
    apply loadToolsDirFiles_statics in Hload as [_ Hpub].
    intros [= <- Hr]. exists tools. split; [done|]. by apply Hres.
Qed.
End Loaders.

Section RegistryInvariant.
Context `{JSON} `{Builtins} `{FileSystem} `{CompletionsAPI}.

(** X16. The registry holds no snapshot or a checked one, and every
    operation keeps it so: a direct load, a load through the agent, a
    resolution of names and a whole turn. On such a registry every
    definition that a successful resolution returns, one per requested name
    and in request order, has that name, went through the validation, and
    the read [functions[name]] on the returned object is truthy for it, by
    an own property or by an inherited one: a call of a tool that is
    offered to the provider is never answered as a function that was not
    found. *)
Theorem registry_invariant (st : Statics) :
  registry_ok st ->
  (forall dirPath st' r, loadToolsDirFiles dirPath st = (st', r) -> registry_ok st')
  /\ (forall dirPath st' r, loadToolFuctions dirPath st = (st', r) -> registry_ok st')
  /\ (forall toolNames st' r,
        importToolFunctions toolNames st = (st', r) ->
        registry_ok st'
        /\ forall tc, r = Ok tc ->
             Forall2 (fun name t =>
                        tool_name t = name
                        /\ validateChatCompletionTool t = Ok tt
                        /\ exists f,
                             get_function (choices_toolFunctions tc) name
                             = Ok (Some f))
               toolNames (choices_toolChoices tc))
  /\ (forall this options this' st' r,
        createChatCompletion this st options = (this', st', r) -> registry_ok st').
Proof.
  intros Hok. split; [|split; [|split]].
  - intros dirPath st' r Hload. by eapply loadToolsDirFiles_ok.
  - intros dirPath st' r. unfold loadToolFuctions.
    destruct (String.eqb dirPath EmptyString); [by intros [= <- <-]|].
    destruct (loadToolsDirFiles dirPath st) as [st1 [tools|e]] eqn:Hload;
      intros [= <- <-]; apply (loadToolsDirFiles_ok _ _ _ _ Hload) in Hok; done.
  - intros toolNames st' r Himp.
    pose proof (importToolFunctions_ok _ _ _ _ Himp Hok) as Hok'.
    split; [exact Hok'|]. intros tc ->.
    apply importToolFunctions_Ok in Himp as (tools & Hinst & Hfns & Hchoices & Hmiss).
    destruct (Hok' tools Hinst) as (Hvalid & _ & Himpl).
    rewrite Hchoices, Hfns.
    eapply Forall2_impl; [exact (all_found _ _ Hmiss)|].
    intros name t (_ & Hin & Hname). split; [exact Hname|].
    rewrite Forall_forall in Hvalid, Himpl. split; [by apply Hvalid|].
    rewrite <- Hname. by apply Himpl.
  - intros this options this' st' r.
    rewrite createChatCompletion_spec.
    destruct (sent_messages this options) as [sent|e]; [|by intros [= <- <- <-]].
    destruct (complete _ _ _ _ _ _) as [[m st1] rc] eqn:Hc.
    apply complete_statics in Hc. intros [= <- <- <-]. revert Hc.
    unfold requested_tools.
    destruct (tool_choices options) as [[|name names]|]; try by intros <-.
    destruct (importToolFunctions (name :: names) st) as [st2 imported] eqn:Himp.
    apply importToolFunctions_ok in Himp; [|exact Hok].
    intros Heq. assert (st1 = st2) as -> by (by destruct imported). exact Himp.
Qed.
End RegistryInvariant.

Section Snapshot.
Context `{Builtins} `{FileSystem}.

(** X17. In a snapshot that a load has published, whose definitions have
    pairwise different names none of which is the name of a property that
    the object of the implementations inherits, the own properties of that
    object are exactly the functions named by a definition: no
    implementation is left without a definition, and none is missing. *)
Theorem snapshot_names_match (dirPath : string) (st st' : Statics)
    (tools : AgentTools) :
  loadToolsDirFiles dirPath st = (st', Ok tools) ->
  NoDup (map tool_name (toolDefinitions tools)) ->
  Forall (fun t => inherited_function (toolFunctions tools) (tool_name t) = Ok None)
    (toolDefinitions tools) ->
  forall name,
    is_Some (own_functions (toolFunctions tools) !! name)
    <-> name ∈ map tool_name (toolDefinitions tools).
Proof.
  intros Hload Hnodup Hplain name.
  apply loadToolsDirFiles_valid in Hload as (_ & Hcount & Himpl).
  set (defined := list_to_set (map tool_name (toolDefinitions tools)) : gset string).
  assert (Hsub : defined ⊆ dom (own_functions (toolFunctions tools))).
  { intros n Hn. apply elem_of_list_to_set, list_elem_of_In, in_map_iff in Hn
      as (t & <- & Hin).
    apply elem_of_dom. rewrite Forall_forall in Himpl, Hplain.
    apply list_elem_of_In in Hin.
    destruct (Himpl t Hin) as [f Hf]. specialize (Hplain t Hin).
    unfold get_function in Hf.
    destruct (own_functions (toolFunctions tools) !! tool_name t); [done|].
    congruence. }
  assert (Hsize : (size (dom (own_functions (toolFunctions tools)))
                   <= size defined)%nat).
  { rewrite size_dom. unfold defined. rewrite size_list_to_set by done.
    rewrite length_map. lia. }
  pose proof (set_subseteq_size_eq _ _ Hsub Hsize) as Heq.
  rewrite <- elem_of_dom, <- Heq. unfold defined. by rewrite elem_of_list_to_set.
Qed.
End Snapshot.

Section EarlierLoader.
Context `{Builtins} `{FileSystem}.
Hypothesis no_default : forall path m, import_module path = Ok m -> mod_default m = None.

Lemma process_export_take (fullPath : string) acc entry acc' :
  process_export fullPath acc entry = Ok acc' ->
  ToolsLoader.take_export acc entry = Ok acc'.
Proof.
  destruct acc as [defs fns], entry as [fnName [f|v|error]]; simpl.
  - destruct (set_function fns fnName f) as [fns'|e]; simpl; [|discriminate].
    by intros [= <-].
  - pose proof (isValidChatCompletionTool_validate v) as Hv.
    destruct (validateChatCompletionTool v) as [[]|e]; simpl; [|discriminate].
    destruct Hv as [_ Hv]. rewrite (Hv eq_refl). by intros [= <-].
  - discriminate.
Qed.

Lemma process_exports_take (fullPath : string) entries :
  forall acc acc',
  fold_result (process_export fullPath) entries acc = Ok acc' ->
  fold_result ToolsLoader.take_export entries acc = Ok acc'.
Proof.
  induction entries as [|entry rest IH]; simpl; intros acc acc'; [done|].
  destruct (process_export fullPath acc entry) as [acc1|e] eqn:He; simpl;
    [|discriminate].
  apply process_export_take in He. rewrite He. simpl. apply IH.
Qed.

Lemma process_file_take (dirPath : string) acc file acc' :
  process_file dirPath acc file = Ok acc' ->
  ToolsLoader.take_file dirPath acc file = Ok acc'.
Proof.
  unfold process_file, ToolsLoader.take_file.
  destruct (negb (endsWith file ".js") && negb (endsWith file ".ts")); [done|].
  destruct (fs_stat_isFile _) as [[]|e]; simpl; [|done|discriminate].
  destruct (import_module _) as [fileFunctions|e] eqn:Himport; simpl;
    [|discriminate].
  rewrite (no_default _ _ Himport). simpl.
  apply process_exports_take.
Qed.

Lemma process_files_take (dirPath : string) files :
  forall acc acc',
  fold_result (process_file dirPath) files acc = Ok acc' ->
  fold_result (ToolsLoader.take_file dirPath) files acc = Ok acc'.
Proof.
  induction files as [|file rest IH]; simpl; intros acc acc'; [done|].
  destruct (process_file dirPath acc file) as [acc1|e] eqn:Hf; simpl;
    [|discriminate].
  apply process_file_take in Hf. rewrite Hf. simpl. apply IH.
Qed.

Lemma loadToolsDirFiles_earlier (dirPath : string) (st st' : Statics)
    (tools : AgentTools) :
  loadToolsDirFiles dirPath st = (st', Ok tools) ->
  ToolsLoader.loadToolFunctions dirPath st = (st', Ok tools).
Proof.
  unfold loadToolsDirFiles, ToolsLoader.loadToolFunctions, enumerate_tools.
  destruct (fs_access dirPath) as [[]|e]; simpl; [|discriminate].
  destruct (fs_readdir dirPath) as [files|e]; simpl; [|discriminate].
  destruct (fold_result (process_file dirPath) files ([], no_functions))
    as [[defs fns]|e]
    eqn:Hfold; simpl; [|discriminate].
  rewrite (process_files_take _ _ _ _ Hfold). simpl.
  unfold validateToolConfiguration, ToolsLoader.validateToolConfiguration.
  cbv zeta.
  destruct (length defs =? size (own_functions fns))%nat; simpl; [|discriminate].
  destruct (check_implementations defs fns) as [[]|e] eqn:Hcheck; simpl;
    [|discriminate].
  by rewrite (check_schemas_implementations _ _ Hcheck).
Qed.

(** Both resolutions on one snapshot. *)
Lemma resolve_earlier (tools : AgentTools) (toolNames : list string) (tc : ToolChoices)
    (wrap : exn -> exn) :
  try_rethrow
    (tools ← Ok tools;
     let toolChoices := omap (find_definition (toolDefinitions tools)) toolNames in
     let missingTools :=
       List.filter
         (fun name =>
            negb (existsb (fun t => String.eqb (tool_name t) name) toolChoices))
         toolNames in
     if (0 <? length missingTools)%nat then
       Err (ToolNotFoundError
              ("The following tools were not found: "
                 +:+ String.concat ", " missingTools))
     else
       Ok {| choices_toolChoices := toolChoices;
             choices_toolFunctions := toolFunctions tools |})
    import_rethrow = Ok tc ->
  try_rethrow
    (tools ← Ok tools;
     let toolChoices := omap (find_definition (toolDefinitions tools)) toolNames in
     if negb (length toolChoices =? length toolNames)%nat then
       let missingTools :=
         List.filter
           (fun name =>
              negb (existsb (fun t => String.eqb (tool_name t) name) toolChoices))
           toolNames in
       Err (Error ("Tools not found: " +:+ String.concat ", " missingTools))
     else
       Ok {| choices_toolChoices := toolChoices;
             choices_toolFunctions := toolFunctions tools |})
    wrap = Ok tc.
Proof.
  simpl. rewrite missing_filter.
  destruct (List.filter _ toolNames) as [|name missing] eqn:Hmiss; simpl;
    [|discriminate].
  intros [= <-].
  pose proof (Forall2_length _ _ _ (all_found _ _ Hmiss)) as Hlen.
  rewrite <- Hlen, Nat.eqb_refl. reflexivity.
Qed.

(** X18. Where no tool module has a default export, the registry accepts
    nothing that the earlier loader rejected, and with the same outcome: a
    load that succeeds publishes the snapshot the earlier loader would have
    published, a resolution that succeeds returns the same definitions and
    implementations, and a load through the agent records the same path. *)
Theorem registry_refines_earlier_loader (st st' : Statics) :
  (forall dirPath tools,
     loadToolsDirFiles dirPath st = (st', Ok tools) ->
     ToolsLoader.loadToolFunctions dirPath st = (st', Ok tools))
  /\ (forall toolNames tc,
        importToolFunctions toolNames st = (st', Ok tc) ->
        ToolsLoader.importToolFunctions toolNames st = (st', Ok tc))
  /\ (forall dirPath b,
        loadToolFuctions dirPath st = (st', Ok b) ->
        ToolsLoader.loadToolFuctions dirPath st = (st', Ok b)).
Proof.
  split; [|split].
  - intros dirPath tools. apply loadToolsDirFiles_earlier.
  - intros toolNames tc.
    unfold importToolFunctions, ToolsLoader.importToolFunctions.
    destruct (toolsDirPath st) as [[|c dirPath]|]; try discriminate.
    destruct (instance st) as [tools|].
    + intros [= <- Hr]. f_equal. by apply resolve_earlier.
    + destruct (loadToolsDirFiles _ st) as [st1 [tools|e]] eqn:Hload;
        [|discriminate].
      rewrite (loadToolsDirFiles_earlier _ _ _ _ Hload).
      intros [= <- Hr]. f_equal. by apply resolve_earlier.
  - intros dirPath b. unfold loadToolFuctions, ToolsLoader.loadToolFuctions.
    destruct (String.eqb dirPath EmptyString); [discriminate|].
    destruct (loadToolsDirFiles dirPath st) as [st1 [tools|e]] eqn:Hload;
      [|discriminate].
    by rewrite (loadToolsDirFiles_earlier _ _ _ _ Hload).
Qed.
End EarlierLoader.

(* ================================================================== *)
(** * The faults of a load *)
(* ================================================================== *)

Lemma validateFunctionName_fault (name : value) (e : exn) :
  validateFunctionName name = Err e -> instanceof e CValidationError = true.
Proof.
  unfold validateFunctionName.
  destruct name as [| | | |s| |]; try by intros [= <-].
  destruct (String.eqb s EmptyString); [by intros [= <-]|].
  destruct (64 <? js_length s)%nat; [by intros [= <-]|].
  destruct (negb (all_name_chars s)); [by intros [= <-]|discriminate].
Qed.

Lemma validateFunctionDefinition_fault (func : value) (e : exn) :
  validateFunctionDefinition func = Err e -> instanceof e CValidationError = true.
Proof.
  unfold validateFunctionDefinition.
  destruct (negb (truthy func) || negb (String.eqb (typeof func) "object"));
    [by intros [= <-]|].
  cbv zeta.
  destruct (validateFunctionName (get_prop "name" func)) as [[]|e0] eqn:Hname; simpl.
  - destruct (negb (is_undefined (get_prop "description" func)) && _);
      [by intros [= <-]|].
    destruct (negb (is_undefined (get_prop "parameters" func))); simpl.
    + unfold validateFunctionParameters.
      destruct (negb (truthy (get_prop "parameters" func)) || _); simpl;
        [by intros [= <-]|].
      destruct (negb (is_undefined (get_prop "strict" func)) && _ && _);
        [by intros [= <-]|discriminate].
    + destruct (negb (is_undefined (get_prop "strict" func)) && _ && _);
        [by intros [= <-]|discriminate].
  - intros [= <-]. by eapply validateFunctionName_fault.
Qed.

Lemma validateChatCompletionTool_fault (t : value) (e : exn) :
  validateChatCompletionTool t = Err e -> instanceof e CValidationError = true.
Proof.
  unfold validateChatCompletionTool.
  destruct (negb (truthy t) || negb (String.eqb (typeof t) "object"));
    [by intros [= <-]|].
  cbv zeta.
  destruct (get_prop "type" t) as [| | | |type| |]; try by intros [= <-].
  rewrite match_function. destruct (String.eqb type "function").
  - apply validateFunctionDefinition_fault.
  - by intros [= <-].
Qed.

Lemma fold_result_fault {A S : Type} (body : S -> A -> result S) (xs : list A) :
  forall s e, fold_result body xs s = Err e ->
  exists x s0, x ∈ xs /\ body s0 x = Err e.
Proof.
  induction xs as [|x rest IH]; simpl; intros s e; [discriminate|].
  destruct (body s x) as [s1|e0] eqn:Hx; simpl.
  - intros Hrest. apply IH in Hrest as (y & s0 & Hin & Hy).
    exists y, s0. split; [by right|exact Hy].
  - intros [= <-]. exists x, s. split; [by left|exact Hx].
Qed.

Section LoadFaults.
Context `{Builtins} `{FileSystem}.

Lemma process_export_fault (fullPath : string) acc (entry : string * export) (e : exn) :
  process_export fullPath acc entry = Err e ->
  (exists v reason,
     entry.2 = ExValue v
     /\ validateChatCompletionTool v = Err reason
     /\ e = InvalidToolError fullPath entry.1
              ("Invalid tool definition: " +:+ error_message reason))
  \/ (exists cause,
        (entry.2 = ExThrows cause
         \/ exists f, entry.2 = ExFunction f
                      /\ set_function acc.2 entry.1 f = Err cause)
        /\ e = InvalidToolError fullPath entry.1
                 (if instanceof cause CValidationError
                  then "Invalid tool definition: " +:+ error_message cause
                  else "Unexpected error validating tool")).
Proof.
  destruct acc as [defs fns], entry as [fnName [f|v|error]]; simpl.
  - destruct (set_function fns fnName f) as [fns'|cause] eqn:Hset; simpl;
      [discriminate|].
    intros [= <-]. right. exists cause. split; [right; by exists f|].
    by destruct (instanceof cause CValidationError).
  - destruct (validateChatCompletionTool v) as [[]|reason] eqn:Hv; simpl;
      [discriminate|].
    rewrite (validateChatCompletionTool_fault _ _ Hv). intros [= <-].
    left. by exists v, reason.
  - intros [= <-]. right. exists error. split; [by left|].
    by destruct (instanceof error CValidationError).
Qed.

End LoadFaults.

Section AgentLoad.
Context `{Builtins} `{FileSystem}.

(** X20. Loading through the agent and loading directly. The agent's
    [loadToolFuctions] refuses an empty path without touching anything,
    leaves the registry as it was when the load fails, and on success
    publishes the snapshot and records the path, after which names are
    resolved from the snapshot without another load. A direct call of
    [loadToolsDirFiles] publishes the snapshot but records no path: on a
    registry without a recorded path every resolution after it still fails
    with the fault that asks for a load first. *)
Theorem loading_through_the_agent (st : Statics) (dirPath : string) :
  loadToolFuctions EmptyString st
  = (st, Err (ValidationError "Tools directory path required."))
  /\ (forall st' e, loadToolFuctions dirPath st = (st', Err e) -> st' = st)
  /\ (forall st' b,
        loadToolFuctions dirPath st = (st', Ok b) ->
        b = true /\ dirPath <> EmptyString
        /\ toolsDirPath st' = Some dirPath
        /\ exists tools,
             loadToolsDirFiles dirPath st
             = ({| instance := Some tools; toolsDirPath := toolsDirPath st |},
                Ok tools)
             /\ instance st' = Some tools
             /\ forall toolNames,
                  exists r, importToolFunctions toolNames st' = (st', r))
  /\ (forall st' r,
        toolsDirPath st = None ->
        loadToolsDirFiles dirPath st = (st', r) ->
        forall toolNames,
          importToolFunctions toolNames st'
          = (st', Err (ValidationError
                         "Tools directory path not set. Call loadToolsDirFiles with your tools directory path first."))).
Proof.
  split; [done|]. split; [|split].
  - intros st' e. unfold loadToolFuctions.
    destruct (String.eqb dirPath EmptyString); [by intros [= <- <-]|].
    destruct (loadToolsDirFiles dirPath st) as [st1 [tools|e0]] eqn:Hload;
      [discriminate|].
    apply loadToolsDirFiles_statics in Hload as [_ ->]. by intros [= <- <-].
  - intros st' b. unfold loadToolFuctions.
    destruct (String.eqb_spec dirPath EmptyString) as [->|Hne]; [discriminate|].
    destruct (loadToolsDirFiles dirPath st) as [st1 [tools|e0]] eqn:Hload;
      [|discriminate].
    pose proof (loadToolsDirFiles_statics _ _ _ _ Hload) as [Hp Hi].
    intros [= <- <-]. split; [done|]. split; [done|]. split; [done|].
    exists tools. split; [|split; [done|]].
    + f_equal. destruct st1 as [i p]. simpl in *. by subst.
    + intros toolNames.
      destruct (importToolFunctions toolNames _) as [st2 r] eqn:Himp.
      exists r. f_equal.
      apply importToolFunctions_statics in Himp as (_ & Hkeep & _).
      apply Hkeep. simpl. by rewrite Hi.
  - intros st' r Hnone Hload toolNames.
    apply loadToolsDirFiles_statics in Hload as [Hp _].
    unfold importToolFunctions. by rewrite Hp, Hnone.
Qed.
End AgentLoad.

(* ================================================================== *)
(** * Construction *)
(* ================================================================== *)

(** X21. The checks of the constructor itself (the constructor of the
    SDK client, which runs between them, is outside the model): it succeeds
    exactly when the environment holds a non-empty API key and the options
    name a model. The key is checked first: without it the fault lists the
    missing variable, whatever the options are. The agent that comes out
    has no store and no history options; it reads every history as empty
    and refuses to purge one. *)
Theorem constructor_outcomes (env : gmap string string) (agentOptions : AgentOptions) :
  (nonempty (env !! "OPENAI_API_KEY") = false ->
   new_OpenAIAgent env agentOptions
   = Err (Error "Missing required environment variables: OPENAI_API_KEY"))
  /\ (nonempty (env !! "OPENAI_API_KEY") = true ->
      model (o_params agentOptions) = EmptyString ->
      new_OpenAIAgent env agentOptions
      = Err (ValidationError "Model is required to initialize the agent instance"))
  /\ (nonempty (env !! "OPENAI_API_KEY") = true ->
      model (o_params agentOptions) <> EmptyString ->
      exists this,
        new_OpenAIAgent env agentOptions = Ok this
        /\ completionParams this = o_params agentOptions
        /\ defaultHistoryMessages this = o_messages agentOptions
        /\ system_instruction this = o_system_instruction agentOptions
        /\ historyOptions this = None
        /\ (forall (codec : JSON) userId o, getChatHistory this userId o = Ok [])
        /\ (forall (codec : JSON) userId,
              deleteChatHistory this userId
              = (this, Err (ValidationError "Agent storage is not initalized.")))).
Proof.
  unfold new_OpenAIAgent, validateEnvironment, REQUIRED_ENV_VARS. simpl.
  split; [|split].
  - by intros ->.
  - intros -> ->. done.
  - intros -> Hmodel. simpl.
    destruct (String.eqb_spec (model (o_params agentOptions)) EmptyString);
      [done|].
    eexists. split; [reflexivity|]. repeat split.
Qed.

(* ================================================================== *)
(** * A turn and the history it leaves *)
(* ================================================================== *)

Section Recorded.
Context `{JSON} `{Builtins} `{FileSystem} `{CompletionsAPI}.

(** What [saveChatHistory] leaves in the log of an open client. *)
Lemma saveChatHistory_log (client : RedisClient) (userId : option string)
    (log messages : list Message) :
  isOpen client = true ->
  Forall2 (fun entry m => parse_message entry = Some m)
    (key_list (user_key (id_or_default userId)) client) (rev log) ->
  Forall (fun m => parse_message (stringify_message m) = Some m)
    (drop_leading_system messages) ->
  exists client',
    saveChatHistory {| redisClient := Some client |} userId messages
    = ({| redisClient := Some client' |},
       Ok (log ++ drop_leading_system messages)%list)
    /\ isOpen client' = true
    /\ Forall2 (fun entry m => parse_message entry = Some m)
         (key_list (user_key (id_or_default userId)) client')
         (rev (log ++ drop_leading_system messages)).
Proof.
  intros Hopen Hlog Hcodec.
  set (remaining := drop_leading_system messages) in *.
  destruct (push_all_open (user_key (id_or_default userId)) remaining client Hopen)
    as (client' & Hpush & Hopen' & Hkey & _).
  assert (Hlog' : Forall2 (fun entry m => parse_message entry = Some m)
                    (key_list (user_key (id_or_default userId)) client')
                    (rev (log ++ remaining))).
  { rewrite Hkey, rev_app_distr. apply Forall2_app; [|exact Hlog].
    rewrite <- map_rev. apply Forall2_fmap_l, Forall_Forall2_diag.
    apply Forall_forall. intros m Hin. rewrite Forall_forall in Hcodec.
    apply Hcodec. by apply list_elem_of_In, in_rev, list_elem_of_In. }
  exists client'. split; [|by split].
  unfold saveChatHistory. simpl. fold remaining. rewrite Hpush.
  change (getStoredMessages ?s ?u None)
    with (getStoredMessages s u (Some no_options)).
  by rewrite (read_parsed client' _ (log ++ remaining)).
Qed.

(** X22. What a turn stores can be read back. On an agent whose store is
    open and holds a log that parses, a turn without tools whose provider
    call gives an answer succeeds, and the history of the turn's user reads
    afterwards as the old log followed by the user message and the answer,
    provided the codec reads these two back as written. Neither the
    instruction nor the context that was sent is stored again. *)
Theorem turn_is_recorded (this : OpenAIAgent) (st : Statics)
    (options : CreateChatCompletionOptions) (client : RedisClient)
    (log sent : list Message) (response : ChatCompletion) (answer : Message)
    (rest : list Choice) :
  let queryParams := spread_params (completionParams this) (custom_params options) in
  let userId := id_or_default (user_param queryParams) in
  let newMessages := [user_message (message options); answer] in
  Storage this = Some {| redisClient := Some client |} ->
  isOpen client = true ->
  Forall2 (fun entry m => parse_message entry = Some m)
    (key_list (user_key userId) client) (rev log) ->
  Forall (fun m => parse_message (stringify_message m) = Some m) newMessages ->
  tool_choices options = None \/ tool_choices options = Some [] ->
  sent_messages this options = Ok sent ->
  chat_completions_create {| q_params := queryParams; q_messages := sent |}
  = Ok response ->
  choices response = {| choice_message := Some answer |} :: rest ->
  exists this' result,
    createChatCompletion this st options = (this', st, Ok result)
    /\ completion_messages result = newMessages
    /\ getChatHistory this' userId None = Ok (log ++ newMessages)%list.
Proof.
  cbv zeta. intros Hs Hopen Hlog Hcodec Htools Hsent Hcreate Hchoices.
  assert (Hreq : requested_tools options st = (st, Ok None)).
  { unfold requested_tools. by destruct Htools as [-> | ->]. }
  rewrite createChatCompletion_spec, Hsent.
  rewrite (complete_requested _ _ _ _ _ _ _ _ Hreq). cbv zeta.
  rewrite array_read_write. unfold with_tools. rewrite Hcreate.
  unfold first_choice_message. rewrite Hchoices. simpl choice_message.
  cbv beta iota.
  assert (Hbranch : forall A (y : A),
            match tool_calls answer with
            | Some _ => y
            | None => y
            end = y) by (intros; by destruct (tool_calls answer)).
  rewrite Hbranch. rewrite save_if_attached_written, Hs.
  destruct (saveChatHistory_log client
              (user_param (spread_params (completionParams this)
                             (custom_params options)))
              log [user_message (message options); answer] Hopen Hlog Hcodec)
    as (client' & Hsave & Hopen' & Hlog').
  simpl app. rewrite Hsave. cbv beta iota. simpl.
  eexists _, _. split; [reflexivity|]. split; [reflexivity|].
  unfold getChatHistory. simpl Storage. cbv beta iota.
  change (getStoredMessages ?s ?u None)
    with (getStoredMessages s u (Some no_options)).
  by rewrite (read_parsed client' _ _ no_options Hopen' Hlog').
Qed.
End Recorded.

(* ================================================================== *)
(** * The further properties at work on the sample host *)
(* ================================================================== *)


(** A log of three messages read with the limit -1. *)
Lemma getStoredMessages_negative_limit_witness :
  let client := Sample.open_client ["u:3"; "a:2"; "u:1"] in
  isOpen client = true /\ 0 < 1
  /\ @getStoredMessages Sample.json {| redisClient := Some client |} "u1"
       (Some {| appended_messages := Some (-1); remove_tool_messages := None |})
     = Ok [Sample.assistant_message "2"; user_message "3"].
Proof.
  split; [reflexivity|]. split; [lia|].
  assert (Hlog : Forall2 (fun entry m => @parse_message Sample.json entry = Some m)
                   (key_list (user_key "u1") (Sample.open_client ["u:3"; "a:2"; "u:1"]))
                   (rev Sample.history)).
  { repeat constructor. }
  apply (@getStoredMessages_negative_limit Sample.json
           (Sample.open_client ["u:3"; "a:2"; "u:1"]) "u1" Sample.history 1
           eq_refl Hlog).
  lia.
Defined.

(** A log whose second most recent entry is not a message: a read of one
    entry does not meet it, a read of two fails on it. *)
Lemma getStoredMessages_window_witness :
  let client := Sample.open_client ["u:3"; "garbage"; "u:1"] in
  isOpen client = true
  /\ @getStoredMessages Sample.json {| redisClient := Some client |} "u1"
       (Some {| appended_messages := Some 1; remove_tool_messages := None |})
     = Ok [user_message "3"]
  /\ @getStoredMessages Sample.json {| redisClient := Some client |} "u1"
       (Some {| appended_messages := Some 2; remove_tool_messages := None |})
     = Err (Thrown CSyntaxError "Unexpected token in JSON: garbage" None).
Proof.
  split; [reflexivity|]. split.
  - apply (proj1 (@getStoredMessages_window Sample.json
                    (Sample.open_client ["u:3"; "garbage"; "u:1"]) "u1" 1
                    eq_refl ltac:(lia)) [user_message "3"]).
    repeat constructor.
  - apply (proj2 (@getStoredMessages_window Sample.json
                    (Sample.open_client ["u:3"; "garbage"; "u:1"]) "u1" 2
                    eq_refl ltac:(lia)) ["u:3"] "garbage" []).
    + reflexivity.
    + repeat constructor. by eexists.
    + reflexivity.
Defined.

(** A write and a purge for [u1], seen from [u2]. *)
Lemma history_writes_are_per_user_witness :
  let storage := {| redisClient := Some (Sample.open_client ["u:1"]) |} in
  @getStoredMessages Sample.json
    (@saveChatHistory Sample.json storage (Some "u1") [user_message "2"]).1 "u2" None
  = @getStoredMessages Sample.json storage "u2" None
  /\ @getStoredMessages Sample.json
       (@deleteHistory storage "u1").1 "u2" None
     = @getStoredMessages Sample.json storage "u2" None.
Proof.
  split.
  - apply (proj1 (@history_writes_are_per_user Sample.json
                    {| redisClient := Some (Sample.open_client ["u:1"]) |})
             (Some "u1") [user_message "2"] _ _ (surjective_pairing _)).
    discriminate.
  - apply (proj2 (@history_writes_are_per_user Sample.json
                    {| redisClient := Some (Sample.open_client ["u:1"]) |})
             "u1" _ _ (surjective_pairing _)).
    discriminate.
Defined.

(** A system message and two more, saved after one stored message. *)
Lemma saveChatHistory_reads_back_witness :
  let client := Sample.open_client ["u:1"] in
  let messages := [system_message "be brief"; user_message "2";
                   Sample.assistant_message "3"] in
  isOpen client = true
  /\ exists client',
       @saveChatHistory Sample.json {| redisClient := Some client |} (Some "u1") messages
       = ({| redisClient := Some client' |},
          Ok [user_message "1"; user_message "2"; Sample.assistant_message "3"])
       /\ @getStoredMessages Sample.json {| redisClient := Some client' |} "u1"
            (Some {| appended_messages := Some 2; remove_tool_messages := None |})
          = Ok [user_message "2"; Sample.assistant_message "3"].
Proof.
  split; [reflexivity|].
  destruct (@saveChatHistory_reads_back Sample.json (Sample.open_client ["u:1"])
              (Some "u1") [user_message "1"]
              [system_message "be brief"; user_message "2"; Sample.assistant_message "3"]
              eq_refl ltac:(repeat constructor) ltac:(repeat constructor))
    as (client' & Hsave & Hread).
  exists client'. split; [exact Hsave|]. apply Hread. discriminate.
Defined.

(** A turn of [u1] on a store, seen from [u2]. *)
Lemma turn_touches_one_log_witness :
  let this := Sample.agent None (Some (Sample.open_client ["u:1"])) None in
  let turn := @createChatCompletion Sample.json Sample.node Sample.no_files Sample.echo
                this Sample.no_statics (Sample.ask "hi" None) in
  @getChatHistory Sample.json turn.1.1 "u2" None
  = @getChatHistory Sample.json this "u2" None.
Proof.
  cbv zeta.
  destruct (@createChatCompletion Sample.json Sample.node Sample.no_files Sample.echo
              (Sample.agent None (Some (Sample.open_client ["u:1"])) None)
              Sample.no_statics (Sample.ask "hi" None))
    as [[this' st'] r] eqn:Hturn.
  apply (@turn_touches_one_log Sample.json Sample.node Sample.no_files Sample.echo
           _ _ _ _ _ _ Hturn).
  discriminate.
Defined.

(** A purge of a log of two messages, and a read after it. *)
Lemma purge_then_read_witness :
  let client := Sample.open_client ["a:2"; "u:1"] in
  let this := Sample.agent None (Some client) None in
  isOpen client = true
  /\ exists this1,
       @deleteChatHistory this "u1" = (this1, Ok true)
       /\ @getChatHistory Sample.json this1 "u1" None = Ok [].
Proof.
  split; [reflexivity|].
  destruct (@purge_then_read Sample.json
              (Sample.agent None (Some (Sample.open_client ["a:2"; "u:1"])) None)
              (Sample.open_client ["a:2"; "u:1"]) "u1" eq_refl eq_refl)
    as (this1 & Hdel & Hread & _).
  exists this1. split; [exact Hdel | apply Hread].
Defined.

(** One turn without tools on an agent with a template. *)
Lemma plain_turn_result_witness :
  let this := Sample.agent (Some [system_message "be brief"]) None None in
  let response := Sample.answer (Sample.assistant_message "ok") 3 1 in
  exists this',
    defaultHistoryMessages this'
    = Some [system_message "be brief"; user_message "hi"]
    /\ @createChatCompletion Sample.json Sample.node Sample.no_files Sample.echo
         this Sample.no_statics (Sample.ask "hi" None)
       = (this', Sample.no_statics,
          Ok {| res_choices := ["ok"];
                total_usage := getCompletionsUsage response None;
                completion_messages :=
                  [user_message "hi"; Sample.assistant_message "ok"];
                completions := [response] |})
    /\ Storage this' = None.
Proof.
  exact (@plain_turn_result Sample.json Sample.node Sample.no_files Sample.echo
           (Sample.agent (Some [system_message "be brief"]) None None)
           Sample.no_statics (Sample.ask "hi" None)
           [system_message "be brief"; user_message "hi"]
           (Sample.answer (Sample.assistant_message "ok") 3 1)
           (Sample.assistant_message "ok") []
           (or_introl eq_refl) eq_refl eq_refl eq_refl).
Defined.

(** The usage of two provider calls and of a third one that reported
    none. *)
Lemma getTokensUsage_order_free_witness :
  let a := Some {| prompt_tokens := 9; completion_tokens := 2; total_tokens := 11 |} in
  let b := Some {| prompt_tokens := 6; completion_tokens := 1; total_tokens := 7 |} in
  getTokensUsage a b = getTokensUsage b a
  /\ getTokensUsage (Some (getTokensUsage a b)) None
     = getTokensUsage a (Some (getTokensUsage b None))
  /\ safe_usage (Some (getTokensUsage a b)).
Proof.
  cbv zeta.
  assert (Hsafe : forall p c t,
            0 <= p <= 100 -> 0 <= c <= 100 -> 0 <= t <= 100 ->
            safe_usage (Some {| prompt_tokens := p; completion_tokens := c;
                                total_tokens := t |})).
  { intros p c t Hp Hc Ht. unfold safe_usage, safe_count, MAX_SAFE_INTEGER.
    simpl. lia. }
  destruct (getTokensUsage_order_free
              (Some {| prompt_tokens := 9; completion_tokens := 2; total_tokens := 11 |})
              (Some {| prompt_tokens := 6; completion_tokens := 1; total_tokens := 7 |})
              None)
    as (Hcomm & Hassoc & Hab & _).
  - apply Hsafe; lia.
  - apply Hsafe; lia.
  - unfold safe_usage, safe_count, MAX_SAFE_INTEGER. simpl. lia.
  - apply Hsafe; simpl; lia.
  - split; [exact Hcomm|]. split; [exact Hassoc|]. exact Hab.
Defined.

(** One turn with the weather tool. *)
Lemma tool_turn_result_witness :
  let this := Sample.agent None None None in
  let toolMessages :=
    map (@call_tool Sample.json Sample.node (toolFunctions Sample.weather_tools))
      [ {| call_id := "c1"; call_name := "get_weather"; call_arguments := "{}" |} ] in
  let first := Sample.answer Sample.weather_call 5 1 in
  let second := Sample.answer (Sample.assistant_message "it is sunny") 10 2 in
  exists this',
    defaultHistoryMessages this' = None
    /\ @createChatCompletion Sample.json Sample.node Sample.tool_files Sample.forecaster
         this Sample.loaded_statics Sample.ask_weather
       = (this', Sample.loaded_statics,
          Ok {| res_choices := ["it is sunny"];
                total_usage := getCompletionsUsage first (Some second);
                completion_messages :=
                  ([user_message "weather?"; Sample.weather_call] ++ toolMessages
                     ++ [Sample.assistant_message "it is sunny"])%list;
                completions := [first; second] |})
    /\ Storage this' = None.
Proof.
  cbv zeta.
  pose proof (@tool_turn_result Sample.json Sample.node Sample.tool_files Sample.forecaster
           (Sample.agent None None None) Sample.loaded_statics Sample.loaded_statics
           Sample.ask_weather Sample.weather_choices [user_message "weather?"]
           (Sample.answer Sample.weather_call 5 1)
           (Sample.answer (Sample.assistant_message "it is sunny") 10 2)
           Sample.weather_call (Sample.assistant_message "it is sunny")
           [ {| call_id := "c1"; call_name := "get_weather"; call_arguments := "{}" |} ]
           [] []
           eq_refl eq_refl eq_refl eq_refl eq_refl ltac:(discriminate)
           eq_refl eq_refl) as Hw.
  destruct Hw as (this' & Ht & Hw).
  change (Storage (Sample.agent None None None)) with (@None AgentStorage) in Hw.
  cbv beta iota in Hw. destruct Hw as [Hturn Hs].
  exists this'. split; [exact Ht|]. split; [|exact Hs].
  rewrite Hturn. reflexivity.
Defined.

(** A turn while the provider is down, on an agent with a template. *)
Lemma first_call_fault_witness :
  let this := Sample.agent (Some []) None None in
  @createChatCompletion Sample.json Sample.node Sample.no_files Sample.down
    this Sample.no_statics (Sample.ask "hi" None)
  = (set_template this [user_message "hi"], Sample.no_statics,
     Err (Error "Chat completion failed: 503 Service Unavailable")).
Proof.
  exact (@first_call_fault Sample.json Sample.node Sample.no_files Sample.down
           (Sample.agent (Some []) None None) Sample.no_statics Sample.no_statics
           (Sample.ask "hi" None) None [user_message "hi"]
           (Error "503 Service Unavailable")
           eq_refl eq_refl (or_introl eq_refl)).
Defined.

(** A tool turn whose second provider call fails. *)
Lemma tool_round_fault_witness :
  let this := Sample.agent (Some []) None None in
  let toolMessages :=
    map (@call_tool Sample.json Sample.node (choices_toolFunctions Sample.weather_choices))
      [ {| call_id := "c1"; call_name := "get_weather"; call_arguments := "{}" |} ] in
  @createChatCompletion Sample.json Sample.node Sample.tool_files Sample.flaky
    this Sample.loaded_statics Sample.ask_weather
  = (set_template this
       ([user_message "weather?"] ++ [Sample.weather_call] ++ toolMessages)%list,
     Sample.loaded_statics,
     Err (Error "Chat completion failed: 503 Service Unavailable")).
Proof.
  cbv zeta.
  pose proof (@tool_round_fault Sample.json Sample.node Sample.tool_files Sample.flaky
           (Sample.agent (Some []) None None) Sample.loaded_statics
           Sample.loaded_statics Sample.ask_weather Sample.weather_choices
           [user_message "weather?"] (Sample.answer Sample.weather_call 5 1)
           Sample.weather_call []
           [ {| call_id := "c1"; call_name := "get_weather"; call_arguments := "{}" |} ]
           ([user_message "weather?"] ++ [Sample.weather_call]
              ++ map (@call_tool Sample.json Sample.node (choices_toolFunctions Sample.weather_choices))
                   [ {| call_id := "c1"; call_name := "get_weather";
                        call_arguments := "{}" |} ])%list
           (Error "503 Service Unavailable")
           eq_refl eq_refl eq_refl eq_refl eq_refl) as Hw.
  cbv zeta in Hw. rewrite Hw; [reflexivity|].
  right. split; [discriminate|]. split; [reflexivity|]. left. reflexivity.
Defined.

(** An agent with a window of five messages, asked with an empty list of
    tools and with the filter switched off for the call: the tool message
    in the log still stays out of the context. *)
Lemma tool_turn_context_is_plain_witness :
  let storage :=
    {| redisClient := Some (Sample.open_client ["t:sunny"; "a:2"; "u:1"]) |} in
  let this :=
    {| completionParams := Sample.params;
       defaultHistoryMessages := None;
       Storage := Some storage;
       system_instruction := None;
       historyOptions :=
         Some {| own_appended_messages := Some (Some 5);
                        own_remove_tool_messages := None |} |} in
  let options :=
    mkOptions "hi" None (Some []) None
      (Some {| own_appended_messages := None;
                       own_remove_tool_messages := Some (Some false) |}) in
  @fetch_context Sample.json this
    (spread_params (completionParams this) (custom_params options)) options
  = Ok [user_message "1"; Sample.assistant_message "2"]
  /\ Forall (fun m => role m = user \/ (role m = assistant /\ tool_calls m = None))
       [user_message "1"; Sample.assistant_message "2"].
Proof.
  cbv zeta. split; [reflexivity|].
  apply (@tool_turn_context_is_plain Sample.json
           {| completionParams := Sample.params;
              defaultHistoryMessages := None;
              Storage :=
                Some {| redisClient :=
                          Some (Sample.open_client ["t:sunny"; "a:2"; "u:1"]) |};
              system_instruction := None;
              historyOptions :=
                Some {| own_appended_messages := Some (Some 5);
                        own_remove_tool_messages := None |} |}
           {| redisClient := Some (Sample.open_client ["t:sunny"; "a:2"; "u:1"]) |}
           (mkOptions "hi" None (Some []) None
              (Some {| own_appended_messages := None;
                       own_remove_tool_messages := Some (Some false) |}))
           [] 5);
    [reflexivity | reflexivity | reflexivity | lia | reflexivity].
Defined.

(** A turn without tools on a registry with a snapshot. *)
Lemma turn_keeps_registry_witness :
  (@createChatCompletion Sample.json Sample.node Sample.tool_files Sample.echo
     (Sample.agent None None None) Sample.loaded_statics (Sample.ask "hi" None)).1.2
  = Sample.loaded_statics.
Proof.
  destruct (@createChatCompletion Sample.json Sample.node Sample.tool_files Sample.echo
              (Sample.agent None None None) Sample.loaded_statics
              (Sample.ask "hi" None))
    as [[this' st'] r] eqn:Hturn.
  destruct (@turn_keeps_registry Sample.json Sample.node Sample.tool_files Sample.echo
              _ _ _ _ _ _ Hturn) as (_ & Hnone & _).
  apply Hnone. by left.
Defined.

(** A resolution that loads on demand from the recorded directory. *)
Lemma registry_invariant_witness :
  let st := {| instance := None; toolsDirPath := Some "tools" |} in
  @registry_ok Sample.node st
  /\ @importToolFunctions Sample.node Sample.tool_files ["get_weather"] st
     = (Sample.loaded_statics, Ok Sample.weather_choices)
  /\ Forall2 (fun name t =>
                tool_name t = name
                /\ validateChatCompletionTool t = Ok tt
                /\ exists f,
                     @get_function Sample.node
                       (choices_toolFunctions Sample.weather_choices) name
                     = Ok (Some f))
       ["get_weather"] (choices_toolChoices Sample.weather_choices).
Proof.
  cbv zeta.
  assert (Hok : @registry_ok Sample.node
                  {| instance := None; toolsDirPath := Some "tools" |})
    by (intros tools; discriminate).
  assert (Himp : @importToolFunctions Sample.node Sample.tool_files ["get_weather"]
                   {| instance := None; toolsDirPath := Some "tools" |}
                 = (Sample.loaded_statics, Ok Sample.weather_choices))
    by (vm_compute; reflexivity).
  split; [exact Hok|]. split; [exact Himp|].
  destruct (@registry_invariant Sample.json Sample.node Sample.tool_files Sample.echo _ Hok)
    as (_ & _ & Hresolve & _).
  destruct (Hresolve _ _ _ Himp) as [_ Hchoices]. by apply Hchoices.
Defined.

(** The snapshot of the sound directory. *)
Lemma snapshot_names_match_witness :
  @loadToolsDirFiles Sample.node Sample.tool_files "tools" Sample.no_statics
  = ({| instance := Some Sample.weather_tools; toolsDirPath := None |},
     Ok Sample.weather_tools)
  /\ (is_Some (own_functions (toolFunctions Sample.weather_tools) !! "get_weather")
      <-> "get_weather" ∈ map tool_name (toolDefinitions Sample.weather_tools)).
Proof.
  assert (Hload : @loadToolsDirFiles Sample.node Sample.tool_files "tools" Sample.no_statics
                  = ({| instance := Some Sample.weather_tools; toolsDirPath := None |},
                     Ok Sample.weather_tools))
    by (vm_compute; reflexivity).
  split; [exact Hload|].
  apply (@snapshot_names_match Sample.node Sample.tool_files _ _ _ _ Hload).
  - change (NoDup ["get_weather"]). apply NoDup_singleton.
  - repeat constructor.
Defined.

(** The sound directory through the earlier loader. *)
Lemma registry_refines_earlier_loader_witness :
  (forall path m,
     @import_module Sample.tool_files path = Ok m -> mod_default m = None)
  /\ @ToolsLoader.loadToolFunctions Sample.node Sample.tool_files "tools" Sample.no_statics
     = ({| instance := Some Sample.weather_tools; toolsDirPath := None |},
        Ok Sample.weather_tools).
Proof.
  assert (Hnone : forall path m,
            @import_module Sample.tool_files path = Ok m -> mod_default m = None).
  { intros path m. cbv [import_module Sample.tool_files].
    destruct (String.eqb path "tools/weather.ts"); [by intros [= <-]|].
    destruct (String.eqb path "uneven/lonely.ts"); [by intros [= <-]|].
    destruct (String.eqb path "unmatched/renamed.js"); [by intros [= <-]|].
    destruct (String.eqb path "shadowed/shadowed.js"); [by intros [= <-]|].
    destruct (String.eqb path "trapped/trapped.js"); [by intros [= <-]|].
    discriminate. }
  split; [exact Hnone|].
  apply (proj1 (@registry_refines_earlier_loader Sample.node Sample.tool_files Hnone
                  Sample.no_statics
                  {| instance := Some Sample.weather_tools; toolsDirPath := None |})).
  vm_compute. reflexivity.
Defined.


(** A load through the agent, and a direct load followed by a
    resolution. *)
Lemma loading_through_the_agent_witness :
  toolsDirPath Sample.no_statics = None
  /\ @importToolFunctions Sample.node Sample.tool_files ["get_weather"]
       (@loadToolsDirFiles Sample.node Sample.tool_files "tools" Sample.no_statics).1
     = ((@loadToolsDirFiles Sample.node Sample.tool_files "tools" Sample.no_statics).1,
        Err (ValidationError
               "Tools directory path not set. Call loadToolsDirFiles with your tools directory path first."))
  /\ forall st' b,
       @loadToolFuctions Sample.node Sample.tool_files "tools" Sample.no_statics = (st', Ok b) ->
       toolsDirPath st' = Some "tools".
Proof.
  destruct (@loading_through_the_agent Sample.node Sample.tool_files Sample.no_statics "tools")
    as (_ & _ & Hok & Hdirect).
  split; [reflexivity|]. split.
  - apply (Hdirect _ _ eq_refl (surjective_pairing _)).
  - intros st' b Hload. by destruct (Hok _ _ Hload) as (_ & _ & Hpath & _).
Defined.

(** An environment with a key and options with a model; and an empty
    environment. *)
Lemma constructor_outcomes_witness :
  let agentOptions :=
    {| o_params := Sample.params; o_messages := None;
       o_system_instruction := Some "be brief" |} in
  (exists this,
     new_OpenAIAgent {[ "OPENAI_API_KEY" := "sk-test" ]} agentOptions = Ok this
     /\ historyOptions this = None)
  /\ new_OpenAIAgent ∅ agentOptions
     = Err (Error "Missing required environment variables: OPENAI_API_KEY").
Proof.
  cbv zeta. split.
  - assert (Hkey : nonempty (({[ "OPENAI_API_KEY" := "sk-test" ]}
                                : gmap string string) !! "OPENAI_API_KEY") = true)
      by (vm_compute; reflexivity).
    destruct (proj2 (proj2 (constructor_outcomes {[ "OPENAI_API_KEY" := "sk-test" ]}
                              {| o_params := Sample.params; o_messages := None;
                                 o_system_instruction := Some "be brief" |}))
                Hkey ltac:(discriminate))
      as (this & Hnew & _ & _ & _ & Hh & _).
    by exists this.
  - apply (proj1 (constructor_outcomes ∅
                    {| o_params := Sample.params; o_messages := None;
                       o_system_instruction := Some "be brief" |})).
    reflexivity.
Defined.

(** A turn on a store that holds one message. *)
Lemma turn_is_recorded_witness :
  let client := Sample.open_client ["u:1"] in
  let this := Sample.agent None (Some client) None in
  isOpen client = true
  /\ exists this' result,
       @createChatCompletion Sample.json Sample.node Sample.no_files Sample.echo
         this Sample.no_statics (Sample.ask "hi" None)
       = (this', Sample.no_statics, Ok result)
       /\ completion_messages result
          = [user_message "hi"; Sample.assistant_message "ok"]
       /\ @getChatHistory Sample.json this' "u1" None
          = Ok [user_message "1"; user_message "hi"; Sample.assistant_message "ok"].
Proof.
  cbv zeta. split; [reflexivity|].
  apply (@turn_is_recorded Sample.json Sample.node Sample.no_files Sample.echo
           (Sample.agent None (Some (Sample.open_client ["u:1"])) None)
           Sample.no_statics (Sample.ask "hi" None) (Sample.open_client ["u:1"])
           [user_message "1"] [user_message "1"; user_message "hi"]
           (Sample.answer (Sample.assistant_message "ok") 3 1)
           (Sample.assistant_message "ok") []).
  - reflexivity.
  - reflexivity.
  - repeat constructor.
  - repeat constructor.
  - by left.
  - reflexivity.
  - reflexivity.
  - reflexivity.
Defined.
